(** * ssa-names: the in-memory analytics engine of package [namesdata]

    A shallow embedding of [AggregateNames], [RankFromAggregate],
    [NewNameSampler], [Pick], [RandomNameFromAggregateWithTotal] and [Trend]
    (Go package [namesdata]) and the properties of them that the
    specification states; then of the rest of the package ([TopNames],
    [Rank], [RandomName], the loader, [AggregateFromFS],
    [RandomNameFromFS]) and of the year filter of package [cli], with
    further properties read off the code.

    Conventions of the embedding.
    - Go's [int] is the 64-bit two's complement integer: a value is a [Z] and
      every addition the code does is [add64], the sum wrapped into
      [-2^63, 2^63).  Sums named in the theorems are the sums the code
      computes ([sumCounts]); [sumCounts_exact] relates them to the
      mathematical sum when nothing overflows.
    - Go's [string] is a byte string, here [string] (a list of [ascii]).
      [strings.ToUpper] and [strings.TrimSpace] are the two functions of the
      class [Strings]: the program is embedded over them, and every theorem
      holds whatever they do on text that is not ASCII (letters with an upper
      case, white space and invalid UTF-8 beyond the first 128 bytes).  The
      instance [asciiStrings] runs the examples, whose text is ASCII.
      Go's [<] on strings is the byte-wise lexicographic order [String.ltb].
    - Go's [float64] is the kernel's binary64 [float].
    - A Go [map] is a [gmap]; ranging over it visits the entries in an
      arbitrary order, which the model makes explicit where the code ranges
      over a map ([AggregateNames_run]).
    - A function that returns [(value, error)] returns a [result]; a run-time
      panic (index out of range) is the outcome [Panic].
    - The library calls of the loader are modelled by what they return: an
      [fs.FS] by the listing of its root and the lines [bufio.Scanner]
      yields for each file ([FS]); [strconv.Atoi], [strings.Split],
      [strings.HasSuffix], [strings.Contains], [strings.Join] and
      [fmt.Sprintf("%d")] by functions on byte strings. *)

From Stdlib Require Import ZArith String Ascii List Floats Lia.
From stdpp Require Import gmap strings list fin_maps sorting.

Local Open Scope string_scope.
Local Open Scope Z_scope.

(** ** Machine integers *)

Definition wrap64 (z : Z) : Z := (z + 2 ^ 63) mod 2 ^ 64 - 2 ^ 63.

(** [a + b] on Go's [int]. *)
Definition add64 (a b : Z) : Z := wrap64 (a + b).

Definition inInt64 (z : Z) : Prop := - 2 ^ 63 <= z < 2 ^ 63.

(** ** Strings *)

(** *** The functions of package [strings] on ASCII text *)

(** [unicode.ToUpper] on one ASCII byte. *)
Definition upperByte (c : ascii) : ascii :=
  let n := N_of_ascii c in
  if ((97 <=? n) && (n <=? 122))%N then ascii_of_N (n - 32) else c.

(** [strings.ToUpper] on a string of ASCII bytes. *)
Fixpoint asciiToUpper (s : string) : string :=
  match s with
  | EmptyString => EmptyString
  | String c s' => String (upperByte c) (asciiToUpper s')
  end.

(** The ASCII white space of [strings.TrimSpace]: tab, line feed, vertical
    tab, form feed, carriage return and space. *)
Definition isSpace (c : ascii) : bool :=
  let n := N_of_ascii c in
  ((9 <=? n) && (n <=? 13) || (n =? 32))%N.

Fixpoint trimLeft (s : string) : string :=
  match s with
  | EmptyString => EmptyString
  | String c s' => if isSpace c then trimLeft s' else s
  end.

Fixpoint trimRight (s : string) : string :=
  match s with
  | EmptyString => EmptyString
  | String c s' =>
      match trimRight s' with
      | EmptyString => if isSpace c then EmptyString else String c EmptyString
      | t => String c t
      end
  end.

(** [strings.TrimSpace] on a string of ASCII bytes. *)
Definition asciiTrimSpace (s : string) : string := trimRight (trimLeft s).

(** A string of ASCII bytes: every byte is below [utf8.RuneSelf]. *)
Fixpoint isASCII (s : string) : bool :=
  match s with
  | EmptyString => true
  | String c s' => (N_of_ascii c <? 128)%N && isASCII s'
  end.

(** *** Package [strings] as the program uses it *)

(** [strings.ToUpper] and [strings.TrimSpace] work on the runes of a
    string and know all of Unicode: the letters that have an upper case, the
    white space beyond ASCII, and what to do with bytes that are not UTF-8.
    The program is embedded over these two functions as they are, whatever
    they do on such text; what is used of them is that on ASCII text they
    are the functions above (the fast paths of the library), that
    [ToUpper] maps no string but the empty one to the empty string, and
    that trimming twice is trimming once. *)
Class Strings : Type := {
  ToUpper : string -> string;
  TrimSpace : string -> string;
  ToUpper_ASCII :
    forall s : string, isASCII s = true -> ToUpper s = asciiToUpper s;
  TrimSpace_ASCII :
    forall s : string, isASCII s = true -> TrimSpace s = asciiTrimSpace s;
  ToUpper_nonempty : forall s : string, ToUpper s = "" -> s = "";
  TrimSpace_idem : forall s : string, TrimSpace (TrimSpace s) = TrimSpace s
}.

(** ** Data model *)

(** [type Record struct]. *)
Record Record_ : Type := mkRecord {
  State : string;
  Gender : string;
  Year : Z;
  RName : string;
  RCount : Z
}.

(** [type NameCount struct]. *)
Record NameCount : Type := mkNameCount {
  Name : string;
  Count : Z
}.

(** [type TrendPoint struct]. *)
Record TrendPoint : Type := mkTrendPoint {
  PYear : Z;
  PRank : Z;
  PCount : Z;
  Present : bool
}.

(** [type TrendSeries struct]. *)
Record TrendSeries : Type := mkTrendSeries {
  SName : string;
  Points : list TrendPoint
}.

#[global] Instance NameCount_eq_dec : EqDecision NameCount.
Proof. solve_decision. Defined.

#[global] Instance TrendPoint_eq_dec : EqDecision TrendPoint.
Proof. solve_decision. Defined.

(** The errors of the package, one constructor per message. *)
Inductive error : Type :=
  | ErrNameRequired                     (* "name is required" *)
  | ErrNoMatchingRecords                (* "no matching records for the provided filters" *)
  | ErrNameNotFound (name : string)     (* "name %q not found for the provided filters" *)
  | ErrNegativeCount (name : string)    (* "negative count for %q" *)
  | ErrNoProbabilityMass                (* "no probability mass available" *)
  | ErrAtLeastOneName.                  (* "at least one name is required" *)

(** The outcome of a call: a value with a nil error, an error (Go returns the
    zero values beside it), a run-time panic, or a loop of the model that
    ran out of fuel. *)
Inductive result (A : Type) : Type :=
  | Ok (a : A)
  | Err (e : error)
  | Panic
  | OutOfFuel.
Arguments Ok {A} a.
Arguments Err {A} e.
Arguments Panic {A}.
Arguments OutOfFuel {A}.

Section Program.
Context {strings : Strings}.

#[global] Instance result_bind : MBind result := fun A B k r =>
  match r with
  | Ok a => k a
  | Err e => Err e
  | Panic => Panic
  | OutOfFuel => OutOfFuel
  end.

#[global] Instance result_ret : MRet result := fun A a => Ok a.

(** [len(l)] as a Go [int]. *)
Definition len {A : Type} (l : list A) : Z := Z.of_nat (length l).

(** [l[i]]: panics out of range. *)
Definition index {A : Type} (l : list A) (i : Z) : result A :=
  if i <? 0 then Panic
  else match l !! Z.to_nat i with
       | Some a => Ok a
       | None => Panic
       end.

(** [l[i] = x]: panics out of range. *)
Definition store {A : Type} (l : list A) (i : Z) (x : A) : result (list A) :=
  if (i <? 0) || (len l <=? i) then Panic
  else Ok (<[Z.to_nat i := x]> l).

(** ** AggregateNames *)

(** The two guards of the loop over the records ([continue] when [true]);
    [gender] is the filter already trimmed and upper-cased. *)
Definition skipYear (year : Z) (r : Record_) : bool :=
  negb (year =? 0) && negb (Year r =? year).

Definition skipGender (gender : string) (r : Record_) : bool :=
  negb (String.eqb gender "") && negb (String.eqb (ToUpper (Gender r)) gender).

(** The rest of the loop body: the entry under the upper-cased name is
    created with the record's casing when the key is new, and its count grows
    by the record's count (the map holds pointers, the update is in place). *)
Definition addRecord (totals : gmap string NameCount) (r : Record_)
  : gmap string NameCount :=
  let key := ToUpper (RName r) in
  let entry := default (mkNameCount (RName r) 0) (totals !! key) in
  <[key := mkNameCount (Name entry) (add64 (Count entry) (RCount r))]> totals.

Definition groupTotals (records : list Record_) (year : Z) (gender : string)
  : gmap string NameCount :=
  fold_left
    (fun totals r =>
       if skipYear year r then totals
       else if skipGender gender r then totals
       else addRecord totals r)
    records ∅.

(** The comparison handed to [sort.Slice]. *)
Definition less (a b : NameCount) : bool :=
  if Count a =? Count b then String.ltb (Name a) (Name b)
  else Count a >? Count b.

(** What [sort.Slice] promises of its result for a comparison [lt]: the same
    elements, and no later element is less than an earlier one.  The sort is
    not stable and its algorithm is not specified. *)
Definition sortedBy {A : Type} (lt : A -> A -> bool) (l : list A) : Prop :=
  forall (i j : nat) (a b : A),
    (i < j)%nat -> l !! i = Some a -> l !! j = Some b -> lt b a = false.

Definition sortSlice_spec {A : Type} (lt : A -> A -> bool)
  (input output : list A) : Prop :=
  output ≡ₚ input /\ sortedBy lt output.

(** One sort that keeps the promise: merge sort on "not after". *)
Definition notAfter (a b : NameCount) : Prop := less b a = false.

#[global] Instance notAfter_dec : RelDecision notAfter.
Proof. intros a b. unfold notAfter. apply _. Defined.

Definition sortSlice (l : list NameCount) : list NameCount :=
  merge_sort notAfter l.

(** The loop that fills [ranks]; [idx] is the index of the head of [l].
    Indices stay below [len], so [idx + 1] does not wrap. *)
Fixpoint rankLoop (idx : Z) (l : list NameCount) (ranks : gmap string Z)
  : gmap string Z :=
  match l with
  | [] => ranks
  | entry :: l' =>
      rankLoop (idx + 1) l' (<[ToUpper (Name entry) := idx + 1]> ranks)
  end.

(** The entries of [totals] in the order the map yields them here. *)
Definition entriesOf (totals : gmap string NameCount) : list NameCount :=
  (map_to_list totals).*2.

Definition AggregateNames (records : list Record_) (year : Z) (gender : string)
  : list NameCount * gmap string Z :=
  let gender := ToUpper (TrimSpace gender) in
  let totals := groupTotals records year gender in
  let aggregated := sortSlice (entriesOf totals) in
  (aggregated, rankLoop 0 aggregated ∅).

(** Every run Go allows: the [range] over [totals] visits the entries in any
    order, and [sort.Slice] returns any list that keeps its promise. *)
Definition AggregateNames_run (records : list Record_) (year : Z)
  (gender : string) (out : list NameCount * gmap string Z) : Prop :=
  let gender := ToUpper (TrimSpace gender) in
  let totals := groupTotals records year gender in
  exists visited aggregated : list NameCount,
    visited ≡ₚ entriesOf totals /\
    sortSlice_spec less visited aggregated /\
    out = (aggregated, rankLoop 0 aggregated ∅).

(** ** RankFromAggregate *)

Definition RankFromAggregate (aggregated : list NameCount)
  (ranks : gmap string Z) (name : string) : result (Z * NameCount) :=
  if String.eqb (TrimSpace name) "" then Err ErrNameRequired
  else if len aggregated =? 0 then Err ErrNoMatchingRecords
  else
    let target := ToUpper name in
    match ranks !! target with
    | None => Err (ErrNameNotFound name)
    | Some rank =>
        entry ← index aggregated (rank - 1);
        Ok (rank, entry)
    end.

(** [Rank]. *)
Definition Rank (records : list Record_) (year : Z) (gender name : string)
  : result (Z * NameCount) :=
  let '(aggregated, ranks) := AggregateNames records year gender in
  RankFromAggregate aggregated ranks name.

(** ** Random sources *)

(** A [*rand.Rand]: [Intn] and [Float64] return a number and leave the
    source in its next state.  A [nil] source is replaced by a time-seeded
    one before use, so the functions below take the source they draw
    from. *)
Class RandSource (rng : Type) : Type := {
  Intn : rng -> Z -> Z * rng;
  Float64 : rng -> float * rng
}.

(** [r.Intn(n)] panics when [n <= 0]. *)
Definition intn {rng : Type} `{RandSource rng} (r : rng) (n : Z)
  : result (Z * rng) :=
  if n <=? 0 then Panic else Ok (Intn r n).

(** ** RandomNameFromAggregateWithTotal *)

(** The loop over the entries: [running] is the sum so far. [None] when the
    loop ends without returning. *)
Fixpoint scan (pick running : Z) (l : list NameCount) : option NameCount :=
  match l with
  | [] => None
  | entry :: l' =>
      let running := add64 running (Count entry) in
      if pick <? running then Some entry else scan pick running l'
  end.

Definition RandomNameFromAggregateWithTotal {rng : Type} `{RandSource rng}
  (aggregated : list NameCount) (total : Z) (r : rng)
  : result (NameCount * rng) :=
  if len aggregated =? 0 then Err ErrNoMatchingRecords
  else if total <=? 0 then Err ErrNoProbabilityMass
  else
    '(pick, r') ← intn r total;
    match scan pick 0 aggregated with
    | Some entry => Ok (entry, r')
    | None =>
        entry ← index aggregated (len aggregated - 1);
        Ok (entry, r')
    end.

(** The loop that totals the counts and rejects a negative one. *)
Fixpoint sumLoop (l : list NameCount) (total : Z) : result Z :=
  match l with
  | [] => Ok total
  | entry :: l' =>
      if Count entry <? 0 then Err (ErrNegativeCount (Name entry))
      else sumLoop l' (add64 total (Count entry))
  end.

Definition RandomNameFromAggregate {rng : Type} `{RandSource rng}
  (aggregated : list NameCount) (r : rng) : result (NameCount * rng) :=
  if len aggregated =? 0 then Err ErrNoMatchingRecords
  else
    total ← sumLoop aggregated 0;
    RandomNameFromAggregateWithTotal aggregated total r.

Definition RandomName {rng : Type} `{RandSource rng}
  (records : list Record_) (year : Z) (gender : string) (r : rng)
  : result (NameCount * rng) :=
  RandomNameFromAggregate (AggregateNames records year gender).1 r.

(** ** NewNameSampler *)

(** [type NameSampler struct]. *)
Record NameSampler : Type := mkNameSampler {
  entries : list NameCount;
  prob : list float;
  alias : list Z;
  total : Z
}.

(** [float64(z)]: the nearest binary64, ties to even. *)
Definition Z2float (z : Z) : float :=
  SF2Prim (binary_normalize prec emax z 0 false).

(** The locals of the construction. The work lists [small] and [large] are
    kept with their last element first: [append] is a cons and taking the
    last element off is taking the head. *)
Record vose : Type := mkVose {
  vprob : list float;
  valias : list Z;
  vscaled : list float;
  vsmall : list Z;
  vlarge : list Z
}.

(** The loop that scales the weights and fills the work lists; [i] is the
    index of the head of [l]. *)
Fixpoint initLoop (n total i : Z) (l : list NameCount) (t : vose)
  : result vose :=
  match l with
  | [] => Ok t
  | entry :: l' =>
      alias' ← store (valias t) i i;
      scaled' ← store (vscaled t) i
        (Z2float (Count entry) * Z2float n / Z2float total)%float;
      x ← index scaled' i;
      if (x <? 1)%float
      then initLoop n total (i + 1) l'
             (mkVose (vprob t) alias' scaled' (i :: vsmall t) (vlarge t))
      else initLoop n total (i + 1) l'
             (mkVose (vprob t) alias' scaled' (vsmall t) (i :: vlarge t))
  end.

(** The loop that pairs a small index with a large one. *)
Fixpoint pairLoop (fuel : nat) (t : vose) : result vose :=
  match vsmall t, vlarge t with
  | smallIdx :: small', largeIdx :: large' =>
      match fuel with
      | O => OutOfFuel
      | S fuel' =>
          x ← index (vscaled t) smallIdx;
          prob' ← store (vprob t) smallIdx x;
          alias' ← store (valias t) smallIdx largeIdx;
          y ← index (vscaled t) largeIdx;
          x' ← index (vscaled t) smallIdx;
          scaled' ← store (vscaled t) largeIdx (y + x' - 1)%float;
          z ← index scaled' largeIdx;
          if (z <? 1)%float
          then pairLoop fuel' (mkVose prob' alias' scaled' (largeIdx :: small') large')
          else pairLoop fuel' (mkVose prob' alias' scaled' small' (largeIdx :: large'))
      end
  | _, _ => Ok t
  end.

(** The two loops that set the probability of what is left to 1. *)
Fixpoint drain (idxs : list Z) (p : list float) : result (list float) :=
  match idxs with
  | [] => Ok p
  | idx :: rest => p' ← store p idx 1%float; drain rest p'
  end.

Definition NewNameSampler (aggregated : list NameCount) : result NameSampler :=
  if len aggregated =? 0 then Err ErrNoMatchingRecords
  else
    let entries := aggregated in
    total ← sumLoop aggregated 0;
    if total =? 0 then Err ErrNoProbabilityMass
    else
      let n := len aggregated in
      let zeros := replicate (length aggregated) 0%float in
      t ← initLoop n total 0 aggregated
            (mkVose zeros (replicate (length aggregated) 0) zeros [] []);
      t ← pairLoop (length (vsmall t) + length (vlarge t)) t;
      p ← drain (rev (vlarge t)) (vprob t);
      p ← drain (rev (vsmall t)) p;
      Ok (mkNameSampler entries p (valias t) total).

(** ** Pick *)

(** The receiver is a pointer: [None] is [nil]. Every error is returned
    before the source is used. *)
Definition Pick {rng : Type} `{RandSource rng}
  (s : option NameSampler) (r : rng) : result (NameCount * rng) :=
  match s with
  | None => Err ErrNoMatchingRecords
  | Some s =>
      if len (entries s) =? 0 then Err ErrNoMatchingRecords
      else
        '(idx, r1) ← intn r (len (entries s));
        if (len (prob s) =? 0) || (len (alias s) =? 0)
        then entry ← index (entries s) idx; Ok (entry, r1)
        else
          let '(f, r2) := Float64 r1 in
          p ← index (prob s) idx;
          if (f <? p)%float
          then entry ← index (entries s) idx; Ok (entry, r2)
          else
            a ← index (alias s) idx;
            entry ← index (entries s) a;
            Ok (entry, r2)
  end.

(** ** Trend *)

(** One requested name: its key and its trimmed spelling. *)
Record request : Type := mkRequest {
  Key : string;
  Input : string
}.

(** The loop over [names]: blank names and repeats are passed over. *)
Definition requestStep (st : gmap string bool * list request) (raw : string)
  : gmap string bool * list request :=
  let '(seen, requested) := st in
  let trimmed := TrimSpace raw in
  if String.eqb trimmed "" then st
  else
    let key := ToUpper trimmed in
    if default false (seen !! key) then st
    else (<[key := true]> seen, (requested ++ [mkRequest key trimmed])%list).

Definition requestedOf (names : list string) : list request :=
  (fold_left requestStep names (∅, [])).2.

(** The loop over the records: [yearly] and [totals]. *)
Definition trendStep (gender : string)
  (st : gmap Z (gmap string NameCount) * gmap Z Z) (r : Record_)
  : gmap Z (gmap string NameCount) * gmap Z Z :=
  let '(yearly, totals) := st in
  if skipGender gender r then st
  else
    let yearMap := default ∅ (yearly !! Year r) in
    (<[Year r := addRecord yearMap r]> yearly,
     <[Year r := add64 (default 0 (totals !! Year r)) (RCount r)]> totals).

Definition yearlyOf (records : list Record_) (gender : string)
  : gmap Z (gmap string NameCount) * gmap Z Z :=
  fold_left (trendStep gender) records (∅, ∅).

(** [sort.Ints] of the keys of [yearly]. *)
Definition sortedYears (yearly : gmap Z (gmap string NameCount)) : list Z :=
  merge_sort Z.le (map_to_list yearly).*1.

(** The rank lookups, one per year. *)
Definition yearRanksOf (yearly : gmap Z (gmap string NameCount))
  (years : list Z) : gmap Z (gmap string Z) :=
  fold_left
    (fun yearRanks year =>
       let yearMap := default ∅ (yearly !! year) in
       let entries := sortSlice (entriesOf yearMap) in
       <[year := rankLoop 0 entries ∅]> yearRanks)
    years ∅.

(** The display names: the first spelling met while ranging over [yearly];
    [visit] is the order in which that range yields the years. *)
Definition displayStep (displayNames : gmap string string)
  (kv : string * NameCount) : gmap string string :=
  match displayNames !! kv.1 with
  | Some _ => displayNames
  | None => <[kv.1 := Name kv.2]> displayNames
  end.

Definition displayNamesOf (visit : list (Z * gmap string NameCount))
  : gmap string string :=
  fold_left
    (fun displayNames yv => fold_left displayStep (map_to_list yv.2) displayNames)
    visit ∅.

Definition pointOf (yearly : gmap Z (gmap string NameCount))
  (yearRanks : gmap Z (gmap string Z)) (req : request) (year : Z) : TrendPoint :=
  let stats := default ∅ (yearly !! year) in
  let rankLookup := default ∅ (yearRanks !! year) in
  match stats !! Key req with
  | Some agg => mkTrendPoint year (default 0 (rankLookup !! Key req)) (Count agg) true
  | None => mkTrendPoint year 0 0 false
  end.

Definition seriesOf (yearly : gmap Z (gmap string NameCount))
  (yearRanks : gmap Z (gmap string Z)) (displayNames : gmap string string)
  (years : list Z) (req : request) : TrendSeries :=
  let display := default "" (displayNames !! Key req) in
  let display := if String.eqb display "" then Input req else display in
  mkTrendSeries display (map (pointOf yearly yearRanks req) years).

(** [Trend], for the order [order] in which the last range over [yearly]
    yields its years. *)
Definition Trend_run
  (order : gmap Z (gmap string NameCount) -> list (Z * gmap string NameCount))
  (records : list Record_) (gender : string) (names : list string)
  : result (list Z * list TrendSeries * gmap Z Z) :=
  let gender := ToUpper (TrimSpace gender) in
  let requested := requestedOf names in
  if len requested =? 0 then Err ErrAtLeastOneName
  else
    let '(yearly, totals) := yearlyOf records gender in
    if Z.of_nat (size yearly) =? 0 then Err ErrNoMatchingRecords
    else
      let years := sortedYears yearly in
      let yearRanks := yearRanksOf yearly years in
      let displayNames := displayNamesOf (order yearly) in
      Ok (years,
          map (seriesOf yearly yearRanks displayNames years) requested,
          totals).

Definition Trend : list Record_ -> string -> list string ->
  result (list Z * list TrendSeries * gmap Z Z) :=
  Trend_run map_to_list.

(** A source that replays a script: [Intn n] returns the next integer of the
    script reduced modulo [n], [Float64] the next float. *)
Record tape : Type := mkTape {
  ints : list Z;
  floats : list float
}.

#[global] Instance tape_source : RandSource tape := {|
  Intn t n :=
    match ints t with
    | i :: rest => (i mod n, mkTape rest (floats t))
    | [] => (0, t)
    end;
  Float64 t :=
    match floats t with
    | f :: rest => (f, mkTape (ints t) rest)
    | [] => (0%float, t)
    end
|}.

(** The fixture of the package's tests (file CA.TXT). *)
Definition sampleCA : list Record_ :=
  [ mkRecord "CA" "F" 2019 "Olivia" 100;
    mkRecord "CA" "F" 2019 "Olivia" 40;
    mkRecord "CA" "F" 2019 "Emma" 90;
    mkRecord "CA" "M" 2019 "Liam" 95;
    mkRecord "CA" "M" 2019 "Noah" 70;
    mkRecord "CA" "F" 2018 "Olivia" 80;
    mkRecord "CA" "M" 2018 "Liam" 85;
    mkRecord "CA" "F" 2018 "Emma" 50 ].

(** ** Notions of the specification *)

(** The sum of a list of Go [int]s, as a Go loop adds it up. *)
Definition sum64 (zs : list Z) : Z := fold_left add64 zs 0.

(** The mathematical sum. *)
Definition sumZ (zs : list Z) : Z := foldr Z.add 0 zs.

Definition sumCounts (l : list NameCount) : Z := sum64 (Count <$> l).

Definition sumRecordCounts (l : list Record_) : Z := sum64 (RCount <$> l).

(** The record passes the (year, gender) filter of [AggregateNames]. *)
Definition passes (year : Z) (gender : string) (r : Record_) : bool :=
  negb (skipYear year r) && negb (skipGender (ToUpper (TrimSpace gender)) r).

(** The record carries the name, letter case apart. *)
Definition carries (name : string) (r : Record_) : bool :=
  String.eqb (ToUpper (RName r)) (ToUpper name).

(** The count of a name under the filters: the sum over the records that
    pass the filters and carry the name. *)
Definition aggregatedCount (records : list Record_) (year : Z)
  (gender name : string) : Z :=
  sumRecordCounts
    (List.filter (fun r => passes year gender r && carries name r) records).

(** The mathematical sum of the counts held in a map of totals. *)
Definition mapSum (m : gmap string NameCount) : Z :=
  sumZ (Count <$> entriesOf m).

(** The grouping loop for an arbitrary guard [keep], from the map [m]. *)
Definition groupBy (keep : Record_ -> bool) (records : list Record_)
  (m : gmap string NameCount) : gmap string NameCount :=
  fold_left (fun totals r => if keep r then addRecord totals r else totals)
    records m.

(** Every entry sits under the upper-cased form of its display name. *)
Definition keyed (m : gmap string NameCount) : Prop :=
  forall (k : string) (e : NameCount), m !! k = Some e -> ToUpper (Name e) = k.

(** The key of an entry of the aggregate list. *)
Definition keyOf (e : NameCount) : string := ToUpper (Name e).

(** Case-insensitive order on names: the order of the upper-cased forms. *)
Definition lessFold (a b : string) : bool := String.ltb (ToUpper a) (ToUpper b).

(** The running sum of the counts through index [i], from [running]. *)
Definition cumFrom (running : Z) (l : list NameCount) (i : nat) : Z :=
  fold_left add64 (Count <$> take (S i) l) running.

(** The cumulative sum of the counts through index [i]. *)
Definition cumulative (l : list NameCount) (i : nat) : Z := cumFrom 0 l i.

(** An index into a slice of length [n]. *)
Definition inRange (n : nat) (i : Z) : Prop := 0 <= i < Z.of_nat n.

(** What the loops of [NewNameSampler] keep true of their locals, for [n]
    entries: the three arrays have length [n], and the aliases and the work
    lists hold indices only. *)
Definition voseInv (n : nat) (t : vose) : Prop :=
  length (vprob t) = n /\ length (valias t) = n /\ length (vscaled t) = n
  /\ Forall (inRange n) (valias t)
  /\ Forall (inRange n) (vsmall t)
  /\ Forall (inRange n) (vlarge t).

(** The guard of the bucket of year [y] in [Trend]: the record passes the
    gender filter and is of year [y]. *)
Definition keepYear (gender : string) (y : Z) (r : Record_) : bool :=
  negb (skipGender gender r) && (Year r =? y).

(** The records of year [y]. *)
Definition ofYear (y : Z) (records : list Record_) : list Record_ :=
  List.filter (fun r => Year r =? y) records.

(** A record whose gender and name are ASCII text. *)
Definition asciiRecord (r : Record_) : Prop :=
  isASCII (Gender r) = true /\ isASCII (RName r) = true.

(** Well-formed records: no negative count. *)
Definition wellFormed (records : list Record_) : Prop :=
  Forall (fun r => 0 <= RCount r) records.

(** ** TopNames *)

Definition TopNames (records : list Record_) (year : Z) (gender : string)
  (limit : Z) : list NameCount :=
  let aggregated := (AggregateNames records year gender).1 in
  if (limit >? 0) && (len aggregated >? limit)
  then take (Z.to_nat limit) aggregated
  else aggregated.

(** ** The year filter of the command line (package [cli]) *)

(** [type yearFilter struct]: [years] is a map used as a set. *)
Record yearFilter : Type := mkYearFilter {
  fAll : bool;
  fYears : gset Z
}.

(** [func (f yearFilter) All]. *)
Definition All (f : yearFilter) : bool := fAll f.

(** [func (f yearFilter) Contains]. *)
Definition Contains (f : yearFilter) (year : Z) : bool :=
  if fAll f then true else bool_decide (year ∈ fYears f).

(** [filterRecordsByYear]. *)
Definition filterRecordsByYear (records : list Record_) (filter : yearFilter)
  : list Record_ :=
  if All filter then records
  else List.filter (fun record => Contains filter (Year record)) records.

(** What the first loop of [Trend] keeps true: a key is marked seen exactly
    when a request with that key has been made. *)
Definition reqInv (st : gmap string bool * list request) : Prop :=
  forall k : string,
    default false (st.1 !! k) = true <-> k ∈ Key <$> st.2.

(** The record passes the gender filter of [Trend]. *)
Definition passesGender (gender : string) (r : Record_) : bool :=
  negb (skipGender (ToUpper (TrimSpace gender)) r).

End Program.

(** ** The dataset on a file system (loader of package [namesdata]) *)

(** What the package sees of an [fs.FS]: [fs.ReadDir] of the root fails or
    lists the entries, and [Open] fails or gives a file, of which the loader
    sees what [bufio.Scanner] yields: the lines, in order, and whether the
    scan ended in an error.  A file system answers the same way each time it
    is asked. *)
Record dirEntry : Type := mkDirEntry {
  entryName : string;
  entryIsDir : bool
}.

Record scanned : Type := mkScanned {
  scLines : list string;
  scErr : bool
}.

Record FS : Type := mkFS {
  fsReadDir : option (list dirEntry);
  fsOpen : string -> option scanned
}.

(** The errors of the loader, and the errors of the engine it passes on. *)
Inductive loadError : Type :=
  | ErrStateRequired                          (* "state is required" *)
  | ErrReadDir                                (* "read dataset directory: ..." *)
  | ErrOpen (fileName : string)               (* "open %s: ..." *)
  | ErrMalformedLine (fileName line : string) (* "malformed line in %s: %q" *)
  | ErrParseYear (field fileName : string)    (* "parse year %q in %s: ..." *)
  | ErrParseCount (field fileName : string)   (* "parse count %q in %s: ..." *)
  | ErrScan (fileName : string)               (* "scan %s: ..." *)
  | ErrNoRecordsInFile (fileName : string)    (* "no records found in %s" *)
  | ErrNoRecordsInDataset                     (* "no records found in dataset" *)
  | ErrEngine (e : error).

(** The outcome of a function of the loader: a value, or an error. *)
Inductive loaded (A : Type) : Type :=
  | Loaded (a : A)
  | Failed (e : loadError).
Arguments Loaded {A} a.
Arguments Failed {A} e.

Section Program.
Context {strings : Strings}.

(** [strings.Split(s, sep)] for a separator of one byte. *)
Fixpoint Split (s : string) (sep : ascii) : list string :=
  match s with
  | EmptyString => [EmptyString]
  | String c t =>
      if Ascii.eqb c sep then EmptyString :: Split t sep
      else match Split t sep with
           | h :: r => String c h :: r
           | [] => [String c EmptyString]
           end
  end.

(** [strings.HasSuffix]. *)
Definition HasSuffix (s suffix : string) : bool :=
  (String.length suffix <=? String.length s)%nat
  && String.eqb
       (substring (String.length s - String.length suffix)
          (String.length suffix) s)
       suffix.

Definition isDigit (c : ascii) : bool :=
  (48 <=? Z.of_N (N_of_ascii c)) && (Z.of_N (N_of_ascii c) <=? 57).

(** The value of a run of decimal digits after [acc]; [None] on any other
    byte. *)
Fixpoint digits (s : string) (acc : Z) : option Z :=
  match s with
  | EmptyString => Some acc
  | String c t =>
      if isDigit c then digits t (acc * 10 + (Z.of_N (N_of_ascii c) - 48))
      else None
  end.

(** [strconv.Atoi]: an optional sign, then one decimal digit or more, and a
    value that fits an [int]; [None] stands for its errors. *)
Definition Atoi (s : string) : option Z :=
  let '(neg, body) :=
    match s with
    | String "-"%char t => (true, t)
    | String "+"%char t => (false, t)
    | _ => (false, s)
    end in
  match body with
  | EmptyString => None
  | _ =>
      match digits body 0 with
      | None => None
      | Some un =>
          let n := if neg : bool then - un else un in
          if (- 2 ^ 63 <=? n) && (n <? 2 ^ 63) then Some n else None
      end
  end.

(** A callback [func(Record) error] with the state it closes over: it
    returns the new state and its error, if any. *)
Definition callback (St : Type) : Type :=
  St -> Record_ -> St * option loadError.

(** A callback that always returns [nil]. *)
Definition always {St : Type} (step : St -> Record_ -> St) : callback St :=
  fun st r => (step st r, None).

(** The callback of [loadRecordsFromFile] and [LoadAllRecords]:
    [records = append(records, r)]. *)
Definition appendRecord : callback (list Record_) :=
  always (fun records r => (records ++ [r])%list).

(** The loop [for scanner.Scan()] of [readRecordsFromFile]; it returns the
    state, [sawRecord], and the error it stopped on, if any. *)
Fixpoint scanLoop {St : Type} (fileName : string) (fn : callback St)
  (lines : list string) (sawRecord : bool) (st : St)
  : St * bool * option loadError :=
  match lines with
  | [] => (st, sawRecord, None)
  | text :: lines' =>
      let line := TrimSpace text in
      if String.eqb line "" then scanLoop fileName fn lines' sawRecord st
      else
        match Split line ","%char with
        | [p0; p1; p2; p3; p4] =>
            match Atoi p2 with
            | None => (st, sawRecord, Some (ErrParseYear p2 fileName))
            | Some year =>
                match Atoi p4 with
                | None => (st, sawRecord, Some (ErrParseCount p4 fileName))
                | Some count =>
                    let record := mkRecord p0 p1 year p3 count in
                    match fn st record with
                    | (st', Some err) => (st', sawRecord, Some err)
                    | (st', None) => scanLoop fileName fn lines' true st'
                    end
                end
            end
        | _ => (st, sawRecord, Some (ErrMalformedLine fileName line))
        end
  end.

Definition readRecordsFromFile {St : Type} (fsys : FS) (fileName : string)
  (fn : callback St) (st : St) : St * option loadError :=
  match fsOpen fsys fileName with
  | None => (st, Some (ErrOpen fileName))
  | Some file =>
      match scanLoop fileName fn (scLines file) false st with
      | (st', _, Some err) => (st', Some err)
      | (st', sawRecord, None) =>
          if scErr file then (st', Some (ErrScan fileName))
          else if negb sawRecord then (st', Some (ErrNoRecordsInFile fileName))
          else (st', None)
      end
  end.

Definition loadRecordsFromFile (fsys : FS) (fileName : string)
  : loaded (list Record_) :=
  match readRecordsFromFile fsys fileName appendRecord [] with
  | (_, Some err) => Failed err
  | (records, None) => Loaded records
  end.

Definition LoadStateRecords (fsys : FS) (state : string)
  : loaded (list Record_) :=
  if String.eqb state "" then Failed ErrStateRequired
  else loadRecordsFromFile fsys (ToUpper state ++ ".TXT")%string.

(** The files of the root that hold records. *)
Definition isDataFile (entry : dirEntry) : bool :=
  negb (entryIsDir entry) && HasSuffix (ToUpper (entryName entry)) ".TXT".

(** The loop over the entries of [LoadAllRecords]. *)
Fixpoint loadEntries (fsys : FS) (dirEntries : list dirEntry)
  (records : list Record_) : list Record_ * option loadError :=
  match dirEntries with
  | [] => (records, None)
  | entry :: rest =>
      if entryIsDir entry then loadEntries fsys rest records
      else if negb (HasSuffix (ToUpper (entryName entry)) ".TXT")
      then loadEntries fsys rest records
      else
        match readRecordsFromFile fsys (entryName entry) appendRecord records with
        | (records', Some err) => (records', Some err)
        | (records', None) => loadEntries fsys rest records'
        end
  end.

Definition LoadAllRecords (fsys : FS) : loaded (list Record_) :=
  match fsReadDir fsys with
  | None => Failed ErrReadDir
  | Some dirEntries =>
      match loadEntries fsys dirEntries [] with
      | (_, Some err) => Failed err
      | (records, None) =>
          if len records =? 0 then Failed ErrNoRecordsInDataset
          else Loaded records
      end
  end.

(** The loop over the entries of [walkRecords]. *)
Fixpoint walkEntries {St : Type} (fsys : FS) (fn : callback St)
  (dirEntries : list dirEntry) (processed : bool) (st : St)
  : St * bool * option loadError :=
  match dirEntries with
  | [] => (st, processed, None)
  | entry :: rest =>
      if entryIsDir entry then walkEntries fsys fn rest processed st
      else if negb (HasSuffix (ToUpper (entryName entry)) ".TXT")
      then walkEntries fsys fn rest processed st
      else
        match readRecordsFromFile fsys (entryName entry) fn st with
        | (st', Some err) => (st', processed, Some err)
        | (st', None) => walkEntries fsys fn rest true st'
        end
  end.

Definition walkRecords {St : Type} (fsys : FS) (state : string)
  (fn : callback St) (st : St) : St * option loadError :=
  let state := TrimSpace state in
  if negb (String.eqb state "")
  then readRecordsFromFile fsys (ToUpper state ++ ".TXT")%string fn st
  else
    match fsReadDir fsys with
    | None => (st, Some ErrReadDir)
    | Some dirEntries =>
        match walkEntries fsys fn dirEntries false st with
        | (st', _, Some err) => (st', Some err)
        | (st', processed, None) =>
            if negb processed then (st', Some ErrNoRecordsInDataset)
            else (st', None)
        end
    end.

(** How the commands [top] and [trend] of package [cli] load the records of
    a state, or of every state when the state is blank. *)
Definition loadRecords (fsys : FS) (state : string) : loaded (list Record_) :=
  let trimmedState := TrimSpace state in
  if String.eqb trimmedState "" then LoadAllRecords fsys
  else LoadStateRecords fsys trimmedState.

(** ** AggregateFromFS *)

(** The locals the callback of [AggregateFromFS] closes over. *)
Record fsTotals : Type := mkFsTotals {
  fsCounts : gmap string Z;
  fsDisplay : gmap string string;
  fsTotal : Z
}.

Definition countRecord (year : Z) (genderFilter : string) (st : fsTotals)
  (rec : Record_) : fsTotals :=
  if skipYear year rec then st
  else if skipGender genderFilter rec then st
  else if RCount rec <=? 0 then st
  else
    let key := ToUpper (RName rec) in
    mkFsTotals
      (<[key := add64 (default 0 (fsCounts st !! key)) (RCount rec)]>
         (fsCounts st))
      (match fsDisplay st !! key with
       | Some _ => fsDisplay st
       | None => <[key := RName rec]> (fsDisplay st)
       end)
      (add64 (fsTotal st) (RCount rec)).

(** The entries built from [counts] and [display], in the order the map
    yields them here. *)
Definition fsEntries (st : fsTotals) : list NameCount :=
  (fun kc : string * Z =>
     mkNameCount (default "" (fsDisplay st !! kc.1)) kc.2)
  <$> map_to_list (fsCounts st).

Definition AggregateFromFS (fsys : FS) (state : string) (year : Z)
  (gender : string) : loaded (list NameCount * Z) :=
  let genderFilter := ToUpper (TrimSpace gender) in
  match walkRecords fsys state (always (countRecord year genderFilter))
          (mkFsTotals ∅ ∅ 0) with
  | (_, Some err) => Failed err
  | (st, None) =>
      if fsTotal st =? 0 then Failed (ErrEngine ErrNoMatchingRecords)
      else Loaded (sortSlice (fsEntries st), fsTotal st)
  end.

(** Every run Go allows: the [range] over [counts] visits the keys in any
    order, and [sort.Slice] returns any list that keeps its promise. *)
Definition AggregateFromFS_run (fsys : FS) (state : string) (year : Z)
  (gender : string) (out : loaded (list NameCount * Z)) : Prop :=
  let genderFilter := ToUpper (TrimSpace gender) in
  match walkRecords fsys state (always (countRecord year genderFilter))
          (mkFsTotals ∅ ∅ 0) with
  | (_, Some err) => out = Failed err
  | (st, None) =>
      if fsTotal st =? 0 then out = Failed (ErrEngine ErrNoMatchingRecords)
      else
        exists visited aggregated : list NameCount,
          visited ≡ₚ fsEntries st /\
          sortSlice_spec less visited aggregated /\
          out = Loaded (aggregated, fsTotal st)
  end.

End Program.

(** ** RandomNameFromFS *)

(** The locals the first callback of [RandomNameFromFS] closes over, and the
    source it draws from. *)
Record fsDraw (rng : Type) : Type := mkFsDraw {
  drTotal : Z;
  drCandidate : string;
  drChosen : bool;
  drRng : rng
}.
Arguments mkFsDraw {rng} _ _ _ _.
Arguments drTotal {rng} _.
Arguments drCandidate {rng} _.
Arguments drChosen {rng} _.
Arguments drRng {rng} _.

Section Program.
Context {strings : Strings}.

Definition drawRecord {rng : Type} `{RandSource rng} (year : Z)
  (genderFilter : string) (st : fsDraw rng) (rec : Record_) : fsDraw rng :=
  if skipYear year rec then st
  else if skipGender genderFilter rec then st
  else if RCount rec <=? 0 then st
  else
    let total := add64 (drTotal st) (RCount rec) in
    if total <=? 0
    then mkFsDraw total (drCandidate st) (drChosen st) (drRng st)
    else if negb (drChosen st)
    then mkFsDraw total (RName rec) true (drRng st)
    else
      let '(f, r') := Float64 (drRng st) in
      if (f <? Z2float (RCount rec) / Z2float total)%float
      then mkFsDraw total (RName rec) true r'
      else mkFsDraw total (drCandidate st) true r'.

(** The second callback: the count of the candidate. *)
Definition countCandidate (year : Z) (genderFilter upperCandidate : string)
  (aggCount : Z) (rec : Record_) : Z :=
  if skipYear year rec then aggCount
  else if skipGender genderFilter rec then aggCount
  else if negb (String.eqb (ToUpper (RName rec)) upperCandidate) then aggCount
  else add64 aggCount (RCount rec).

Definition RandomNameFromFS {rng : Type} `{RandSource rng} (fsys : FS)
  (state : string) (year : Z) (gender : string) (r : rng)
  : loaded (NameCount * Z * rng) :=
  let genderFilter := ToUpper (TrimSpace gender) in
  match walkRecords fsys state (always (drawRecord year genderFilter))
          (mkFsDraw 0 "" false r) with
  | (_, Some err) => Failed err
  | (st, None) =>
      if negb (drChosen st) || (drTotal st =? 0)
      then Failed (ErrEngine ErrNoMatchingRecords)
      else
        let upperCandidate := ToUpper (drCandidate st) in
        match walkRecords fsys state
                (always (countCandidate year genderFilter upperCandidate)) 0 with
        | (_, Some err) => Failed err
        | (aggCount, None) =>
            Loaded (mkNameCount (drCandidate st) aggCount, drTotal st, drRng st)
        end
  end.

(** The fixture of the package's tests: the files CA.TXT and NY.TXT. *)
Definition sampleFS : FS :=
  mkFS
    (Some [mkDirEntry "CA.TXT" false; mkDirEntry "NY.TXT" false])
    (fun fileName =>
       if String.eqb fileName "CA.TXT" then
         Some (mkScanned
                 ["CA,F,2019,Olivia,100"; "CA,F,2019,Olivia,40";
                  "CA,F,2019,Emma,90"; "CA,M,2019,Liam,95";
                  "CA,M,2019,Noah,70"; "CA,F,2018,Olivia,80";
                  "CA,M,2018,Liam,85"; "CA,F,2018,Emma,50"]
                 false)
       else if String.eqb fileName "NY.TXT" then
         Some (mkScanned
                 ["NY,F,2019,Olivia,60"; "NY,M,2019,Liam,65";
                  "NY,F,2018,Emma,45"]
                 false)
       else None).

(** A file system whose every file holds one record and then a line with
    two fields. *)
Definition brokenFS : FS :=
  mkFS None
    (fun _ => Some (mkScanned ["CA,F,2019,Olivia,100"; " oops,1 "] false)).

(** The records with a positive count: the ones the streaming functions
    look at. *)
Definition positive (r : Record_) : bool := 0 <? RCount r.

(** The line holds the record: five fields between commas, the third and
    the fifth being the integers of the record. *)
Definition lineRecord (text : string) (r : Record_) : Prop :=
  exists yearField countField : string,
    Split (TrimSpace text) ","
    = [State r; Gender r; yearField; RName r; countField]
    /\ Atoi yearField = Some (Year r)
    /\ Atoi countField = Some (RCount r).

(** The line is one the loader stops at, with the error [err]: it has not
    five fields, or its year does not parse, or its year parses and its
    count does not. *)
Definition badLine (fileName text : string) (err : loadError) : Prop :=
  match Split (TrimSpace text) "," with
  | [p0; p1; p2; p3; p4] =>
      (Atoi p2 = None /\ err = ErrParseYear p2 fileName)
      \/ (Atoi p2 <> None /\ Atoi p4 = None
          /\ err = ErrParseCount p4 fileName)
  | _ => err = ErrMalformedLine fileName (TrimSpace text)
  end.

(** The lines the loader does not skip. *)
Definition notBlank (text : string) : bool :=
  negb (String.eqb (TrimSpace text) "").

(** The records [RandomNameFromFS] draws among: a positive count, and
    passing the filters. *)
Definition drawable (year : Z) (gender : string) (records : list Record_)
  : list Record_ :=
  List.filter (fun r => positive r && passes year gender r) records.

(** ** parseYearFilter (package [cli]) *)

Inductive yearError : Type :=
  | ErrEmptySegment                       (* "invalid year value: empty segment" *)
  | ErrInvalidRange (segment : string)    (* "invalid year range: %s" *)
  | ErrInvalidRangeYear (field : string)  (* "invalid year in range %q: ..." *)
  | ErrRangeNotPositive                   (* "year ranges must be positive" *)
  | ErrInvalidYear (segment : string)     (* "invalid year value %q: ..." *)
  | ErrYearNotPositive                    (* "year must be positive" *)
  | ErrNoValidYears.                      (* "no valid years provided" *)

(** The outcome of [parseYearFilter]: a filter, an error, or a loop that
    does not end. *)
Inductive parsed : Type :=
  | Parsed (f : yearFilter)
  | Rejected (e : yearError)
  | Diverges.

(** [strings.Contains(s, sep)] for a separator of one byte. *)
Fixpoint stringsContains (s : string) (sep : ascii) : bool :=
  match s with
  | EmptyString => false
  | String c t => Ascii.eqb c sep || stringsContains t sep
  end.

(** [for year := start; year <= end; year++ { years[year] = struct{}{} }].
    [None] when the fuel runs out. *)
Fixpoint yearLoop (fuel : nat) (year end_ : Z) (years : gset Z)
  : option (gset Z) :=
  match fuel with
  | O => None
  | S fuel' =>
      if year <=? end_ then yearLoop fuel' (add64 year 1) end_ ({[year]} ∪ years)
      else Some years
  end.

(** The loop over the segments.  The loop over a range gets the fuel for
    [end - start + 1] rounds and the test that ends it; it needs more only
    when [end] is the largest [int]: then [year++] wraps around and the loop
    of the program runs for ever. *)
Fixpoint parseSegments (parts : list string) (years : gset Z) : parsed :=
  match parts with
  | [] =>
      if Z.of_nat (size years) =? 0 then Rejected ErrNoValidYears
      else Parsed (mkYearFilter false years)
  | part :: parts' =>
      let segment := TrimSpace part in
      if String.eqb segment "" then Rejected ErrEmptySegment
      else if String.eqb segment "0" then Parsed (mkYearFilter true ∅)
      else if stringsContains segment "-" then
        match Split segment "-" with
        | [p0; p1] =>
            match Atoi (TrimSpace p0) with
            | None => Rejected (ErrInvalidRangeYear p0)
            | Some start =>
                match Atoi (TrimSpace p1) with
                | None => Rejected (ErrInvalidRangeYear p1)
                | Some end_ =>
                    if (start <=? 0) || (end_ <=? 0)
                    then Rejected ErrRangeNotPositive
                    else if end_ <? start then Rejected (ErrInvalidRange segment)
                    else
                      match yearLoop (Z.to_nat (end_ - start + 2)) start end_
                              years with
                      | None => Diverges
                      | Some years' => parseSegments parts' years'
                      end
                end
            end
        | _ => Rejected (ErrInvalidRange segment)
        end
      else
        match Atoi segment with
        | None => Rejected (ErrInvalidYear segment)
        | Some year =>
            if year <=? 0 then Rejected ErrYearNotPositive
            else parseSegments parts' ({[year]} ∪ years)
        end
  end.

Definition parseYearFilter (raw : string) : parsed :=
  let trimmed := TrimSpace raw in
  if String.eqb trimmed "" || String.eqb trimmed "0"
  then Parsed (mkYearFilter true ∅)
  else parseSegments (Split trimmed ",") ∅.

(** The years a segment of the flag names. *)
Definition segmentYear (segment : string) (y : Z) : Prop :=
  if stringsContains segment "-"
  then exists (p0 p1 : string) (start end_ : Z),
         Split segment "-" = [p0; p1]
         /\ Atoi (TrimSpace p0) = Some start
         /\ Atoi (TrimSpace p1) = Some end_
         /\ start <= y <= end_
  else Atoi segment = Some y.

(** ** yearFilter.String (package [cli]) *)

(** The decimal digit [m] as a byte. *)
Definition digitChar (m : Z) : ascii := ascii_of_N (Z.to_N (48 + m)).

(** The decimal digits of [n], most significant first, put before [acc];
    [fuel] bounds their number. *)
Fixpoint utoa (fuel : nat) (n : Z) (acc : string) : string :=
  match fuel with
  | O => acc
  | S fuel' =>
      let acc' := String (digitChar (n mod 10)) acc in
      if n <? 10 then acc' else utoa fuel' (n / 10) acc'
  end.

(** [fmt.Sprintf("%d", n)]: an [int] has 19 digits at most. *)
Definition itoa (n : Z) : string :=
  if n <? 0 then String "-" (utoa 19 (- n) "") else utoa 19 n "".

(** [formatYearSegment]. *)
Definition formatYearSegment (start end_ : Z) : string :=
  if start =? end_ then itoa start
  else (itoa start ++ "-" ++ itoa end_)%string.

(** The inner loop of [String]: [end] moves over the years that continue
    the run; it returns the last year of the run and the years after it. *)
Fixpoint runEnd (end_ : Z) (rest : list Z) : Z * list Z :=
  match rest with
  | y :: rest' => if y =? add64 end_ 1 then runEnd y rest' else (end_, rest)
  | [] => (end_, [])
  end.

(** The outer loop: one segment per run.  Each round takes a year or more
    off the list, so [len(years)] rounds are enough. *)
Fixpoint yearSegments (fuel : nat) (years : list Z) : list string :=
  match fuel, years with
  | S fuel', start :: rest =>
      let '(end_, rest') := runEnd start rest in
      formatYearSegment start end_ :: yearSegments fuel' rest'
  | _, _ => []
  end.

(** [strings.Join]. *)
Fixpoint Join (elems : list string) (sep : string) : string :=
  match elems with
  | [] => ""
  | [s] => s
  | s :: rest => (s ++ sep ++ Join rest sep)%string
  end.

(** [func (f yearFilter) String]: the keys of the map, sorted by
    [sort.Ints]. *)
Definition String_ (f : yearFilter) : string :=
  if fAll f then ""
  else
    let years := merge_sort Z.le (elements (fYears f)) in
    Join (yearSegments (length years) years) ", ".

(** Every byte of the string passes the test. *)
Fixpoint allBytes (p : ascii -> bool) (s : string) : bool :=
  match s with
  | EmptyString => true
  | String c t => p c && allBytes p t
  end.

End Program.

(** * Properties *)

(** ** The functions on ASCII text *)

Lemma trimLeft_head (s : string) (c : ascii) (t : string) :
  trimLeft s = String c t -> isSpace c = false.
Proof.
  induction s as [|x s IH]; cbn; [discriminate|].
  destruct (isSpace x) eqn:Hx; [exact IH|]. intros [= <- _]. exact Hx.
Qed.

Lemma trimRight_head (c : ascii) (t : string) :
  isSpace c = false -> exists t', trimRight (String c t) = String c t'.
Proof.
  intros Hc. cbn. destruct (trimRight t); [rewrite Hc|]; eauto.
Qed.

Lemma trimRight_cons (c : ascii) (s : string) :
  trimRight (String c s)
  = match trimRight s with
    | EmptyString => if isSpace c then EmptyString else String c EmptyString
    | t => String c t
    end.
Proof. reflexivity. Qed.

Lemma trimRight_idem (s : string) : trimRight (trimRight s) = trimRight s.
Proof.
  induction s as [|c s IH]; [reflexivity|]. rewrite trimRight_cons.
  destruct (trimRight s) as [|x t] eqn:Ht.
  - destruct (isSpace c) eqn:Hc; [reflexivity|].
    rewrite trimRight_cons. cbn [trimRight]. rewrite Hc. reflexivity.
  - rewrite trimRight_cons, IH. reflexivity.
Qed.

Lemma asciiTrimSpace_idem (s : string) :
  asciiTrimSpace (asciiTrimSpace s) = asciiTrimSpace s.
Proof.
  unfold asciiTrimSpace. destruct (trimLeft s) as [|c t] eqn:Hs; [reflexivity|].
  pose proof (trimLeft_head _ _ _ Hs) as Hc.
  destruct (trimRight_head c t Hc) as [t' Ht]. rewrite Ht.
  cbn [trimLeft]. rewrite Hc, <- Ht. apply trimRight_idem.
Qed.

Lemma asciiToUpper_nonempty (s : string) : asciiToUpper s = "" -> s = "".
Proof. destruct s; [reflexivity|discriminate]. Qed.

(** The functions on ASCII text keep what [Strings] promises; the examples
    run the definitions with them, on ASCII text, where they are the
    functions of the library. *)
#[global] Instance asciiStrings : Strings := {|
  ToUpper := asciiToUpper;
  TrimSpace := asciiTrimSpace;
  ToUpper_ASCII := fun s _ => eq_refl;
  TrimSpace_ASCII := fun s _ => eq_refl;
  ToUpper_nonempty := asciiToUpper_nonempty;
  TrimSpace_idem := asciiTrimSpace_idem
|}.

(** ** The fixture of the tests *)

Example aggregate_sample :
  (AggregateNames sampleCA 2019 "F").1
  = [mkNameCount "Olivia" 140; mkNameCount "Emma" 90].
Proof. vm_compute. reflexivity. Qed.

Example rank_sample :
  (let '(aggregated, ranks) := AggregateNames sampleCA 2019 "f " in
   RankFromAggregate aggregated ranks "emma")
  = Ok (2, mkNameCount "Emma" 90).
Proof. vm_compute. reflexivity. Qed.

Example rank_overall_sample :
  Rank sampleCA 0 "" "Liam" = Ok (2, mkNameCount "Liam" 180).
Proof. vm_compute. reflexivity. Qed.

Example trend_sample :
  match Trend sampleCA "" ["Olivia"; "Liam"] with
  | Ok (years, series, totals) =>
      years = [2018; 2019] /\
      series !! 0%nat
      = Some (mkTrendSeries "Olivia"
                [mkTrendPoint 2018 2 80 true; mkTrendPoint 2019 1 140 true]) /\
      totals !! 2019 = Some 395
  | _ => False
  end.
Proof. vm_compute. auto. Qed.

Example sampler_sample :
  NewNameSampler (AggregateNames sampleCA 2019 "F").1
  = Ok (mkNameSampler [mkNameCount "Olivia" 140; mkNameCount "Emma" 90]
          [1%float; (Z2float 90 * Z2float 2 / Z2float 230)%float] [0; 0] 230).
Proof. vm_compute. reflexivity. Qed.

Section WithStrings.
Context {strings : Strings}.

(** ** Machine integers *)

Lemma wrap64_range (z : Z) : inInt64 (wrap64 z).
Proof.
  unfold inInt64, wrap64.
  pose proof (Z.mod_pos_bound (z + 2 ^ 63) (2 ^ 64) ltac:(lia)). lia.
Qed.

Lemma wrap64_id (z : Z) : inInt64 z -> wrap64 z = z.
Proof.
  unfold inInt64, wrap64. intros Hz.
  rewrite Z.mod_small by lia. lia.
Qed.

Lemma wrap64_0 : wrap64 0 = 0.
Proof. reflexivity. Qed.

Lemma wrap64_eq_iff (a b : Z) :
  wrap64 a = wrap64 b <-> a mod 2 ^ 64 = b mod 2 ^ 64.
Proof.
  unfold wrap64. split; intros Hab.
  - assert (Hm : (a + 2 ^ 63) mod 2 ^ 64 = (b + 2 ^ 63) mod 2 ^ 64) by lia.
    rewrite <- (Z.add_simpl_r a (2 ^ 63)), <- (Z.add_simpl_r b (2 ^ 63)).
    rewrite (Zminus_mod (a + _)), (Zminus_mod (b + _)), Hm. reflexivity.
  - rewrite (Zplus_mod a), (Zplus_mod b), Hab. reflexivity.
Qed.

Lemma wrap64_add_l (a b : Z) : wrap64 (wrap64 a + b) = wrap64 (a + b).
Proof.
  apply wrap64_eq_iff. unfold wrap64.
  rewrite Zplus_mod, Zminus_mod, Z.mod_mod by lia.
  rewrite <- Zminus_mod, Z.add_simpl_r, <- Zplus_mod. reflexivity.
Qed.

Lemma wrap64_idem (a : Z) : wrap64 (wrap64 a) = wrap64 a.
Proof. apply wrap64_id, wrap64_range. Qed.

(** ** Strings *)

Lemma ToUpper_nil : ToUpper "" = "".
Proof. apply (ToUpper_ASCII ""). reflexivity. Qed.

Lemma TrimSpace_nil : TrimSpace "" = "".
Proof. apply (TrimSpace_ASCII ""). reflexivity. Qed.

Lemma ToUpper_empty (s : string) : ToUpper s = "" -> s = "".
Proof. apply ToUpper_nonempty. Qed.

Lemma TrimSpace_idem_nonempty (s : string) :
  TrimSpace s <> "" -> TrimSpace (TrimSpace s) <> "".
Proof. rewrite TrimSpace_idem. auto. Qed.

(** Go's [<] on strings is a strict total order. *)
Lemma string_compare_refl (s : string) : String.compare s s = Eq.
Proof.
  induction s as [|c s IH]; simpl; [reflexivity|].
  unfold Ascii.compare. rewrite N.compare_refl. exact IH.
Qed.

Lemma string_compare_lt_trans (a b c : string) :
  String.compare a b = Lt -> String.compare b c = Lt -> String.compare a c = Lt.
Proof.
  revert b c. induction a as [|x a IH]; intros [|y b] [|z c]; simpl;
    try discriminate; try reflexivity.
  unfold Ascii.compare.
  destruct (N.compare_spec (N_of_ascii x) (N_of_ascii y)) as [Hxy|Hxy|Hxy];
    try discriminate;
    destruct (N.compare_spec (N_of_ascii y) (N_of_ascii z)) as [Hyz|Hyz|Hyz];
    try discriminate; intros H1 H2.
  - rewrite Hxy, Hyz, N.compare_refl. eapply IH; eassumption.
  - rewrite Hxy. apply N.compare_lt_iff in Hyz. rewrite Hyz. reflexivity.
  - rewrite <- Hyz. apply N.compare_lt_iff in Hxy. rewrite Hxy. reflexivity.
  - assert (Hxz : (N_of_ascii x < N_of_ascii z)%N) by lia.
    apply N.compare_lt_iff in Hxz. rewrite Hxz. reflexivity.
Qed.

Lemma string_ltb_irrefl (s : string) : String.ltb s s = false.
Proof. unfold String.ltb. rewrite string_compare_refl. reflexivity. Qed.

Lemma string_ltb_trans (a b c : string) :
  String.ltb a b = true -> String.ltb b c = true -> String.ltb a c = true.
Proof.
  unfold String.ltb. intros Hab Hbc.
  destruct (String.compare a b) eqn:H1; try discriminate.
  destruct (String.compare b c) eqn:H2; try discriminate.
  rewrite (string_compare_lt_trans a b c H1 H2). reflexivity.
Qed.

Lemma string_ltb_total (a b : string) :
  a <> b -> String.ltb a b = true \/ String.ltb b a = true.
Proof.
  intros Hab. unfold String.ltb. rewrite (String.compare_antisym b a).
  destruct (String.compare a b) eqn:H1; simpl; auto.
  apply String.compare_eq_iff in H1. contradiction.
Qed.

(** ** The comparison of [sort.Slice] *)

Lemma less_irrefl (a : NameCount) : less a a = false.
Proof. unfold less. rewrite Z.eqb_refl. apply string_ltb_irrefl. Qed.

Lemma less_trans (a b c : NameCount) :
  less a b = true -> less b c = true -> less a c = true.
Proof.
  unfold less.
  destruct (Z.eqb_spec (Count a) (Count b)) as [Hab|Hab];
    destruct (Z.eqb_spec (Count b) (Count c)) as [Hbc|Hbc];
    destruct (Z.eqb_spec (Count a) (Count c)) as [Hac|Hac];
    intros H1 H2; try lia.
  all: try (eapply string_ltb_trans; eassumption).
  all: try (rewrite Hab; exact H2).
  all: try (rewrite <- Hbc; exact H1).
Qed.

Lemma less_total (a b : NameCount) :
  a <> b -> less a b = true \/ less b a = true.
Proof.
  intros Hab. unfold less. rewrite (Z.eqb_sym (Count b)).
  destruct (Z.eqb_spec (Count a) (Count b)) as [Hc|Hc].
  - apply string_ltb_total. intros Hn. apply Hab.
    destruct a, b; simpl in *; congruence.
  - destruct (Z.gtb_spec (Count a) (Count b)); [auto|].
    right. apply Z.gtb_lt. lia.
Qed.

Lemma less_asym (a b : NameCount) : less a b = true -> less b a = false.
Proof.
  intros Hab. destruct (less b a) eqn:Hba; [|reflexivity].
  pose proof (less_trans a b a Hab Hba) as Haa.
  rewrite less_irrefl in Haa. discriminate.
Qed.

#[global] Instance notAfter_total : Total notAfter.
Proof.
  intros a b. unfold notAfter.
  destruct (less b a) eqn:Hba; [|auto].
  right. apply less_asym, Hba.
Qed.

#[global] Instance notAfter_trans : Transitive notAfter.
Proof.
  intros a b c. unfold notAfter. intros Hba Hcb.
  destruct (less c a) eqn:Hca; [|reflexivity].
  destruct (decide (b = a)) as [->|Hne]; [congruence|].
  destruct (less_total b a Hne) as [H|H]; [congruence|].
  pose proof (less_trans c a b Hca H). congruence.
Qed.

#[global] Instance notAfter_antisym : AntiSymm eq notAfter.
Proof.
  intros a b. unfold notAfter. intros Hba Hab.
  destruct (decide (a = b)) as [|Hne]; [assumption|].
  destruct (less_total a b Hne); congruence.
Qed.

(** ** Sums *)

Lemma fold_add64_wrap (zs : list Z) (a : Z) :
  wrap64 a = a -> fold_left add64 zs a = wrap64 (a + sumZ zs).
Proof.
  revert a. induction zs as [|z zs IH]; intros a Ha; simpl.
  - rewrite Z.add_0_r. symmetry. exact Ha.
  - rewrite IH by apply wrap64_idem.
    unfold add64. rewrite wrap64_add_l. f_equal. lia.
Qed.

Lemma sum64_wrap (zs : list Z) : sum64 zs = wrap64 (sumZ zs).
Proof. unfold sum64. rewrite fold_add64_wrap by reflexivity. reflexivity. Qed.

#[global] Instance sumZ_perm : Proper (Permutation ==> eq) sumZ.
Proof.
  intros l1 l2 Hp. induction Hp; simpl; lia.
Qed.

Lemma sumZ_cons (z : Z) (zs : list Z) : sumZ (z :: zs) = z + sumZ zs.
Proof. reflexivity. Qed.

Lemma sumZ_nonneg (zs : list Z) : Forall (fun z => 0 <= z) zs -> 0 <= sumZ zs.
Proof. induction 1; simpl; lia. Qed.

(** When the mathematical sum fits in an [int], it is the sum the code
    computes. *)
Lemma sumCounts_exact (l : list NameCount) :
  inInt64 (sumZ (Count <$> l)) -> sumCounts l = sumZ (Count <$> l).
Proof. intros Hr. unfold sumCounts. rewrite sum64_wrap. apply wrap64_id, Hr. Qed.

Lemma sumCounts_perm (l1 l2 : list NameCount) :
  l1 ≡ₚ l2 -> sumCounts l1 = sumCounts l2.
Proof.
  intros Hp. unfold sumCounts. rewrite !sum64_wrap.
  f_equal. apply sumZ_perm. rewrite Hp. reflexivity.
Qed.

(** Without overflow a zero total means that every count is zero. *)
Lemma sumCounts_zero_iff (l : list NameCount) :
  Forall (fun e => 0 <= Count e) l -> sumZ (Count <$> l) < 2 ^ 63 ->
  sumCounts l = 0 <-> Forall (fun e => Count e = 0) l.
Proof.
  intros Hpos Hlt.
  rewrite sumCounts_exact.
  - clear Hlt. induction Hpos as [|e l He Hl IH]; cbn.
    + split; [constructor|reflexivity].
    + pose proof (sumZ_nonneg (Count <$> l) (proj2 (Forall_fmap _ _ _) Hl)) as H0.
      rewrite Forall_cons. change (foldr Z.add 0 (Count <$> l)) with (sumZ (Count <$> l)).
      split.
      * intros Hs. split; [lia|]. apply IH. lia.
      * intros [Hz Hr]. apply IH in Hr. lia.
  - pose proof (sumZ_nonneg (Count <$> l) (proj2 (Forall_fmap _ _ _) Hpos)).
    unfold inInt64. lia.
Qed.

(** ** The map of totals *)

Lemma entriesOf_insert_None (m : gmap string NameCount) (k : string)
  (v : NameCount) :
  m !! k = None -> entriesOf (<[k := v]> m) ≡ₚ v :: entriesOf m.
Proof.
  intros Hk. unfold entriesOf.
  rewrite (map_to_list_insert m k v Hk). reflexivity.
Qed.

Lemma entriesOf_delete (m : gmap string NameCount) (k : string)
  (e : NameCount) :
  m !! k = Some e -> entriesOf m ≡ₚ e :: entriesOf (delete k m).
Proof.
  intros Hk. unfold entriesOf.
  rewrite <- (map_to_list_delete m k e Hk). reflexivity.
Qed.

Lemma entriesOf_insert_Some (m : gmap string NameCount) (k : string)
  (e v : NameCount) :
  m !! k = Some e -> entriesOf (<[k := v]> m) ≡ₚ v :: entriesOf (delete k m).
Proof.
  intros Hk. rewrite <- insert_delete_eq.
  apply entriesOf_insert_None, lookup_delete_eq.
Qed.

Lemma sumZ_Count_cons (e : NameCount) (l : list NameCount) :
  sumZ (Count <$> e :: l) = Count e + sumZ (Count <$> l).
Proof. reflexivity. Qed.

Lemma mapSum_addRecord (m : gmap string NameCount) (r : Record_) :
  wrap64 (mapSum (addRecord m r)) = wrap64 (mapSum m + RCount r).
Proof.
  unfold addRecord, mapSum.
  destruct (m !! ToUpper (RName r)) as [e|] eqn:Hk; cbn [default from_option id].
  - rewrite (entriesOf_insert_Some m _ e _ Hk), (entriesOf_delete m _ e Hk).
    rewrite !sumZ_Count_cons. cbn [Count Name]. unfold add64.
    rewrite wrap64_add_l. f_equal. ring.
  - rewrite (entriesOf_insert_None m _ _ Hk).
    rewrite sumZ_Count_cons. cbn [Count Name]. unfold add64.
    rewrite wrap64_add_l. f_equal. ring.
Qed.

Lemma mapSum_fold (records : list Record_) (year : Z) (gender : string)
  (m : gmap string NameCount) :
  wrap64
    (mapSum
       (fold_left
          (fun totals r =>
             if skipYear year r then totals
             else if skipGender gender r then totals
             else addRecord totals r)
          records m))
  = wrap64
      (mapSum m
       + sumZ (RCount <$>
               List.filter
                 (fun r => negb (skipYear year r) && negb (skipGender gender r))
                 records)).
Proof.
  revert m. induction records as [|r records IH]; intros m.
  - cbn. rewrite Z.add_0_r. reflexivity.
  - cbn [fold_left List.filter]. rewrite IH.
    destruct (skipYear year r); cbn [negb andb]; [reflexivity|].
    destruct (skipGender gender r); cbn [negb andb]; [reflexivity|].
    rewrite fmap_cons, sumZ_cons.
    rewrite <- (wrap64_add_l (mapSum (addRecord m r))), mapSum_addRecord.
    rewrite wrap64_add_l. f_equal. ring.
Qed.

(** ** The grouping loop *)

Lemma groupTotals_groupBy (records : list Record_) (year : Z) (gender : string) :
  groupTotals records year gender
  = groupBy (fun r => negb (skipYear year r) && negb (skipGender gender r))
      records ∅.
Proof.
  unfold groupTotals, groupBy. generalize (∅ : gmap string NameCount).
  induction records as [|r records IH]; intros m; [reflexivity|].
  cbn [fold_left]. rewrite IH.
  destruct (skipYear year r), (skipGender gender r); reflexivity.
Qed.

Lemma groupBy_ext (keep keep' : Record_ -> bool) (records : list Record_)
  (m : gmap string NameCount) :
  (forall r, keep r = keep' r) -> groupBy keep records m = groupBy keep' records m.
Proof.
  intros He. unfold groupBy. revert m.
  induction records as [|r records IH]; intros m; [reflexivity|].
  cbn [fold_left]. rewrite He. apply IH.
Qed.

Lemma addRecord_lookup_eq (m : gmap string NameCount) (r : Record_) :
  addRecord m r !! ToUpper (RName r)
  = Some (mkNameCount
            (Name (default (mkNameCount (RName r) 0) (m !! ToUpper (RName r))))
            (add64
               (Count (default (mkNameCount (RName r) 0) (m !! ToUpper (RName r))))
               (RCount r))).
Proof. unfold addRecord. apply lookup_insert_eq. Qed.

Lemma addRecord_lookup_ne (m : gmap string NameCount) (r : Record_) (k : string) :
  ToUpper (RName r) <> k -> addRecord m r !! k = m !! k.
Proof. intros Hk. unfold addRecord. apply lookup_insert_ne, Hk. Qed.

Lemma keyed_empty : keyed ∅.
Proof. intros k e He. rewrite lookup_empty in He. discriminate. Qed.

Lemma keyed_addRecord (m : gmap string NameCount) (r : Record_) :
  keyed m -> keyed (addRecord m r).
Proof.
  intros Hm k e.
  destruct (decide (ToUpper (RName r) = k)) as [<-|Hne].
  - rewrite addRecord_lookup_eq. intros [= <-]. cbn [Name].
    destruct (m !! ToUpper (RName r)) as [e0|] eqn:H0; cbn.
    + apply (Hm _ _ H0).
    + reflexivity.
  - rewrite addRecord_lookup_ne by assumption. apply Hm.
Qed.

Lemma keyed_groupBy (keep : Record_ -> bool) (records : list Record_)
  (m : gmap string NameCount) :
  keyed m -> keyed (groupBy keep records m).
Proof.
  unfold groupBy. revert m.
  induction records as [|r records IH]; intros m Hm; [exact Hm|].
  cbn [fold_left]. apply IH.
  destruct (keep r); [apply keyed_addRecord|]; exact Hm.
Qed.

Lemma keyed_groupTotals (records : list Record_) (year : Z) (gender : string) :
  keyed (groupTotals records year gender).
Proof. rewrite groupTotals_groupBy. apply keyed_groupBy, keyed_empty. Qed.

(** A key is in the map exactly when a kept record carries it. *)
Lemma groupBy_is_Some (keep : Record_ -> bool) (records : list Record_)
  (m : gmap string NameCount) (k : string) :
  is_Some (groupBy keep records m !! k)
  <-> is_Some (m !! k)
      \/ exists r, r ∈ records /\ keep r = true /\ ToUpper (RName r) = k.
Proof.
  unfold groupBy. revert m.
  induction records as [|r records IH]; intros m; cbn [fold_left].
  - split; [auto|].
    intros [H|(r & Hr & _)]; [exact H|]. inversion Hr.
  - rewrite IH. destruct (keep r) eqn:Hkeep.
    + destruct (decide (ToUpper (RName r) = k)) as [<-|Hne].
      * rewrite addRecord_lookup_eq. split; intros _.
        -- right. exists r. split; [left|auto].
        -- left. eauto.
      * rewrite addRecord_lookup_ne by assumption.
        split; (intros [H|(r' & Hr' & Hk' & He')]; [left; exact H|right]).
        -- exists r'. split; [right; exact Hr'|auto].
        -- apply elem_of_cons in Hr' as [->|Hr']; [contradiction|].
           exists r'. auto.
    + split; (intros [H|(r' & Hr' & Hk' & He')]; [left; exact H|right]).
      * exists r'. split; [right; exact Hr'|auto].
      * apply elem_of_cons in Hr' as [->|Hr']; [congruence|].
        exists r'. auto.
Qed.

Lemma groupTotals_is_Some (records : list Record_) (year : Z)
  (gender : string) (k : string) :
  is_Some (groupTotals records year gender !! k)
  <-> exists r, r ∈ records /\ skipYear year r = false
                /\ skipGender gender r = false /\ ToUpper (RName r) = k.
Proof.
  rewrite groupTotals_groupBy, groupBy_is_Some. split.
  - intros [[e He]|(r & Hr & Hk & He)].
    + rewrite lookup_empty in He. discriminate.
    + apply andb_true_iff in Hk as [H1%negb_true_iff H2%negb_true_iff]. eauto.
  - intros (r & Hr & H1 & H2 & He). right. exists r.
    rewrite H1, H2. auto.
Qed.

(** ** Conservation *)

(** Without overflow the sums are the mathematical ones. *)
Lemma mapSum_nonneg (m : gmap string NameCount) :
  (forall k e, m !! k = Some e -> 0 <= Count e) -> 0 <= mapSum m.
Proof.
  intros Hm. unfold mapSum, entriesOf. apply sumZ_nonneg.
  rewrite <- list_fmap_compose. apply Forall_fmap, Forall_forall.
  intros [k e] Hin%elem_of_map_to_list. cbn. eapply Hm, Hin.
Qed.

Lemma mapSum_lookup_le (m : gmap string NameCount) (k : string) (e : NameCount) :
  (forall k e, m !! k = Some e -> 0 <= Count e) ->
  m !! k = Some e -> 0 <= Count e <= mapSum m.
Proof.
  intros Hm Hk. split; [eapply Hm, Hk|].
  unfold mapSum. rewrite (entriesOf_delete m k e Hk), sumZ_Count_cons.
  assert (0 <= mapSum (delete k m)); [|unfold mapSum in *; lia].
  apply mapSum_nonneg. intros k' e' He'.
  apply lookup_delete_Some in He' as [_ He']. eapply Hm, He'.
Qed.

Lemma mapSum_addRecord_exact (m : gmap string NameCount) (r : Record_) :
  (forall k e, m !! k = Some e -> 0 <= Count e) ->
  0 <= RCount r -> mapSum m + RCount r < 2 ^ 63 ->
  mapSum (addRecord m r) = mapSum m + RCount r
  /\ (forall k e, addRecord m r !! k = Some e -> 0 <= Count e).
Proof.
  intros Hm Hr Hlt.
  assert (Hnew : forall c : Z, 0 <= c <= mapSum m ->
                   add64 c (RCount r) = c + RCount r).
  { intros c Hc. apply wrap64_id. unfold inInt64. lia. }
  pose proof (mapSum_nonneg m Hm) as Hm0.
  split.
  - unfold addRecord, mapSum.
    destruct (m !! ToUpper (RName r)) as [e|] eqn:Hk;
      cbn [default from_option id].
    + rewrite (entriesOf_insert_Some m _ e _ Hk), (entriesOf_delete m _ e Hk).
      rewrite !sumZ_Count_cons. cbn [Count Name].
      rewrite Hnew by (eapply mapSum_lookup_le; eassumption). ring.
    + rewrite (entriesOf_insert_None m _ _ Hk), sumZ_Count_cons.
      cbn [Count Name]. rewrite Hnew by lia. ring.
  - intros k e. destruct (decide (ToUpper (RName r) = k)) as [<-|Hne].
    + rewrite addRecord_lookup_eq. intros [= <-]. cbn [Count].
      destruct (m !! ToUpper (RName r)) as [e0|] eqn:Hk;
        cbn [default from_option id Count].
      * pose proof (mapSum_lookup_le m _ e0 Hm Hk).
        rewrite Hnew by assumption. lia.
      * rewrite Hnew by lia. lia.
    + rewrite addRecord_lookup_ne by exact Hne. apply Hm.
Qed.

Lemma mapSum_fold_exact (records : list Record_) (year : Z) (gender : string)
  (m : gmap string NameCount) :
  let kept :=
    List.filter (fun r => negb (skipYear year r) && negb (skipGender gender r))
      records in
  (forall k e, m !! k = Some e -> 0 <= Count e) ->
  Forall (fun r => 0 <= RCount r) kept ->
  mapSum m + sumZ (RCount <$> kept) < 2 ^ 63 ->
  mapSum
    (fold_left
       (fun totals r =>
          if skipYear year r then totals
          else if skipGender gender r then totals
          else addRecord totals r)
       records m)
  = mapSum m + sumZ (RCount <$> kept).
Proof.
  revert m. induction records as [|r records IH]; intros m kept Hm Hpos Hlt.
  - cbn. lia.
  - subst kept. cbn [fold_left List.filter] in *.
    destruct (skipYear year r); cbn [negb andb] in *; [apply IH; assumption|].
    destruct (skipGender gender r); cbn [negb andb] in *;
      [apply IH; assumption|].
    apply Forall_cons in Hpos as [Hr Hpos].
    rewrite fmap_cons, sumZ_cons in Hlt |- *.
    pose proof (sumZ_nonneg _ (proj2 (Forall_fmap _ _ _) Hpos)) as Hrest.
    destruct (mapSum_addRecord_exact m r Hm Hr ltac:(lia)) as [Hsum Hm'].
    rewrite IH; [lia|exact Hm'|exact Hpos|lia].
Qed.

(** C2. Aggregation conservation: the counts of the list [AggregateNames]
    returns add up to the sum of the counts of the records that pass the
    (year, gender) filter.  The sums are the ones a Go loop computes; and
    when the passing counts are not negative and their mathematical sum fits
    in an [int], the mathematical sums are equal as well. *)
Theorem AggregateNames_conservation (records : list Record_) (year : Z)
  (gender : string) :
  sumCounts (AggregateNames records year gender).1
  = sumRecordCounts (List.filter (passes year gender) records)
  /\ (Forall (fun r => 0 <= RCount r) (List.filter (passes year gender) records) ->
      sumZ (RCount <$> List.filter (passes year gender) records) < 2 ^ 63 ->
      sumZ (Count <$> (AggregateNames records year gender).1)
      = sumZ (RCount <$> List.filter (passes year gender) records)).
Proof.
  split.
  - unfold AggregateNames; simpl.
    rewrite (sumCounts_perm (sortSlice _) _ (merge_sort_Permutation _ _)).
    unfold sumCounts, sumRecordCounts. rewrite !sum64_wrap.
    unfold groupTotals.
    change (sumZ (Count <$> entriesOf ?m)) with (mapSum m).
    rewrite mapSum_fold. unfold passes. reflexivity.
  - intros Hpos Hlt. unfold AggregateNames. cbn [fst].
    unfold sortSlice. rewrite merge_sort_Permutation.
    change (sumZ (Count <$> entriesOf ?m)) with (mapSum m).
    unfold groupTotals. rewrite mapSum_fold_exact.
    + unfold mapSum, entriesOf. rewrite map_to_list_empty. reflexivity.
    + intros k e He. rewrite lookup_empty in He. discriminate.
    + exact Hpos.
    + unfold mapSum, entriesOf. rewrite map_to_list_empty. exact Hlt.
Qed.

(** ** sort.Slice *)

Lemma sortedBy_StronglySorted (l : list NameCount) :
  sortedBy less l <-> StronglySorted notAfter l.
Proof.
  split.
  - induction l as [|a l IH]; intros Hs; constructor.
    + apply IH. intros i j x y Hij Hi Hj.
      apply (Hs (S i) (S j) x y); [lia|exact Hi|exact Hj].
    + apply Forall_lookup. intros j b Hj.
      apply (Hs 0%nat (S j) a b); [lia|reflexivity|exact Hj].
  - induction 1 as [|a l Hl IH Ha]; intros i j x y Hij Hi Hj.
    + rewrite lookup_nil in Hi. discriminate.
    + destruct j as [|j]; [lia|]. cbn in Hj.
      destruct i as [|i]; cbn in Hi.
      * injection Hi as <-. rewrite Forall_lookup in Ha. apply (Ha j y Hj).
      * apply (IH i j x y); [lia|assumption|assumption].
Qed.

Lemma sortSlice_perm (l : list NameCount) : sortSlice l ≡ₚ l.
Proof. apply merge_sort_Permutation. Qed.

Lemma sortSlice_sorted (l : list NameCount) : StronglySorted notAfter (sortSlice l).
Proof. apply StronglySorted_merge_sort; apply _. Qed.

Lemma sortSlice_keeps_promise (l : list NameCount) :
  sortSlice_spec less l (sortSlice l).
Proof.
  split; [apply sortSlice_perm|].
  apply sortedBy_StronglySorted, sortSlice_sorted.
Qed.

(** Whatever order the input is in, and whatever [sort.Slice] does within
    its promise, the result is the same list. *)
Lemma sortSlice_spec_unique (input visited out : list NameCount) :
  visited ≡ₚ input -> sortSlice_spec less visited out -> out = sortSlice input.
Proof.
  intros Hv [Hp Hs].
  apply (StronglySorted_unique notAfter).
  - apply sortedBy_StronglySorted, Hs.
  - apply sortSlice_sorted.
  - rewrite Hp, Hv. symmetry. apply sortSlice_perm.
Qed.

(** ** The aggregate list *)

Lemma keys_entriesOf (m : gmap string NameCount) :
  keyed m -> keyOf <$> entriesOf m = (map_to_list m).*1.
Proof.
  intros Hm. unfold entriesOf. rewrite <- list_fmap_compose.
  apply list_fmap_ext. intros i [k e] Hi. cbn.
  apply Hm, elem_of_map_to_list, list_elem_of_lookup. eauto.
Qed.

Lemma NoDup_keys_entriesOf (m : gmap string NameCount) :
  keyed m -> NoDup (keyOf <$> entriesOf m).
Proof. intros Hm. rewrite keys_entriesOf by exact Hm. apply NoDup_fst_map_to_list. Qed.

Lemma NoDup_keys_aggregated (records : list Record_) (year : Z) (gender : string) :
  NoDup (keyOf <$> (AggregateNames records year gender).1).
Proof.
  cbn. rewrite sortSlice_perm.
  apply NoDup_keys_entriesOf, keyed_groupTotals.
Qed.

Lemma NoDup_aggregated (records : list Record_) (year : Z) (gender : string) :
  NoDup (AggregateNames records year gender).1.
Proof. eapply NoDup_fmap_1, NoDup_keys_aggregated. Qed.

Lemma aggregated_sorted (records : list Record_) (year : Z) (gender : string) :
  StronglySorted notAfter (AggregateNames records year gender).1.
Proof. apply sortSlice_sorted. Qed.

(** The list is strictly sorted. *)
Lemma aggregated_strict (records : list Record_) (year : Z) (gender : string)
  (i j : nat) (a b : NameCount) :
  (i < j)%nat ->
  (AggregateNames records year gender).1 !! i = Some a ->
  (AggregateNames records year gender).1 !! j = Some b ->
  less a b = true.
Proof.
  intros Hij Hi Hj.
  pose proof (proj2 (sortedBy_StronglySorted _)
                (aggregated_sorted records year gender) i j a b Hij Hi Hj) as Hba.
  destruct (decide (a = b)) as [->|Hne].
  - pose proof (NoDup_lookup _ i j b (NoDup_aggregated records year gender) Hi Hj).
    lia.
  - destruct (less_total a b Hne) as [H|H]; [exact H|congruence].
Qed.

(** An entry is in the list exactly when it is in the map of totals. *)
Lemma elem_of_aggregated (records : list Record_) (year : Z) (gender : string)
  (e : NameCount) :
  e ∈ (AggregateNames records year gender).1
  <-> groupTotals records year (ToUpper (TrimSpace gender)) !! keyOf e = Some e.
Proof.
  cbn. rewrite sortSlice_perm. unfold entriesOf.
  rewrite list_elem_of_fmap. split.
  - intros ([k e'] & -> & Hin). cbn.
    apply elem_of_map_to_list in Hin.
    pose proof (keyed_groupTotals _ _ _ _ _ Hin) as Hk.
    unfold keyOf. rewrite Hk. exact Hin.
  - intros He. exists (keyOf e, e). split; [reflexivity|].
    apply elem_of_map_to_list, He.
Qed.

(** ** The rank table *)

Lemma rankLoop_notin (idx : Z) (l : list NameCount) (ranks : gmap string Z)
  (k : string) :
  k ∉ keyOf <$> l -> rankLoop idx l ranks !! k = ranks !! k.
Proof.
  revert idx ranks. induction l as [|e l IH]; intros idx ranks Hk; [reflexivity|].
  cbn [rankLoop]. rewrite fmap_cons in Hk.
  apply not_elem_of_cons in Hk as [Hne Hk].
  rewrite IH by exact Hk. apply lookup_insert_ne. unfold keyOf in Hne. congruence.
Qed.

Lemma rankLoop_lookup (idx : Z) (l : list NameCount) (ranks : gmap string Z)
  (i : nat) (e : NameCount) :
  NoDup (keyOf <$> l) -> l !! i = Some e ->
  rankLoop idx l ranks !! keyOf e = Some (idx + Z.of_nat i + 1).
Proof.
  revert idx ranks i. induction l as [|a l IH]; intros idx ranks i Hnd Hi.
  - rewrite lookup_nil in Hi. discriminate.
  - rewrite fmap_cons in Hnd. apply NoDup_cons in Hnd as [Ha Hnd].
    cbn [rankLoop]. destruct i as [|i]; cbn in Hi.
    + injection Hi as <-. rewrite rankLoop_notin by exact Ha.
      unfold keyOf. rewrite lookup_insert_eq. f_equal. lia.
    + rewrite (IH (idx + 1) _ i Hnd Hi). f_equal. lia.
Qed.

Lemma rankLoop_is_Some (idx : Z) (l : list NameCount) (k : string) :
  is_Some (rankLoop idx l ∅ !! k) <-> k ∈ keyOf <$> l.
Proof.
  split.
  - intros Hs. destruct (decide (k ∈ keyOf <$> l)) as [|Hn]; [assumption|].
    rewrite rankLoop_notin, lookup_empty in Hs by exact Hn.
    destruct Hs; discriminate.
  - generalize (∅ : gmap string Z). revert idx.
    induction l as [|a l IH]; intros idx ranks Hk.
    + rewrite fmap_nil in Hk. inversion Hk.
    + cbn [rankLoop].
      destruct (decide (k ∈ keyOf <$> l)) as [Hin|Hn]; [apply IH, Hin|].
      rewrite rankLoop_notin by exact Hn.
      rewrite fmap_cons in Hk. apply elem_of_cons in Hk as [->|Hk]; [|contradiction].
      unfold keyOf. rewrite lookup_insert_eq. eauto.
Qed.

(** ** Slices *)

Lemma index_Ok {A : Type} (l : list A) (i : nat) (a : A) :
  l !! i = Some a -> index l (Z.of_nat i) = Ok a.
Proof.
  intros Hi. unfold index.
  destruct (Z.ltb_spec (Z.of_nat i) 0) as [Hlt|_]; [lia|].
  rewrite Nat2Z.id, Hi. reflexivity.
Qed.

Lemma index_in_range {A : Type} (l : list A) (i : Z) :
  0 <= i < len l -> exists a, index l i = Ok a /\ l !! Z.to_nat i = Some a.
Proof.
  unfold index, len. intros Hi.
  destruct (Z.ltb_spec i 0) as [|_]; [lia|].
  destruct (lookup_lt_is_Some_2 l (Z.to_nat i)) as [a Ha]; [lia|].
  rewrite Ha. eauto.
Qed.

Lemma index_cases {A : Type} (l : list A) (i : Z) :
  (exists a, index l i = Ok a) \/ index l i = Panic.
Proof.
  unfold index. destruct (i <? 0); [auto|].
  destruct (l !! Z.to_nat i); eauto.
Qed.

Lemma len_nil_iff {A : Type} (l : list A) : (len l =? 0) = true <-> l = [].
Proof.
  unfold len. rewrite Z.eqb_eq. destruct l; cbn; split; (discriminate || lia || auto).
Qed.

(** ** Rank lookups *)

Lemma ranks_lookup (records : list Record_) (year : Z) (gender : string)
  (i : nat) (e : NameCount) :
  (AggregateNames records year gender).1 !! i = Some e ->
  (AggregateNames records year gender).2 !! ToUpper (Name e)
  = Some (Z.of_nat i + 1).
Proof.
  intros Hi.
  pose proof (rankLoop_lookup 0 _ ∅ i e
                (NoDup_keys_aggregated records year gender) Hi) as H.
  exact H.
Qed.

Lemma ranks_is_Some (records : list Record_) (year : Z) (gender : string)
  (k : string) :
  is_Some ((AggregateNames records year gender).2 !! k)
  <-> exists r, r ∈ records /\ passes year gender r = true
                /\ ToUpper (RName r) = k.
Proof.
  cbn [AggregateNames snd]. rewrite rankLoop_is_Some, list_elem_of_fmap.
  split.
  - intros (e & -> & He). apply elem_of_aggregated in He.
    destruct (proj1 (groupTotals_is_Some _ _ _ _) (mk_is_Some _ _ He))
      as (r & Hr & H1 & H2 & Hk).
    exists r. unfold passes. rewrite H1, H2. auto.
  - intros (r & Hr & Hp & Hk). unfold passes in Hp.
    apply andb_true_iff in Hp as [H1%negb_true_iff H2%negb_true_iff].
    destruct (proj2 (groupTotals_is_Some records year
                       (ToUpper (TrimSpace gender)) k)) as [e He]; [eauto|].
    exists e. pose proof (keyed_groupTotals _ _ _ _ _ He) as Hke.
    split; [symmetry; exact Hke|].
    apply elem_of_aggregated. unfold keyOf. rewrite Hke. exact He.
Qed.

Lemma RankFromAggregate_found (records : list Record_) (year : Z)
  (gender : string) (i : nat) (e : NameCount) (q : string) :
  (AggregateNames records year gender).1 !! i = Some e ->
  TrimSpace q <> "" ->
  ToUpper q = ToUpper (Name e) ->
  RankFromAggregate (AggregateNames records year gender).1
    (AggregateNames records year gender).2 q
  = Ok (Z.of_nat i + 1, e).
Proof.
  intros Hi Hnb Hq. unfold RankFromAggregate.
  destruct (String.eqb_spec (TrimSpace q) "") as [Hb|_]; [contradiction|].
  destruct (len _ =? 0) eqn:Hlen.
  { apply len_nil_iff in Hlen. rewrite Hlen, lookup_nil in Hi. discriminate. }
  rewrite Hq, (ranks_lookup _ _ _ _ _ Hi).
  replace (Z.of_nat i + 1 - 1) with (Z.of_nat i) by lia.
  rewrite (index_Ok _ _ _ Hi). reflexivity.
Qed.

(** C3, amended. Rank consistency: the entry at index [i] of the list
    [AggregateNames] returns has rank [i+1] in the rank table under its
    upper-cased name; and [RankFromAggregate] returns [(i+1, entry)] with no
    error for every query that is not blank and spells the name of the entry
    in any letter case: for the name of the entry itself as soon as that is
    not blank. *)
Theorem rank_consistency (records : list Record_) (year : Z) (gender : string)
  (i : nat) (e : NameCount) :
  (AggregateNames records year gender).1 !! i = Some e ->
  (AggregateNames records year gender).2 !! ToUpper (Name e)
  = Some (Z.of_nat i + 1)
  /\ (forall q : string,
        TrimSpace q <> "" ->
        ToUpper q = ToUpper (Name e) ->
        RankFromAggregate (AggregateNames records year gender).1
          (AggregateNames records year gender).2 q
        = Ok (Z.of_nat i + 1, e))
  /\ (TrimSpace (Name e) <> "" ->
      RankFromAggregate (AggregateNames records year gender).1
        (AggregateNames records year gender).2 (Name e)
      = Ok (Z.of_nat i + 1, e)).
Proof.
  intros Hi. split; [apply ranks_lookup, Hi|]. split.
  - intros q Hnb Hq. apply RankFromAggregate_found; assumption.
  - intros Hnb. apply RankFromAggregate_found; [exact Hi|exact Hnb|reflexivity].
Qed.

End WithStrings.

Lemma rank_consistency_witness :
  (AggregateNames sampleCA 2019 "F").2 !! "EMMA" = Some 2
  /\ RankFromAggregate (AggregateNames sampleCA 2019 "F").1
       (AggregateNames sampleCA 2019 "F").2 "emma"
     = Ok (2, mkNameCount "Emma" 90).
Proof.
  destruct (rank_consistency sampleCA 2019 "F" 1%nat (mkNameCount "Emma" 90))
    as (H1 & H2 & _).
  - vm_compute. reflexivity.
  - split; [exact H1|]. apply H2; [|reflexivity].
    vm_compute. discriminate.
Defined.

(** C3 as stated fails: a record with an empty name yields an entry that has
    its rank in the table, and [RankFromAggregate] refuses its name. *)
Lemma rank_consistency_blank_counterexample :
  (AggregateNames [mkRecord "CA" "F" 2019 "" 7] 2019 "F").1 !! 0%nat
  = Some (mkNameCount "" 7)
  /\ (AggregateNames [mkRecord "CA" "F" 2019 "" 7] 2019 "F").2 !! ToUpper ""
     = Some 1
  /\ RankFromAggregate (AggregateNames [mkRecord "CA" "F" 2019 "" 7] 2019 "F").1
       (AggregateNames [mkRecord "CA" "F" 2019 "" 7] 2019 "F").2 ""
     = Err ErrNameRequired.
Proof. vm_compute. auto. Qed.

Section WithStrings.
Context {strings : Strings}.

(** C1, amended. [RankFromAggregate] on the output of [AggregateNames]
    fails with the not-found error exactly when the name is not blank, the
    list is not empty and no record that passes the filters carries the name
    (letter case apart). *)
Theorem rank_not_found (records : list Record_) (year : Z)
  (gender name : string) :
  RankFromAggregate (AggregateNames records year gender).1
    (AggregateNames records year gender).2 name
  = Err (ErrNameNotFound name)
  <-> TrimSpace name <> ""
      /\ (AggregateNames records year gender).1 <> []
      /\ ~ (exists r, r ∈ records /\ passes year gender r = true
                      /\ carries name r = true).
Proof.
  unfold RankFromAggregate.
  destruct (String.eqb_spec (TrimSpace name) "") as [Hb|Hb].
  { split; [discriminate|]. intros [H _]. contradiction. }
  destruct (len _ =? 0) eqn:Hlen.
  { apply len_nil_iff in Hlen. split; [discriminate|]. intros (_ & H & _).
    contradiction. }
  assert (Hne : (AggregateNames records year gender).1 <> []).
  { intros H. apply len_nil_iff in H. congruence. }
  destruct (_ !! ToUpper name) as [rank|] eqn:Hr.
  - split.
    + destruct (index_cases (AggregateNames records year gender).1 (rank - 1))
        as [[a ->]| ->]; cbn; discriminate.
    + intros (_ & _ & Hno). exfalso. apply Hno.
      destruct (proj1 (ranks_is_Some records year gender (ToUpper name)))
        as (r & Hin & Hp & Hk); [eauto|].
      exists r. unfold carries. rewrite Hk, String.eqb_refl. auto.
  - split; [|reflexivity]. intros _. split; [exact Hb|]. split; [exact Hne|].
    intros (r & Hin & Hp & Hc). unfold carries in Hc.
    apply String.eqb_eq in Hc.
    destruct (proj2 (ranks_is_Some records year gender (ToUpper name)))
      as [x Hx]; [eauto|]. congruence.
Qed.

End WithStrings.

(** C1 as stated fails: a name whose only record has count 0 has an
    aggregated count of 0 and is found all the same. *)
Lemma rank_zero_count_counterexample :
  wellFormed [mkRecord "CA" "F" 2019 "Zed" 0]
  /\ aggregatedCount [mkRecord "CA" "F" 2019 "Zed" 0] 2019 "F" "Zed" = 0
  /\ RankFromAggregate
       (AggregateNames [mkRecord "CA" "F" 2019 "Zed" 0] 2019 "F").1
       (AggregateNames [mkRecord "CA" "F" 2019 "Zed" 0] 2019 "F").2 "Zed"
     = Ok (1, mkNameCount "Zed" 0).
Proof.
  split; [repeat constructor; cbn; lia|]. vm_compute. auto.
Qed.

Section WithStrings.
Context {strings : Strings}.

(** ** The count of an entry *)

Lemma groupBy_count (keep : Record_ -> bool) (records : list Record_)
  (m : gmap string NameCount) (k : string) :
  default 0 (Count <$> groupBy keep records m !! k)
  = fold_left add64
      (RCount <$>
       List.filter (fun r => keep r && String.eqb (ToUpper (RName r)) k) records)
      (default 0 (Count <$> m !! k)).
Proof.
  unfold groupBy. revert m.
  induction records as [|r records IH]; intros m; [reflexivity|].
  cbn [fold_left List.filter]. rewrite IH. destruct (keep r); cbn [andb].
  - destruct (String.eqb_spec (ToUpper (RName r)) k) as [<-|Hne].
    + rewrite addRecord_lookup_eq, fmap_cons. cbn [fold_left].
      destruct (m !! ToUpper (RName r)); reflexivity.
    + rewrite addRecord_lookup_ne by exact Hne. reflexivity.
  - reflexivity.
Qed.

(** The count of an entry of the aggregate list is the aggregated count of
    its name. *)
Lemma aggregated_count (records : list Record_) (year : Z) (gender : string)
  (e : NameCount) :
  e ∈ (AggregateNames records year gender).1 ->
  Count e = aggregatedCount records year gender (Name e).
Proof.
  intros He%elem_of_aggregated. rewrite groupTotals_groupBy in He.
  pose proof (groupBy_count
                (fun r => negb (skipYear year r)
                          && negb (skipGender (ToUpper (TrimSpace gender)) r))
                records ∅ (keyOf e)) as H.
  rewrite He, lookup_empty in H. cbn [fmap option_fmap option_map default from_option id] in H.
  rewrite H. reflexivity.
Qed.

(** ** The order of the aggregate list *)

Lemma less_spec (a b : NameCount) :
  less a b = true
  <-> Count a > Count b
      \/ (Count a = Count b /\ String.ltb (Name a) (Name b) = true).
Proof.
  unfold less. destruct (Z.eqb_spec (Count a) (Count b)) as [He|Hne].
  - split; [auto|]. intros [H|[_ H]]; [lia|exact H].
  - rewrite Z.gtb_gt. split; [auto|]. intros [H|[H _]]; [exact H|contradiction].
Qed.

Lemma AggregateNames_is_run (records : list Record_) (year : Z) (gender : string) :
  AggregateNames_run records year gender (AggregateNames records year gender).
Proof.
  unfold AggregateNames_run.
  exists (entriesOf (groupTotals records year (ToUpper (TrimSpace gender)))).
  eexists. split; [reflexivity|]. split; [apply sortSlice_keeps_promise|].
  reflexivity.
Qed.

Lemma AggregateNames_run_unique (records : list Record_) (year : Z)
  (gender : string) (out : list NameCount * gmap string Z) :
  AggregateNames_run records year gender out ->
  out = AggregateNames records year gender.
Proof.
  intros (visited & aggregated & Hv & Hs & ->).
  rewrite (sortSlice_spec_unique _ _ _ Hv Hs). reflexivity.
Qed.

(** C4. The list [AggregateNames] returns is sorted by count descending,
    ties broken by name ascending in byte order; that comparison is a strict
    total order on entries; and every run of the code (any order of iteration
    over the map, any sort that keeps the promise of [sort.Slice]) returns
    the same list and rank table. *)
Theorem aggregate_order_deterministic (records : list Record_) (year : Z)
  (gender : string) :
  (forall (i j : nat) (a b : NameCount),
      (i < j)%nat ->
      (AggregateNames records year gender).1 !! i = Some a ->
      (AggregateNames records year gender).1 !! j = Some b ->
      Count a > Count b
      \/ (Count a = Count b /\ String.ltb (Name a) (Name b) = true))
  /\ ((forall a : NameCount, less a a = false)
      /\ (forall a b c : NameCount,
             less a b = true -> less b c = true -> less a c = true)
      /\ (forall a b : NameCount, a <> b -> less a b = true \/ less b a = true))
  /\ (forall out : list NameCount * gmap string Z,
         AggregateNames_run records year gender out
         <-> out = AggregateNames records year gender).
Proof.
  split; [|split].
  - intros i j a b Hij Hi Hj. apply less_spec.
    eapply aggregated_strict; eassumption.
  - split; [exact less_irrefl|]. split; [exact less_trans|exact less_total].
  - intros out. split; [apply AggregateNames_run_unique|].
    intros ->. apply AggregateNames_is_run.
Qed.

(** C5, amended. Two adjacent entries with equal counts are in ascending
    order of their names under byte-wise (case-sensitive) comparison. *)
Theorem aggregate_ties_by_name (records : list Record_) (year : Z)
  (gender : string) (i : nat) (a b : NameCount) :
  (AggregateNames records year gender).1 !! i = Some a ->
  (AggregateNames records year gender).1 !! S i = Some b ->
  Count a = Count b ->
  String.ltb (Name a) (Name b) = true.
Proof.
  intros Hi Hj Hc.
  pose proof (aggregated_strict records year gender i (S i) a b
                ltac:(lia) Hi Hj) as Hl.
  apply less_spec in Hl as [Hgt|[_ Hl]]; [lia|exact Hl].
Qed.

End WithStrings.

Lemma aggregate_ties_by_name_witness :
  String.ltb "B" "a" = true.
Proof.
  apply (aggregate_ties_by_name
           [mkRecord "CA" "F" 2019 "a" 1; mkRecord "CA" "F" 2019 "B" 1]
           2019 "F" 0%nat (mkNameCount "B" 1) (mkNameCount "a" 1));
    vm_compute; reflexivity.
Defined.

(** C5 as stated fails: with equal counts, "B" comes before "a", and
    case-insensitively "a" precedes "B". *)
Lemma aggregate_ties_case_counterexample :
  (AggregateNames [mkRecord "CA" "F" 2019 "a" 1; mkRecord "CA" "F" 2019 "B" 1]
     2019 "F").1
  = [mkNameCount "B" 1; mkNameCount "a" 1]
  /\ lessFold "B" "a" = false
  /\ lessFold "a" "B" = true.
Proof. vm_compute. auto. Qed.

Section WithStrings.
Context {strings : Strings}.

(** ** The single-shot draw *)

Lemma cumFrom_0 (running : Z) (e : NameCount) (l : list NameCount) :
  cumFrom running (e :: l) 0 = add64 running (Count e).
Proof. unfold cumFrom. cbn. rewrite take_0. reflexivity. Qed.

Lemma cumFrom_S (running : Z) (e : NameCount) (l : list NameCount) (i : nat) :
  cumFrom running (e :: l) (S i) = cumFrom (add64 running (Count e)) l i.
Proof. reflexivity. Qed.

Lemma cumulative_last (l : list NameCount) :
  l <> [] -> cumulative l (length l - 1) = sumCounts l.
Proof.
  intros Hl. unfold cumulative, cumFrom, sumCounts, sum64.
  rewrite firstn_all2; [reflexivity|].
  destruct l; [contradiction|cbn; lia].
Qed.

Lemma scan_Some (pick running : Z) (l : list NameCount) (e : NameCount) :
  scan pick running l = Some e ->
  exists i : nat,
    l !! i = Some e /\ pick < cumFrom running l i
    /\ forall j : nat, (j < i)%nat -> cumFrom running l j <= pick.
Proof.
  revert running. induction l as [|a l IH]; intros running; [discriminate|].
  cbn [scan].
  destruct (Z.ltb_spec pick (add64 running (Count a))) as [Hlt|Hge].
  - intros [= <-]. exists 0%nat. rewrite cumFrom_0.
    split; [reflexivity|]. split; [exact Hlt|]. intros j Hj. lia.
  - intros (i & Hi & Hp & Hfirst)%IH. exists (S i).
    split; [exact Hi|]. split; [exact Hp|].
    intros [|j] Hj; [rewrite cumFrom_0; exact Hge|].
    rewrite cumFrom_S. apply Hfirst. lia.
Qed.

Lemma scan_None (pick running : Z) (l : list NameCount) :
  scan pick running l = None ->
  forall j : nat, (j < length l)%nat -> cumFrom running l j <= pick.
Proof.
  revert running. induction l as [|a l IH]; intros running Hs j Hj;
    [cbn in Hj; lia|].
  cbn [scan] in Hs.
  destruct (Z.ltb_spec pick (add64 running (Count a))) as [Hlt|Hge];
    [discriminate|].
  destruct j as [|j]; [rewrite cumFrom_0; exact Hge|].
  rewrite cumFrom_S. apply IH; [exact Hs|]. cbn in Hj. lia.
Qed.

Lemma scan_elem_of (pick running : Z) (l : list NameCount) (e : NameCount) :
  scan pick running l = Some e -> e ∈ l.
Proof.
  intros (i & Hi & _)%scan_Some. apply list_elem_of_lookup. eauto.
Qed.

Lemma last_index {A : Type} (l : list A) :
  l <> [] -> exists a, index l (len l - 1) = Ok a /\ last l = Some a.
Proof.
  intros Hl. destruct (index_in_range l (len l - 1)) as (a & Ha & Hi).
  { unfold len. destruct l; [contradiction|cbn; lia]. }
  exists a. split; [exact Ha|]. rewrite last_lookup. rewrite <- Hi.
  f_equal. unfold len. lia.
Qed.

Section SingleShot.
Context {rng : Type} `{!RandSource rng}.

(** [Intn] returns a number of [[0, n)]. *)
Hypothesis Intn_range :
  forall (r : rng) (n : Z), 0 < n -> 0 <= (Intn r n).1 < n.

Lemma single_shot_unfold (aggregated : list NameCount) (total : Z) (r : rng) :
  aggregated <> [] -> 0 < total ->
  RandomNameFromAggregateWithTotal aggregated total r
  = match scan (Intn r total).1 0 aggregated with
    | Some entry => Ok (entry, (Intn r total).2)
    | None =>
        entry ← index aggregated (len aggregated - 1);
        Ok (entry, (Intn r total).2)
    end.
Proof.
  intros Hl Ht. unfold RandomNameFromAggregateWithTotal, intn.
  destruct (len aggregated =? 0) eqn:Hlen.
  { apply len_nil_iff in Hlen. contradiction. }
  destruct (Z.leb_spec total 0) as [|_]; [lia|].
  destruct (Intn r total) as [pick r']. reflexivity.
Qed.

(** C8. For a non-empty list and a positive total that is the total of
    the list (or less), the single-shot path draws one integer [pick] of
    [[0, total)] and returns the first entry whose cumulative sum exceeds
    it; on [[{A,2},{B,3}]] with total 5 a draw of 1 selects A and a draw of
    4 selects B. *)
Theorem single_shot_first_exceeding :
  (forall (aggregated : list NameCount) (total : Z) (r : rng),
      aggregated <> [] -> 0 < total -> total <= sumCounts aggregated ->
      0 <= (Intn r total).1 < total
      /\ exists (i : nat) (e : NameCount),
           aggregated !! i = Some e
           /\ (Intn r total).1 < cumulative aggregated i
           /\ (forall j : nat,
                  (j < i)%nat -> cumulative aggregated j <= (Intn r total).1)
           /\ RandomNameFromAggregateWithTotal aggregated total r
              = Ok (e, (Intn r total).2))
  /\ (forall r : rng,
         (Intn r 5).1 = 1 ->
         RandomNameFromAggregateWithTotal
           [mkNameCount "A" 2; mkNameCount "B" 3] 5 r
         = Ok (mkNameCount "A" 2, (Intn r 5).2))
  /\ (forall r : rng,
         (Intn r 5).1 = 4 ->
         RandomNameFromAggregateWithTotal
           [mkNameCount "A" 2; mkNameCount "B" 3] 5 r
         = Ok (mkNameCount "B" 3, (Intn r 5).2)).
Proof.
  split; [|split].
  - intros aggregated total r Hl Ht Hsum.
    pose proof (Intn_range r total Ht) as Hpick. split; [exact Hpick|].
    rewrite (single_shot_unfold _ _ _ Hl Ht).
    destruct (scan (Intn r total).1 0 aggregated) as [e|] eqn:Hs.
    + destruct (scan_Some _ _ _ _ Hs) as (i & Hi & Hp & Hfirst).
      exists i, e. auto.
    + exfalso.
      pose proof (scan_None _ _ _ Hs (length aggregated - 1)%nat) as Hn.
      fold (cumulative aggregated (length aggregated - 1)) in Hn.
      rewrite (cumulative_last _ Hl) in Hn.
      assert (length aggregated <> 0%nat) by (destruct aggregated; cbn; congruence).
      lia.
  - intros r Hr. rewrite single_shot_unfold by (discriminate || lia).
    rewrite Hr. reflexivity.
  - intros r Hr. rewrite single_shot_unfold by (discriminate || lia).
    rewrite Hr. reflexivity.
Qed.

(** C10. For a non-empty list and any positive total, equal to the sum
    of the counts or not, the single-shot path returns an entry of the
    list, with no panic; when no cumulative sum exceeds the draw, it is the
    last entry. *)
Theorem single_shot_total_unchecked (aggregated : list NameCount)
  (total : Z) (r : rng) :
  aggregated <> [] -> 0 < total ->
  exists e : NameCount,
    e ∈ aggregated
    /\ RandomNameFromAggregateWithTotal aggregated total r
       = Ok (e, (Intn r total).2)
    /\ ((forall j : nat,
            (j < length aggregated)%nat ->
            cumulative aggregated j <= (Intn r total).1) ->
        last aggregated = Some e).
Proof.
  intros Hl Ht. rewrite (single_shot_unfold _ _ _ Hl Ht).
  destruct (scan (Intn r total).1 0 aggregated) as [e|] eqn:Hs.
  - exists e. split; [eapply scan_elem_of, Hs|]. split; [reflexivity|].
    intros Hall. exfalso.
    destruct (scan_Some _ _ _ _ Hs) as (i & Hi & Hp & _).
    apply lookup_lt_Some in Hi. specialize (Hall i Hi).
    unfold cumulative in Hall. lia.
  - destruct (last_index aggregated Hl) as (e & He & Hlast).
    exists e. rewrite He. split; [|split; [reflexivity|auto]].
    apply last_Some in Hlast as [l' ->]. apply elem_of_app. right. left.
Qed.
End SingleShot.

End WithStrings.

Lemma tape_Intn_range (t : tape) (n : Z) : 0 < n -> 0 <= (Intn t n).1 < n.
Proof.
  intros Hn. cbn. destruct (ints t) as [|i rest]; cbn; [lia|].
  apply Z.mod_pos_bound, Hn.
Qed.

Lemma single_shot_first_exceeding_witness :
  RandomNameFromAggregateWithTotal
    [mkNameCount "A" 2; mkNameCount "B" 3] 5 (mkTape [1] [])
  = Ok (mkNameCount "A" 2, mkTape [] [])
  /\ RandomNameFromAggregateWithTotal
       [mkNameCount "A" 2; mkNameCount "B" 3] 5 (mkTape [4] [])
     = Ok (mkNameCount "B" 3, mkTape [] [])
  /\ exists (i : nat) (e : NameCount),
       [mkNameCount "A" 2; mkNameCount "B" 3] !! i = Some e
       /\ 3 < cumulative [mkNameCount "A" 2; mkNameCount "B" 3] i
       /\ RandomNameFromAggregateWithTotal
            [mkNameCount "A" 2; mkNameCount "B" 3] 5 (mkTape [3] [])
          = Ok (e, mkTape [] []).
Proof.
  destruct (single_shot_first_exceeding tape_Intn_range) as (HG & HA & HB).
  split; [apply (HA (mkTape [1] [])); reflexivity|].
  split; [apply (HB (mkTape [4] [])); reflexivity|].
  destruct (HG [mkNameCount "A" 2; mkNameCount "B" 3] 5 (mkTape [3] []))
    as (_ & i & e & Hi & Hc & _ & Hrun).
  - discriminate.
  - lia.
  - vm_compute. discriminate.
  - exists i, e. split; [exact Hi|]. split; [exact Hc|exact Hrun].
Defined.

Lemma single_shot_total_unchecked_witness :
  exists e : NameCount,
    e ∈ [mkNameCount "A" 2; mkNameCount "B" 3]
    /\ RandomNameFromAggregateWithTotal
         [mkNameCount "A" 2; mkNameCount "B" 3] 50 (mkTape [40] [])
       = Ok (e, mkTape [] [])
    /\ ((forall j : nat,
            (j < 2)%nat ->
            cumulative [mkNameCount "A" 2; mkNameCount "B" 3] j <= 40) ->
        Some (mkNameCount "B" 3) = Some e).
Proof.
  exact (single_shot_total_unchecked
           [mkNameCount "A" 2; mkNameCount "B" 3] 50 (mkTape [40] [])
           ltac:(discriminate) ltac:(lia)).
Defined.

Section WithStrings.
Context {strings : Strings}.

(** ** The alias sampler *)

Lemma bind_Ok {A B : Type} (a : A) (k : A -> result B) : (Ok a ≫= k) = k a.
Proof. reflexivity. Qed.

Lemma store_Ok {A : Type} (l : list A) (i : Z) (x : A) :
  inRange (length l) i -> store l i x = Ok (<[Z.to_nat i := x]> l).
Proof.
  unfold inRange, store, len. intros Hi.
  destruct (Z.ltb_spec i 0) as [|_]; [lia|].
  destruct (Z.leb_spec (Z.of_nat (length l)) i) as [|_]; [lia|]. reflexivity.
Qed.

Lemma index_store {A : Type} (l : list A) (i : Z) (x : A) :
  inRange (length l) i -> index (<[Z.to_nat i := x]> l) i = Ok x.
Proof.
  unfold inRange, index. intros Hi.
  destruct (Z.ltb_spec i 0) as [|_]; [lia|].
  rewrite list_lookup_insert_eq by lia. reflexivity.
Qed.

Lemma index_inRange {A : Type} (l : list A) (i : Z) :
  inRange (length l) i -> exists a, index l i = Ok a.
Proof.
  intros Hi. destruct (index_in_range l i Hi) as (a & Ha & _). eauto.
Qed.

Lemma Forall_inRange_insert (n : nat) (l : list Z) (i : nat) (x : Z) :
  Forall (inRange n) l -> inRange n x -> Forall (inRange n) (<[i := x]> l).
Proof. intros Hl Hx. apply Forall_insert; assumption. Qed.

Lemma sumLoop_nonneg (l : list NameCount) (total : Z) :
  Forall (fun e => 0 <= Count e) l ->
  sumLoop l total = Ok (fold_left add64 (Count <$> l) total).
Proof.
  revert total. induction l as [|e l IH]; intros total Hl; [reflexivity|].
  apply Forall_cons in Hl as [He Hl]. cbn [sumLoop].
  destruct (Z.ltb_spec (Count e) 0) as [|_]; [lia|].
  rewrite IH by exact Hl. reflexivity.
Qed.

Lemma sumLoop_negative (l : list NameCount) (total : Z) :
  Exists (fun e => Count e < 0) l ->
  exists name, sumLoop l total = Err (ErrNegativeCount name).
Proof.
  revert total. induction l as [|e l IH]; intros total Hl; [inversion Hl|].
  cbn [sumLoop]. destruct (Z.ltb_spec (Count e) 0) as [Hneg|Hpos]; [eauto|].
  apply Exists_cons in Hl as [He|Hl]; [lia|]. apply IH, Hl.
Qed.

Lemma nonneg_or_negative (l : list NameCount) :
  Forall (fun e => 0 <= Count e) l \/ Exists (fun e => Count e < 0) l.
Proof.
  induction l as [|e l [IH|IH]]; [left; constructor| |].
  - destruct (Z.lt_ge_cases (Count e) 0); [right; left; assumption|].
    left. constructor; assumption.
  - right. right. exact IH.
Qed.

Lemma initLoop_ok (N : nat) (n total : Z) (l : list NameCount) (i : Z)
  (t : vose) :
  voseInv N t -> 0 <= i -> i + len l = Z.of_nat N ->
  exists t', initLoop n total i l t = Ok t' /\ voseInv N t'.
Proof.
  revert i t. induction l as [|e l IH]; intros i t Ht Hi Hlen; [cbn; eauto|].
  destruct Ht as (Hp & Ha & Hs & Hal & Hsm & Hlg).
  assert (Hin : inRange N i).
  { unfold inRange, len in *. cbn [length] in Hlen. lia. }
  cbn [initLoop].
  repeat first [ rewrite bind_Ok
               | rewrite store_Ok by congruence
               | rewrite index_store by congruence ].
  assert (Hlen' : i + 1 + len l = Z.of_nat N).
  { unfold len in *. cbn [length] in Hlen. lia. }
  destruct (_ <? 1)%float; (apply IH; [|lia|exact Hlen']);
    (split; [|split; [|split; [|split; [|split]]]]); cbn;
    rewrite ?length_insert; auto using Forall_inRange_insert.
Qed.

Lemma pairLoop_ok (N : nat) (fuel : nat) (t : vose) :
  voseInv N t ->
  (length (vsmall t) + length (vlarge t) <= fuel)%nat ->
  exists t', pairLoop fuel t = Ok t' /\ voseInv N t'.
Proof.
  revert t. induction fuel as [|fuel IH]; intros t Ht Hfuel.
  - destruct t as [p a s sm lg]. cbn in *.
    destruct sm as [|x sm]; [eauto|]. destruct lg as [|y lg]; [eauto|].
    cbn in Hfuel. lia.
  - destruct t as [p a s sm lg]. cbn [pairLoop vsmall vlarge].
    destruct sm as [|x sm]; [eauto|]. destruct lg as [|y lg]; [eauto|].
    destruct Ht as (Hp & Ha & Hs & Hal & Hsm & Hlg). cbn in *.
    apply Forall_cons in Hsm as [Hx Hsm]. apply Forall_cons in Hlg as [Hy Hlg].
    destruct (index_inRange s x) as [sx Hsx]; [rewrite Hs; exact Hx|].
    destruct (index_inRange s y) as [sy Hsy]; [rewrite Hs; exact Hy|].
    rewrite Hsx, Hsy.
    repeat first [ rewrite bind_Ok
                 | rewrite store_Ok by congruence
                 | rewrite index_store by congruence ].
    destruct (_ <? 1)%float; (apply IH; [|cbn; lia]);
      (split; [|split; [|split; [|split; [|split]]]]); cbn;
      rewrite ?length_insert; auto using Forall_inRange_insert.
Qed.

Lemma drain_ok (N : nat) (idxs : list Z) (p : list float) :
  Forall (inRange N) idxs -> length p = N ->
  exists p', drain idxs p = Ok p' /\ length p' = N.
Proof.
  revert p. induction idxs as [|i idxs IH]; intros p Hi Hp; [cbn; eauto|].
  apply Forall_cons in Hi as [Hi Hrest]. cbn [drain].
  rewrite store_Ok by congruence. rewrite bind_Ok.
  apply IH; [exact Hrest|]. rewrite length_insert. exact Hp.
Qed.

(** What a sampler built by [NewNameSampler] looks like. *)
Lemma NewNameSampler_ok (aggregated : list NameCount) :
  aggregated <> [] ->
  Forall (fun e => 0 <= Count e) aggregated ->
  sumCounts aggregated <> 0 ->
  exists s : NameSampler,
    NewNameSampler aggregated = Ok s
    /\ entries s = aggregated
    /\ total s = sumCounts aggregated
    /\ length (prob s) = length aggregated
    /\ length (alias s) = length aggregated
    /\ Forall (inRange (length aggregated)) (alias s).
Proof.
  intros Hne Hpos Hsum. unfold NewNameSampler.
  destruct (len aggregated =? 0) eqn:Hlen.
  { apply len_nil_iff in Hlen. contradiction. }
  rewrite (sumLoop_nonneg _ _ Hpos), bind_Ok.
  change (fold_left add64 (Count <$> aggregated) 0) with (sumCounts aggregated).
  destruct (Z.eqb_spec (sumCounts aggregated) 0) as [|_]; [contradiction|].
  set (N := length aggregated).
  assert (HN : (0 < N)%nat).
  { subst N. destruct aggregated; [contradiction|cbn; lia]. }
  destruct (initLoop_ok N (len aggregated) (sumCounts aggregated) aggregated 0
              (mkVose (replicate N 0%float) (replicate N 0)
                 (replicate N 0%float) [] []))
    as (t1 & Ht1 & Hinv1).
  { repeat split; cbn; rewrite ?length_replicate; auto.
    apply Forall_replicate. unfold inRange. lia. }
  { lia. }
  { unfold len. fold N. lia. }
  rewrite Ht1, bind_Ok.
  destruct (pairLoop_ok N _ t1 Hinv1 (Nat.le_refl _)) as (t2 & Ht2 & Hinv2).
  rewrite Ht2, bind_Ok.
  destruct Hinv2 as (Hp & Ha & Hs & Hal & Hsm & Hlg).
  destruct (drain_ok N (rev (vlarge t2)) (vprob t2)) as (p1 & Hp1 & Hl1);
    [apply Forall_rev, Hlg|exact Hp|].
  rewrite Hp1, bind_Ok.
  destruct (drain_ok N (rev (vsmall t2)) p1) as (p2 & Hp2 & Hl2);
    [apply Forall_rev, Hsm|exact Hl1|].
  rewrite Hp2, bind_Ok.
  eexists. split; [reflexivity|]. cbn. auto.
Qed.

Lemma NewNameSampler_Err (aggregated : list NameCount) :
  aggregated = []
  \/ (exists x : NameCount, x ∈ aggregated /\ Count x < 0)
  \/ sumCounts aggregated = 0 ->
  exists e : error, NewNameSampler aggregated = Err e.
Proof.
  intros Hcase. unfold NewNameSampler.
  destruct (len aggregated =? 0) eqn:Hlen; [eauto|].
  destruct (nonneg_or_negative aggregated) as [Hpos|Hneg].
  - rewrite (sumLoop_nonneg _ _ Hpos), bind_Ok.
    change (fold_left add64 (Count <$> aggregated) 0)
      with (sumCounts aggregated).
    destruct Hcase as [->|[(x & Hx & Hlt)|Hz]].
    + discriminate.
    + rewrite Forall_forall in Hpos. specialize (Hpos x Hx). lia.
    + rewrite Hz. cbn. eauto.
  - destruct (sumLoop_negative _ 0 Hneg) as [name ->]. cbn. eauto.
Qed.

Lemma sampler_input_cases (aggregated : list NameCount) :
  (aggregated = []
   \/ (exists x : NameCount, x ∈ aggregated /\ Count x < 0)
   \/ sumCounts aggregated = 0)
  \/ (aggregated <> []
      /\ Forall (fun e => 0 <= Count e) aggregated
      /\ sumCounts aggregated <> 0).
Proof.
  destruct aggregated as [|a l] eqn:Ha; [auto|]. rewrite <- Ha.
  destruct (nonneg_or_negative aggregated) as [Hpos|Hneg].
  - destruct (Z.eq_dec (sumCounts aggregated) 0) as [Hz|Hnz]; [auto|].
    right. split; [rewrite Ha; discriminate|]. split; [exact Hpos|exact Hnz].
  - left. right. left. apply Exists_exists in Hneg. exact Hneg.
Qed.

(** C6. [NewNameSampler] returns an error exactly when the list is empty,
    or an entry has a negative count, or the total of the counts is zero;
    for a non-empty list of non-negative counts with a positive total it
    returns a sampler; and it never panics. *)
Theorem NewNameSampler_errors (aggregated : list NameCount) :
  ((exists e : error, NewNameSampler aggregated = Err e)
   <-> aggregated = []
       \/ (exists x : NameCount, x ∈ aggregated /\ Count x < 0)
       \/ sumCounts aggregated = 0)
  /\ (aggregated <> [] ->
      (forall x : NameCount, x ∈ aggregated -> 0 <= Count x) ->
      0 < sumCounts aggregated ->
      exists s : NameSampler, NewNameSampler aggregated = Ok s)
  /\ ((exists s : NameSampler, NewNameSampler aggregated = Ok s)
      \/ (exists e : error, NewNameSampler aggregated = Err e)).
Proof.
  assert (Hok : aggregated <> [] ->
                Forall (fun e => 0 <= Count e) aggregated ->
                sumCounts aggregated <> 0 ->
                exists s : NameSampler, NewNameSampler aggregated = Ok s).
  { intros Hne Hpos Hsum.
    destruct (NewNameSampler_ok aggregated Hne Hpos Hsum) as (s & Hs & _).
    eauto. }
  split; [|split].
  - split; [|apply NewNameSampler_Err]. intros [e He].
    destruct (sampler_input_cases aggregated) as [Hcase|(Hne & Hpos & Hsum)];
      [exact Hcase|].
    destruct (Hok Hne Hpos Hsum) as [s Hs]. congruence.
  - intros Hne Hpos Hsum. apply Hok; [assumption| |lia].
    apply Forall_forall, Hpos.
  - destruct (sampler_input_cases aggregated) as [Hcase|(Hne & Hpos & Hsum)];
      [right; apply NewNameSampler_Err, Hcase|left; auto].
Qed.

Lemma NewNameSampler_inv (aggregated : list NameCount) (s : NameSampler) :
  NewNameSampler aggregated = Ok s ->
  aggregated <> []
  /\ entries s = aggregated
  /\ length (prob s) = length aggregated
  /\ length (alias s) = length aggregated
  /\ Forall (inRange (length aggregated)) (alias s).
Proof.
  intros Hs.
  destruct (sampler_input_cases aggregated) as [Hcase|(Hne & Hpos & Hsum)].
  { destruct (NewNameSampler_Err aggregated Hcase) as [e He]. congruence. }
  destruct (NewNameSampler_ok aggregated Hne Hpos Hsum)
    as (s' & Hs' & He & _ & Hp & Ha & Hal).
  assert (s' = s) as -> by congruence. auto.
Qed.

Section Sampler.
Context {rng : Type} `{!RandSource rng}.

(** [Intn] returns a number of [[0, n)]. *)
Hypothesis Intn_range :
  forall (r : rng) (n : Z), 0 < n -> 0 <= (Intn r n).1 < n.

(** C7. On a sampler built by [NewNameSampler], every index of
    [[0, n)] is in range of the three tables and its alias is again such
    an index; and one call to [Pick] draws one integer [i] with
    [Intn(n)], then one float [f] with [Float64], leaves the source in the
    state after these two draws, and returns [entries[i]] when
    [f < prob[i]], otherwise [entries[alias[i]]]. *)
Theorem Pick_two_draws (aggregated : list NameCount) (s : NameSampler)
  (r : rng) :
  NewNameSampler aggregated = Ok s ->
  (forall i : Z,
      0 <= i < len (entries s) ->
      exists (e : NameCount) (p : float) (a : Z) (ea : NameCount),
        index (entries s) i = Ok e /\ index (prob s) i = Ok p
        /\ index (alias s) i = Ok a /\ 0 <= a < len (entries s)
        /\ index (entries s) a = Ok ea)
  /\ 0 <= (Intn r (len (entries s))).1 < len (entries s)
  /\ exists (e : NameCount) (p : float) (a : Z) (ea : NameCount),
       index (entries s) (Intn r (len (entries s))).1 = Ok e
       /\ index (prob s) (Intn r (len (entries s))).1 = Ok p
       /\ index (alias s) (Intn r (len (entries s))).1 = Ok a
       /\ index (entries s) a = Ok ea
       /\ Pick (Some s) r
          = Ok (if ((Float64 (Intn r (len (entries s))).2).1 <? p)%float
                then e else ea,
                (Float64 (Intn r (len (entries s))).2).2).
Proof.
  intros Hs.
  destruct (NewNameSampler_inv _ _ Hs) as (Hne & He & Hp & Ha & Hal).
  assert (Hn : 0 < len (entries s)).
  { rewrite He. unfold len. destruct aggregated; [contradiction|cbn; lia]. }
  assert (Htab : forall i : Z,
             0 <= i < len (entries s) ->
             exists (e : NameCount) (p : float) (a : Z) (ea : NameCount),
               index (entries s) i = Ok e /\ index (prob s) i = Ok p
               /\ index (alias s) i = Ok a /\ 0 <= a < len (entries s)
               /\ index (entries s) a = Ok ea).
  { intros i Hi. rewrite He in *. unfold len in Hi.
    destruct (index_inRange aggregated i Hi) as [e Hie].
    destruct (index_inRange (prob s) i) as [p Hip]; [rewrite Hp; exact Hi|].
    destruct (index_in_range (alias s) i) as (a & Hia & Hla);
      [unfold len; rewrite Ha; exact Hi|].
    rewrite Forall_lookup in Hal. pose proof (Hal _ _ Hla) as Har.
    destruct (index_inRange aggregated a Har) as [ea Hea].
    exists e, p, a, ea. auto. }
  split; [exact Htab|].
  pose proof (Intn_range r _ Hn) as Hidx. split; [exact Hidx|].
  destruct (Htab _ Hidx) as (e & p & a & ea & Hie & Hip & Hia & _ & Hea).
  exists e, p, a, ea. repeat (split; [assumption|]).
  unfold Pick, intn.
  destruct (Z.eqb_spec (len (entries s)) 0) as [|_]; [lia|].
  destruct (Z.leb_spec (len (entries s)) 0) as [|_]; [lia|].
  rewrite bind_Ok.
  destruct (Intn r (len (entries s))) as [idx r1]. cbn [fst snd] in *.
  destruct (Z.eqb_spec (len (prob s)) 0) as [Hz|_].
  { unfold len in Hz, Hn. rewrite Hp, <- He in Hz. lia. }
  destruct (Z.eqb_spec (len (alias s)) 0) as [Hz|_].
  { unfold len in Hz, Hn. rewrite Ha, <- He in Hz. lia. }
  cbn [orb]. destruct (Float64 r1) as [f r2]. cbn [fst snd].
  rewrite Hip, bind_Ok. destruct (f <? p)%float.
  - rewrite Hie. reflexivity.
  - rewrite Hia, bind_Ok, Hea. reflexivity.
Qed.
End Sampler.

End WithStrings.

Lemma Pick_two_draws_witness :
  Pick
    (Some (mkNameSampler [mkNameCount "Olivia" 140; mkNameCount "Emma" 90]
             [1%float; (Z2float 90 * Z2float 2 / Z2float 230)%float] [0; 0] 230))
    (mkTape [1] [0.875%float])
  = Ok (mkNameCount "Olivia" 140, mkTape [] []).
Proof.
  destruct (Pick_two_draws tape_Intn_range
              [mkNameCount "Olivia" 140; mkNameCount "Emma" 90]
              (mkNameSampler [mkNameCount "Olivia" 140; mkNameCount "Emma" 90]
                 [1%float; (Z2float 90 * Z2float 2 / Z2float 230)%float]
                 [0; 0] 230)
              (mkTape [1] [0.875%float]))
    as (_ & _ & e & p & a & ea & He & Hp & Ha & Hea & Hpick).
  - vm_compute. reflexivity.
  - rewrite Hpick.
    vm_compute in He, Hp, Ha. injection He as <-. injection Hp as <-.
    injection Ha as <-. vm_compute in Hea. injection Hea as <-.
    vm_compute. reflexivity.
Defined.

Section WithStrings.
Context {strings : Strings}.

(** ** Trend: the yearly buckets *)

Lemma groupBy_none (keep : Record_ -> bool) (records : list Record_)
  (m : gmap string NameCount) :
  existsb keep records = false -> groupBy keep records m = m.
Proof.
  unfold groupBy. revert m.
  induction records as [|r records IH]; intros m; [reflexivity|].
  cbn [existsb fold_left]. intros [Hr Hrest]%orb_false_iff.
  rewrite Hr. apply IH, Hrest.
Qed.

Lemma groupBy_cons (keep : Record_ -> bool) (r : Record_)
  (records : list Record_) (m : gmap string NameCount) :
  groupBy keep (r :: records) m
  = groupBy keep records (if keep r then addRecord m r else m).
Proof. reflexivity. Qed.

Lemma groupBy_filter (keep p : Record_ -> bool) (records : list Record_)
  (m : gmap string NameCount) :
  groupBy keep (List.filter p records) m
  = groupBy (fun r => p r && keep r) records m.
Proof.
  revert m. induction records as [|r records IH]; intros m; [reflexivity|].
  cbn [List.filter]. rewrite (groupBy_cons (fun r => p r && keep r)).
  destruct (p r); cbn [andb]; [|apply IH].
  rewrite groupBy_cons. apply IH.
Qed.

Lemma filter_filter {A : Type} (f g : A -> bool) (l : list A) :
  List.filter f (List.filter g l) = List.filter (fun x => g x && f x) l.
Proof.
  induction l as [|x l IH]; [reflexivity|]. cbn [List.filter].
  destruct (g x); cbn [andb List.filter]; [|exact IH].
  destruct (f x); [f_equal|]; exact IH.
Qed.

Lemma trendStep_fst (gender : string)
  (st : gmap Z (gmap string NameCount) * gmap Z Z) (r : Record_) :
  (trendStep gender st r).1
  = if skipGender gender r then st.1
    else <[Year r := addRecord (default ∅ (st.1 !! Year r)) r]> st.1.
Proof.
  unfold trendStep. destruct st as [yearly totals].
  destruct (skipGender gender r); reflexivity.
Qed.

Lemma yearly_fold_lookup (gender : string) (records : list Record_)
  (st : gmap Z (gmap string NameCount) * gmap Z Z) (y : Z) :
  (fold_left (trendStep gender) records st).1 !! y
  = if existsb (keepYear gender y) records
    then Some (groupBy (keepYear gender y) records (default ∅ (st.1 !! y)))
    else st.1 !! y.
Proof.
  revert st. induction records as [|r records IH]; intros st; [reflexivity|].
  cbn [fold_left existsb]. rewrite IH, groupBy_cons, trendStep_fst.
  destruct (keepYear gender y r) eqn:Hk; cbn [orb]; unfold keepYear in Hk.
  - apply andb_true_iff in Hk as [Hg%negb_true_iff Hy%Z.eqb_eq].
    rewrite Hg. subst y. rewrite lookup_insert_eq. cbn [default from_option id].
    destruct (existsb (keepYear gender (Year r)) records) eqn:Hex;
      [reflexivity|].
    rewrite groupBy_none by exact Hex. reflexivity.
  - destruct (skipGender gender r); [reflexivity|]. cbn [negb andb] in Hk.
    apply Z.eqb_neq in Hk. rewrite lookup_insert_ne by exact Hk. reflexivity.
Qed.

Lemma yearlyOf_lookup (records : list Record_) (gender : string) (y : Z) :
  (yearlyOf records gender).1 !! y
  = if existsb (keepYear gender y) records
    then Some (groupBy (keepYear gender y) records ∅)
    else None.
Proof.
  unfold yearlyOf. rewrite yearly_fold_lookup. cbn [fst].
  rewrite lookup_empty. reflexivity.
Qed.

Lemma elem_of_sortedYears (yearly : gmap Z (gmap string NameCount)) (y : Z) :
  y ∈ sortedYears yearly <-> is_Some (yearly !! y).
Proof.
  unfold sortedYears. rewrite merge_sort_Permutation, list_elem_of_fmap. split.
  - intros ([k m] & -> & Hin). apply elem_of_map_to_list in Hin. cbn. eauto.
  - intros [m Hm]. exists (y, m). split; [reflexivity|].
    apply elem_of_map_to_list, Hm.
Qed.

Lemma yearRanks_fold_lookup (yearly : gmap Z (gmap string NameCount))
  (years : list Z) (init : gmap Z (gmap string Z)) (y : Z) :
  y ∈ years ->
  fold_left
    (fun yearRanks year =>
       <[year := rankLoop 0 (sortSlice (entriesOf (default ∅ (yearly !! year)))) ∅]>
         yearRanks)
    years init !! y
  = Some (rankLoop 0 (sortSlice (entriesOf (default ∅ (yearly !! y)))) ∅).
Proof.
  revert init. induction years as [|x years IH]; intros init Hy;
    [inversion Hy|].
  cbn [fold_left].
  destruct (decide (y ∈ years)) as [Hin|Hnin]; [apply IH, Hin|].
  apply elem_of_cons in Hy as [->|Hy]; [|contradiction].
  clear IH. revert init. induction years as [|z years IH]; intros init.
  - cbn. apply lookup_insert_eq.
  - apply not_elem_of_cons in Hnin as [Hne Hnin]. cbn [fold_left].
    rewrite insert_insert_ne by congruence. apply IH, Hnin.
Qed.

Lemma yearRanksOf_lookup (yearly : gmap Z (gmap string NameCount)) (y : Z) :
  y ∈ sortedYears yearly ->
  yearRanksOf yearly (sortedYears yearly) !! y
  = Some (rankLoop 0 (sortSlice (entriesOf (default ∅ (yearly !! y)))) ∅).
Proof. apply yearRanks_fold_lookup. Qed.

(** ** Trend: the requested names *)

Lemma fold_left_inv {A B : Type} (P : A -> Prop) (f : A -> B -> A)
  (l : list B) (a : A) :
  P a -> (forall a b, P a -> P (f a b)) -> P (fold_left f l a).
Proof.
  intros Ha Hstep. revert a Ha.
  induction l as [|b l IH]; intros a Ha; [exact Ha|].
  cbn. apply IH, Hstep, Ha.
Qed.

Lemma requestedOf_spec (names : list string) (req : request) :
  req ∈ requestedOf names ->
  Key req = ToUpper (Input req) /\ TrimSpace (Input req) <> "".
Proof.
  unfold requestedOf.
  apply (fold_left_inv
           (fun st : gmap string bool * list request =>
              req ∈ st.2 ->
              Key req = ToUpper (Input req) /\ TrimSpace (Input req) <> "")).
  - cbn. intros H. inversion H.
  - intros [seen requested] raw IH. unfold requestStep.
    destruct (String.eqb_spec (TrimSpace raw) "") as [|Hne]; [exact IH|].
    destruct (default false (seen !! ToUpper (TrimSpace raw))); [exact IH|].
    cbn [snd] in *. intros [Hin|Hin]%elem_of_app; [apply IH, Hin|].
    apply list_elem_of_singleton in Hin as ->. cbn.
    split; [reflexivity|]. apply TrimSpace_idem_nonempty, Hne.
Qed.

(** ** Trend and the per-year aggregate *)

Lemma groupTotals_keepYear (records : list Record_) (y : Z) (gender : string) :
  y <> 0 ->
  groupTotals records y gender = groupBy (keepYear gender y) records ∅.
Proof.
  intros Hy. rewrite groupTotals_groupBy. apply groupBy_ext. intros r.
  unfold skipYear, keepYear.
  destruct (Z.eqb_spec y 0) as [|_]; [contradiction|]. cbn [negb andb].
  rewrite negb_involutive. apply andb_comm.
Qed.

Lemma Rank_unfold (records : list Record_) (year : Z) (gender name : string) :
  Rank records year gender name
  = RankFromAggregate (AggregateNames records year gender).1
      (AggregateNames records year gender).2 name.
Proof. reflexivity. Qed.

(** What [Rank] returns, read off the map of totals. *)
Lemma Rank_spec (records : list Record_) (year : Z) (gender name : string) :
  TrimSpace name <> "" ->
  match groupTotals records year (ToUpper (TrimSpace gender)) !! ToUpper name with
  | Some e =>
      exists i : nat,
        (AggregateNames records year gender).2 !! ToUpper name
        = Some (Z.of_nat i + 1)
        /\ Rank records year gender name = Ok (Z.of_nat i + 1, e)
  | None =>
      (AggregateNames records year gender).2 !! ToUpper name = None
      /\ exists err : error, Rank records year gender name = Err err
  end.
Proof.
  intros Hnb.
  destruct (groupTotals _ _ _ !! ToUpper name) as [e|] eqn:Hm.
  - pose proof (keyed_groupTotals _ _ _ _ _ Hm) as Hk.
    assert (Hin : e ∈ (AggregateNames records year gender).1).
    { apply elem_of_aggregated. unfold keyOf. rewrite Hk. exact Hm. }
    apply list_elem_of_lookup in Hin as [i Hi]. exists i.
    rewrite <- Hk. split; [apply ranks_lookup, Hi|]. rewrite Rank_unfold.
    apply RankFromAggregate_found; [exact Hi|exact Hnb|symmetry; exact Hk].
  - assert (Hr : (AggregateNames records year gender).2 !! ToUpper name = None).
    { apply eq_None_not_Some. intros Hs.
      apply ranks_is_Some in Hs as (r & Hr & Hp & Hk).
      unfold passes in Hp.
      apply andb_true_iff in Hp as [H1%negb_true_iff H2%negb_true_iff].
      destruct (proj2 (groupTotals_is_Some records year
                         (ToUpper (TrimSpace gender)) (ToUpper name)))
        as [e He]; [eauto|]. congruence. }
    split; [exact Hr|]. rewrite Rank_unfold. unfold RankFromAggregate.
    destruct (String.eqb (TrimSpace name) ""); [eauto|].
    destruct (len _ =? 0); [eauto|]. rewrite Hr. eauto.
Qed.

Lemma totals_count (records : list Record_) (year : Z) (gender name : string) :
  default 0 (Count <$> groupTotals records year (ToUpper (TrimSpace gender))
                         !! ToUpper name)
  = aggregatedCount records year gender name.
Proof.
  rewrite groupTotals_groupBy, groupBy_count, lookup_empty. reflexivity.
Qed.

Lemma pointOf_spec (yearly : gmap Z (gmap string NameCount))
  (yearRanks : gmap Z (gmap string Z)) (req : request) (y : Z)
  (m : gmap string NameCount) (ranks : gmap string Z) :
  yearly !! y = Some m -> yearRanks !! y = Some ranks ->
  pointOf yearly yearRanks req y
  = match m !! Key req with
    | Some agg =>
        mkTrendPoint y (default 0 (ranks !! Key req)) (Count agg) true
    | None => mkTrendPoint y 0 0 false
    end.
Proof. intros Hm Hr. unfold pointOf. rewrite Hm, Hr. reflexivity. Qed.

(** The records of one year, under the filters with the year filter off. *)
Lemma groupTotals_ofYear (records : list Record_) (y : Z) (gender : string) :
  groupTotals (ofYear y records) 0 gender
  = groupBy (keepYear gender y) records ∅.
Proof.
  rewrite groupTotals_groupBy. unfold ofYear. rewrite groupBy_filter.
  apply groupBy_ext. intros r. unfold skipYear, keepYear.
  change (0 =? 0) with true. cbn [negb andb]. apply andb_comm.
Qed.

Lemma AggregateNames_ofYear (records : list Record_) (y : Z) (gender : string) :
  y <> 0 ->
  AggregateNames (ofYear y records) 0 gender = AggregateNames records y gender.
Proof.
  intros Hy. unfold AggregateNames.
  rewrite groupTotals_ofYear, <- groupTotals_keepYear by exact Hy.
  reflexivity.
Qed.

Lemma Rank_ofYear (records : list Record_) (y : Z) (gender name : string) :
  y <> 0 ->
  Rank (ofYear y records) 0 gender name = Rank records y gender name.
Proof.
  intros Hy. rewrite !Rank_unfold, AggregateNames_ofYear by exact Hy.
  reflexivity.
Qed.

Lemma aggregatedCount_ofYear (records : list Record_) (y : Z)
  (gender name : string) :
  y <> 0 ->
  aggregatedCount (ofYear y records) 0 gender name
  = aggregatedCount records y gender name.
Proof.
  intros Hy. unfold aggregatedCount, ofYear. rewrite filter_filter. f_equal.
  apply List.filter_ext. intros r. unfold passes, skipYear.
  destruct (Z.eqb_spec y 0) as [|_]; [contradiction|].
  change (0 =? 0) with true. cbn [negb andb].
  destruct (Year r =? y), (skipGender (ToUpper (TrimSpace gender)) r),
    (carries name r); reflexivity.
Qed.

Lemma passes_ofYear (records : list Record_) (y : Z) (gender : string)
  (r : Record_) :
  r ∈ ofYear y records /\ passes 0 gender r = true
  <-> r ∈ records /\ Year r = y /\ passesGender gender r = true.
Proof.
  unfold ofYear, passes, passesGender, skipYear.
  change (0 =? 0) with true. cbn [negb andb].
  rewrite list_elem_of_In, filter_In, <- list_elem_of_In, Z.eqb_eq. tauto.
Qed.

Lemma passes_year (y : Z) (gender : string) (r : Record_) :
  y <> 0 ->
  passes y gender r = true <-> Year r = y /\ passesGender gender r = true.
Proof.
  intros Hy. unfold passes, passesGender, skipYear.
  destruct (Z.eqb_spec y 0) as [|_]; [contradiction|]. cbn [negb andb].
  rewrite negb_involutive, andb_true_iff, Z.eqb_eq. tauto.
Qed.

(** The point [Trend] emits for a requested name and a year of its axis. *)
Lemma Trend_point_at (records : list Record_) (gender : string)
  (req : request) (y : Z) :
  let g := ToUpper (TrimSpace gender) in
  let yearly := (yearlyOf records g).1 in
  y ∈ sortedYears yearly ->
  Key req = ToUpper (Input req) -> TrimSpace (Input req) <> "" ->
  let p := pointOf yearly (yearRanksOf yearly (sortedYears yearly)) req y in
  PYear p = y
  /\ (Present p = true
      <-> exists r, r ∈ records /\ Year r = y
                    /\ passesGender gender r = true
                    /\ carries (Input req) r = true)
  /\ PCount p = aggregatedCount (ofYear y records) 0 gender (Input req)
  /\ p = match Rank (ofYear y records) 0 gender (Input req) with
         | Ok (rank, e) => mkTrendPoint y rank (Count e) true
         | _ => mkTrendPoint y 0 0 false
         end.
Proof.
  intros g yearly Hin Hkey Hnb p.
  assert (Hm : yearly !! y = Some (groupTotals (ofYear y records) 0 g)).
  { apply elem_of_sortedYears in Hin as [m Hm]. subst yearly.
    rewrite yearlyOf_lookup in Hm |- *.
    destruct (existsb (keepYear g y) records); [|discriminate].
    rewrite groupTotals_ofYear. reflexivity. }
  assert (Hr : yearRanksOf yearly (sortedYears yearly) !! y
               = Some (AggregateNames (ofYear y records) 0 gender).2).
  { rewrite yearRanksOf_lookup by exact Hin. rewrite Hm. reflexivity. }
  subst p. rewrite (pointOf_spec _ _ _ _ _ _ Hm Hr), Hkey.
  pose proof (Rank_spec (ofYear y records) 0 gender (Input req) Hnb) as Hrank.
  pose proof (totals_count (ofYear y records) 0 gender (Input req)) as Hcount.
  pose proof (ranks_is_Some (ofYear y records) 0 gender (ToUpper (Input req)))
    as Hsome.
  fold g in Hrank, Hcount.
  assert (Hcarries : (exists r, r ∈ ofYear y records
                                /\ passes 0 gender r = true
                                /\ ToUpper (RName r) = ToUpper (Input req))
                     <-> (exists r, r ∈ records /\ Year r = y
                                    /\ passesGender gender r = true
                                    /\ carries (Input req) r = true)).
  { unfold carries. split.
    - intros (r & H1 & H2 & H3).
      destruct (proj1 (passes_ofYear records y gender r) (conj H1 H2))
        as (Hr1 & Hr2 & Hr3).
      exists r. rewrite H3, String.eqb_refl. auto.
    - intros (r & H1 & H2 & H3 & H4%String.eqb_eq).
      destruct (proj2 (passes_ofYear records y gender r)
                  (conj H1 (conj H2 H3))) as [Hr1 Hr2].
      exists r. auto. }
  rewrite <- Hcarries, <- Hsome.
  destruct (groupTotals (ofYear y records) 0 g !! ToUpper (Input req)) as [e|].
  - destruct Hrank as (i & Hri & ->). rewrite Hri. cbn in *.
    split; [reflexivity|]. split; [|split; [exact Hcount|reflexivity]].
    split; [eauto|reflexivity].
  - destruct Hrank as (Hrn & err & ->). rewrite Hrn. cbn in *.
    split; [reflexivity|]. split; [|split; [exact Hcount|reflexivity]].
    split; [discriminate|]. intros [x Hx]. discriminate.
Qed.

(** C9, amended. Each point [Trend] emits for a requested name and a year
    of its year axis, the year 0 of records without a year included, is about
    the records of that year alone: it is present exactly when a record of
    that year that passes the gender filter carries the name; its count is
    the aggregated count of the name among the records of that year; and it
    is the point [(year, rank, count, true)] when [Rank], asked without a
    year filter about the records of that year, finds the name with that
    rank and count, the point [(year, 0, 0, false)] otherwise.  For a year
    other than 0 this is what [Rank] and the aggregated count give for the
    whole dataset under the year filter of that year. *)
Theorem Trend_points
  (order : gmap Z (gmap string NameCount) -> list (Z * gmap string NameCount))
  (records : list Record_) (gender : string) (names : list string)
  (years : list Z) (series : list TrendSeries) (totals : gmap Z Z)
  (k j : nat) (s : TrendSeries) (p : TrendPoint) :
  Trend_run order records gender names = Ok (years, series, totals) ->
  series !! k = Some s -> Points s !! j = Some p ->
  exists req : request,
    requestedOf names !! k = Some req
    /\ years !! j = Some (PYear p)
    /\ (Present p = true
        <-> exists r, r ∈ records /\ Year r = PYear p
                      /\ passesGender gender r = true
                      /\ carries (Input req) r = true)
    /\ PCount p
       = aggregatedCount (ofYear (PYear p) records) 0 gender (Input req)
    /\ p = match Rank (ofYear (PYear p) records) 0 gender (Input req) with
           | Ok (rank, e) => mkTrendPoint (PYear p) rank (Count e) true
           | _ => mkTrendPoint (PYear p) 0 0 false
           end
    /\ (PYear p <> 0 ->
        (Present p = true
         <-> exists r, r ∈ records /\ passes (PYear p) gender r = true
                       /\ carries (Input req) r = true)
        /\ PCount p = aggregatedCount records (PYear p) gender (Input req)
        /\ p = match Rank records (PYear p) gender (Input req) with
               | Ok (rank, e) => mkTrendPoint (PYear p) rank (Count e) true
               | _ => mkTrendPoint (PYear p) 0 0 false
               end).
Proof.
  intros Hrun Hs Hp. unfold Trend_run in Hrun.
  destruct (len (requestedOf names) =? 0); [discriminate|].
  pose proof (Trend_point_at records gender) as Hat. cbn zeta in Hat.
  destruct (yearlyOf records (ToUpper (TrimSpace gender)))
    as [yearly totals0] eqn:Hyl.
  cbn [fst] in Hat.
  destruct (Z.of_nat (size yearly) =? 0); [discriminate|].
  injection Hrun as <- <- <-.
  rewrite list_lookup_fmap in Hs.
  destruct (requestedOf names !! k) as [req|] eqn:Hreq; [|discriminate].
  injection Hs as <-. cbn [Points seriesOf] in Hp.
  rewrite list_lookup_fmap in Hp.
  destruct (sortedYears yearly !! j) as [y|] eqn:Hj; [|discriminate].
  injection Hp as <-.
  assert (Hin : y ∈ sortedYears yearly) by (apply list_elem_of_lookup; eauto).
  destruct (requestedOf_spec names req) as [Hkey Hnb];
    [apply list_elem_of_lookup; eauto|].
  assert (Hyear : PYear (pointOf yearly (yearRanksOf yearly (sortedYears yearly))
                           req y) = y).
  { unfold pointOf. destruct (_ !! Key req); reflexivity. }
  rewrite Hyear in *.
  destruct (Hat req y Hin Hkey Hnb) as (_ & Hpres & Hcnt & Hpt).
  exists req. split; [reflexivity|]. split; [reflexivity|].
  split; [exact Hpres|]. split; [exact Hcnt|]. split; [exact Hpt|].
  intros Hy0.
  rewrite <- (aggregatedCount_ofYear records y gender (Input req) Hy0).
  rewrite <- (Rank_ofYear records y gender (Input req) Hy0).
  split; [|split; [exact Hcnt|exact Hpt]].
  rewrite Hpres. split; intros (r & H1 & H2); exists r;
    (split; [exact H1|]).
  - destruct H2 as (H2 & H3 & H4). split; [|exact H4].
    apply passes_year; auto.
  - destruct H2 as [H2 H3]. apply passes_year in H2 as [H2 H4]; auto.
Qed.

End WithStrings.

Lemma Trend_points_witness :
  exists req : request,
    requestedOf ["Olivia"; "Liam"] !! 0%nat = Some req
    /\ [2018; 2019] !! 1%nat = Some 2019
    /\ (true = true
        <-> exists r, r ∈ sampleCA /\ Year r = 2019
                      /\ passesGender "" r = true
                      /\ carries (Input req) r = true)
    /\ 140 = aggregatedCount (ofYear 2019 sampleCA) 0 "" (Input req)
    /\ mkTrendPoint 2019 1 140 true
       = match Rank (ofYear 2019 sampleCA) 0 "" (Input req) with
         | Ok (rank, e) => mkTrendPoint 2019 rank (Count e) true
         | _ => mkTrendPoint 2019 0 0 false
         end
    /\ (2019 <> 0 ->
        (true = true
         <-> exists r, r ∈ sampleCA /\ passes 2019 "" r = true
                       /\ carries (Input req) r = true)
        /\ 140 = aggregatedCount sampleCA 2019 "" (Input req)
        /\ mkTrendPoint 2019 1 140 true
           = match Rank sampleCA 2019 "" (Input req) with
             | Ok (rank, e) => mkTrendPoint 2019 rank (Count e) true
             | _ => mkTrendPoint 2019 0 0 false
             end).
Proof.
  refine (Trend_points map_to_list sampleCA "" ["Olivia"; "Liam"]
            [2018; 2019]
            [mkTrendSeries "Olivia"
               [mkTrendPoint 2018 2 80 true; mkTrendPoint 2019 1 140 true];
             mkTrendSeries "Liam"
               [mkTrendPoint 2018 1 85 true; mkTrendPoint 2019 2 95 true]]
            (yearlyOf sampleCA "").2
            0%nat 1%nat
            (mkTrendSeries "Olivia"
               [mkTrendPoint 2018 2 80 true; mkTrendPoint 2019 1 140 true])
            (mkTrendPoint 2019 1 140 true) _ _ _).
  - vm_compute. reflexivity.
  - reflexivity.
  - reflexivity.
Defined.

(** C9 as stated fails: a name whose only record of the year has count 0
    has an aggregated count of 0 that year, and its point is present, with
    rank 1. *)
Lemma Trend_zero_count_counterexample :
  wellFormed [mkRecord "CA" "F" 2019 "Zed" 0]
  /\ aggregatedCount [mkRecord "CA" "F" 2019 "Zed" 0] 2019 "" "Zed" = 0
  /\ exists totals : gmap Z Z,
       Trend [mkRecord "CA" "F" 2019 "Zed" 0] "" ["Zed"]
       = Ok ([2019],
             [mkTrendSeries "Zed" [mkTrendPoint 2019 1 0 true]],
             totals).
Proof.
  split; [repeat constructor; cbn; lia|]. split; [reflexivity|].
  eexists. vm_compute. reflexivity.
Qed.

(** Records of year 0 have their point on the axis, about them alone, while
    [Rank] with a year of 0 is about the records of all years. *)
Example Trend_year_zero_sample :
  (exists totals : gmap Z Z,
     Trend [mkRecord "CA" "F" 0 "Ann" 5; mkRecord "CA" "F" 2019 "Ann" 7] ""
       ["Ann"]
     = Ok ([0; 2019],
           [mkTrendSeries "Ann"
              [mkTrendPoint 0 1 5 true; mkTrendPoint 2019 1 7 true]],
           totals))
  /\ Rank [mkRecord "CA" "F" 0 "Ann" 5; mkRecord "CA" "F" 2019 "Ann" 7] 0 ""
       "Ann"
     = Ok (1, mkNameCount "Ann" 12).
Proof. split; [eexists|]; vm_compute; reflexivity. Qed.

Section WithStrings.
Context {strings : Strings}.

(** * Further properties of the package *)

(** ** One entry per name *)

Lemma groupBy_name (keep : Record_ -> bool) (records : list Record_)
  (m : gmap string NameCount) (k : string) :
  Name <$> groupBy keep records m !! k
  = match m !! k with
    | Some e => Some (Name e)
    | None =>
        RName <$>
        head (List.filter
                (fun r => keep r && String.eqb (ToUpper (RName r)) k) records)
    end.
Proof.
  revert m. induction records as [|r records IH]; intros m.
  - cbn. destruct (m !! k); reflexivity.
  - rewrite groupBy_cons, IH. cbn [List.filter].
    destruct (keep r); cbn [andb]; [|reflexivity].
    destruct (String.eqb_spec (ToUpper (RName r)) k) as [<-|Hne].
    + rewrite addRecord_lookup_eq.
      destruct (m !! ToUpper (RName r)); reflexivity.
    + rewrite addRecord_lookup_ne by exact Hne. reflexivity.
Qed.

Lemma aggregated_has_key (records : list Record_) (year : Z)
  (gender : string) (k : string) :
  (exists e, e ∈ (AggregateNames records year gender).1 /\ ToUpper (Name e) = k)
  <-> exists r, r ∈ records /\ passes year gender r = true
                /\ ToUpper (RName r) = k.
Proof.
  rewrite <- ranks_is_Some. cbn [AggregateNames snd].
  rewrite rankLoop_is_Some, list_elem_of_fmap. unfold keyOf.
  split; intros (e & H1 & H2); exists e; auto.
Qed.

Lemma aggregated_nil_iff (records : list Record_) (year : Z) (gender : string) :
  (AggregateNames records year gender).1 = []
  <-> forall r, r ∈ records -> passes year gender r = false.
Proof.
  split.
  - intros Hnil r Hr. destruct (passes year gender r) eqn:Hp; [|reflexivity].
    destruct (proj2 (aggregated_has_key records year gender
                       (ToUpper (RName r)))) as (e & He & _); [eauto|].
    rewrite Hnil in He. inversion He.
  - intros Hnone.
    destruct ((AggregateNames records year gender).1) as [|e l] eqn:Hl;
      [reflexivity|].
    destruct (proj1 (aggregated_has_key records year gender
                       (ToUpper (Name e)))) as (r & Hr & Hp & _).
    { exists e. rewrite Hl. split; [left|reflexivity]. }
    rewrite (Hnone r Hr) in Hp. discriminate.
Qed.

Lemma carries_iff (name : string) (r : Record_) :
  carries name r = true <-> ToUpper (RName r) = ToUpper name.
Proof. unfold carries. apply String.eqb_eq. Qed.

(** X1. The list [AggregateNames] returns has exactly one entry per name,
    letter case apart: no two entries have the same upper-cased name, a name
    has an entry exactly when a record that passes the filters carries it,
    and the list is empty exactly when no record passes the filters. *)
Theorem aggregate_one_entry_per_name (records : list Record_) (year : Z)
  (gender : string) :
  NoDup (keyOf <$> (AggregateNames records year gender).1)
  /\ (forall name : string,
         (exists e, e ∈ (AggregateNames records year gender).1
                    /\ ToUpper (Name e) = ToUpper name)
         <-> exists r, r ∈ records /\ passes year gender r = true
                       /\ carries name r = true)
  /\ ((AggregateNames records year gender).1 = []
      <-> forall r, r ∈ records -> passes year gender r = false).
Proof.
  split; [apply NoDup_keys_aggregated|]. split; [|apply aggregated_nil_iff].
  intros name. rewrite aggregated_has_key.
  split; intros (r & H1 & H2 & H3); exists r;
    (split; [exact H1|split; [exact H2|apply carries_iff, H3]]).
Qed.

(** X2. The display name of an entry is the spelling of the first record,
    in the order of the input, that passes the filters and carries the
    name. *)
Theorem aggregate_first_seen_casing (records : list Record_) (year : Z)
  (gender : string) (e : NameCount) :
  e ∈ (AggregateNames records year gender).1 ->
  exists (r : Record_) (rest : list Record_),
    List.filter (fun r => passes year gender r && carries (Name e) r) records
    = r :: rest
    /\ Name e = RName r.
Proof.
  intros He%elem_of_aggregated. rewrite groupTotals_groupBy in He.
  pose proof (groupBy_name
                (fun r => negb (skipYear year r)
                          && negb (skipGender (ToUpper (TrimSpace gender)) r))
                records ∅ (keyOf e)) as H.
  rewrite He, lookup_empty in H. cbn [fmap option_fmap option_map] in H.
  change (List.filter _ records)
    with (List.filter (fun r => passes year gender r && carries (Name e) r)
            records) in H.
  destruct (List.filter _ records) as [|r rest]; [discriminate|].
  injection H as H. eauto.
Qed.

End WithStrings.

Lemma aggregate_first_seen_casing_witness :
  exists (r : Record_) (rest : list Record_),
    List.filter (fun r => passes 0 "" r && carries "olivia" r)
      [mkRecord "CA" "F" 2019 "olivia" 3; mkRecord "NY" "F" 2019 "OLIVIA" 4]
    = r :: rest
    /\ "olivia" = RName r.
Proof.
  apply (aggregate_first_seen_casing
           [mkRecord "CA" "F" 2019 "olivia" 3; mkRecord "NY" "F" 2019 "OLIVIA" 4]
           0 "" (mkNameCount "olivia" 7)).
  vm_compute. left.
Defined.

Section WithStrings.
Context {strings : Strings}.

(** ** TopNames *)

Lemma filter_all {A : Type} (f : A -> bool) (l : list A) :
  (forall a, a ∈ l -> f a = true) -> List.filter f l = l.
Proof.
  induction l as [|a l IH]; intros H; cbn; [reflexivity|].
  rewrite (H a) by left. rewrite IH; [reflexivity|].
  intros b Hb. apply H. right. exact Hb.
Qed.

Lemma filter_none {A : Type} (f : A -> bool) (l : list A) :
  (forall a, a ∈ l -> f a = false) -> List.filter f l = [].
Proof.
  induction l as [|a l IH]; intros H; cbn; [reflexivity|].
  rewrite (H a) by left. apply IH. intros b Hb. apply H. right. exact Hb.
Qed.

Lemma aggregated_take_drop (records : list Record_) (year : Z)
  (gender : string) (n : nat) (a b : NameCount) :
  a ∈ take n (AggregateNames records year gender).1 ->
  b ∈ drop n (AggregateNames records year gender).1 ->
  less a b = true.
Proof.
  intros [i Hi]%list_elem_of_lookup [j Hj]%list_elem_of_lookup.
  apply lookup_take_Some in Hi as [Hi Hlt]. rewrite lookup_drop in Hj.
  eapply (aggregated_strict records year gender i (n + j)); [lia| |]; eassumption.
Qed.

(** X3. [TopNames] returns the first entries of the aggregate list: with a
    positive limit, as many as the limit allows, and every entry it returns
    is ordered strictly before every entry it leaves out; with a limit of 0
    or less, the whole list. *)
Theorem TopNames_prefix (records : list Record_) (year : Z) (gender : string)
  (limit : Z) :
  exists rest : list NameCount,
    (AggregateNames records year gender).1
    = (TopNames records year gender limit ++ rest)%list
    /\ len (TopNames records year gender limit)
       = (if limit >? 0
          then Z.min limit (len (AggregateNames records year gender).1)
          else len (AggregateNames records year gender).1)
    /\ (forall a b : NameCount,
           a ∈ TopNames records year gender limit -> b ∈ rest ->
           less a b = true).
Proof.
  unfold TopNames.
  set (aggregated := (AggregateNames records year gender).1).
  destruct (Z.gtb_spec limit 0) as [Hpos|Hneg]; cbn [andb].
  - destruct (Z.gtb_spec (len aggregated) limit) as [Hlt|Hge].
    + exists (drop (Z.to_nat limit) aggregated).
      split; [symmetry; apply take_drop|].
      split; [unfold len in *; rewrite length_take; lia|].
      intros a b. apply aggregated_take_drop.
    + exists []. split; [rewrite app_nil_r; reflexivity|].
      split; [lia|]. intros a b _ Hb. inversion Hb.
  - exists []. split; [rewrite app_nil_r; reflexivity|].
    split; [reflexivity|]. intros a b _ Hb. inversion Hb.
Qed.

(** ** Rank *)

Lemma index_Ok_inv {A : Type} (l : list A) (i : Z) (a : A) :
  index l i = Ok a -> 0 <= i < len l /\ l !! Z.to_nat i = Some a.
Proof.
  intros Hi. unfold index in Hi.
  destruct (Z.ltb_spec i 0) as [|Hge]; [discriminate|].
  destruct (l !! Z.to_nat i) as [x|] eqn:Hx; [|discriminate].
  injection Hi as ->. apply lookup_lt_Some in Hx as Hlt.
  unfold len. split; [lia|reflexivity].
Qed.

(** In a strictly sorted list the entries ordered before the entry at index
    [i] are the [i] entries in front of it. *)
Lemma strictly_before_count (records : list Record_) (year : Z)
  (gender : string) (i : nat) (e : NameCount) :
  (AggregateNames records year gender).1 !! i = Some e ->
  length (List.filter (fun x => less x e) (AggregateNames records year gender).1)
  = i.
Proof.
  intros Hi.
  pose proof (lookup_lt_Some _ _ _ Hi) as Hlt.
  rewrite <- (take_drop i (AggregateNames records year gender).1) at 1.
  rewrite List.filter_app, length_app.
  rewrite filter_all, filter_none.
  - rewrite length_take. cbn [length]. lia.
  - intros b [j Hj]%list_elem_of_lookup. rewrite lookup_drop in Hj.
    destruct j as [|j].
    + rewrite Nat.add_0_r, Hi in Hj. injection Hj as <-. apply less_irrefl.
    + apply less_asym.
      eapply (aggregated_strict records year gender i (i + S j));
        [lia|exact Hi|exact Hj].
  - intros a [j Hj]%list_elem_of_lookup.
    apply lookup_take_Some in Hj as [Hj Hji].
    eapply (aggregated_strict records year gender j i); eassumption.
Qed.

(** X4. When [Rank] finds a name, the entry it returns spells that name
    (letter case apart), its count is the aggregated count of the name under
    the filters, it is the entry at index [rank-1] of the aggregate list, and
    [rank-1] is the number of entries ordered strictly before it (by higher
    count, then by smaller name). *)
Theorem Rank_found (records : list Record_) (year : Z) (gender name : string)
  (rank : Z) (e : NameCount) :
  Rank records year gender name = Ok (rank, e) ->
  ToUpper (Name e) = ToUpper name
  /\ Count e = aggregatedCount records year gender name
  /\ 1 <= rank <= len (AggregateNames records year gender).1
  /\ (AggregateNames records year gender).1 !! Z.to_nat (rank - 1) = Some e
  /\ rank - 1
     = Z.of_nat
         (length (List.filter (fun x => less x e)
                    (AggregateNames records year gender).1)).
Proof.
  intros Hrank.
  assert (Hnb : TrimSpace name <> "").
  { intros Hb. rewrite Rank_unfold in Hrank. unfold RankFromAggregate in Hrank.
    rewrite Hb in Hrank. discriminate. }
  pose proof (Rank_spec records year gender name Hnb) as Hspec.
  pose proof (totals_count records year gender name) as Hcount.
  destruct (groupTotals _ _ _ !! ToUpper name) as [e0|] eqn:Hm.
  - destruct Hspec as (i & Hr & Hres). rewrite Hres in Hrank.
    injection Hrank as <- <-.
    pose proof (keyed_groupTotals _ _ _ _ _ Hm) as Hk.
    rewrite Rank_unfold in Hres. unfold RankFromAggregate in Hres.
    destruct (String.eqb (TrimSpace name) ""); [discriminate|].
    destruct (len _ =? 0); [discriminate|]. rewrite Hr in Hres.
    destruct (index _ (Z.of_nat i + 1 - 1)) as [x| | |] eqn:Hidx;
      try discriminate.
    cbn in Hres. injection Hres as ->.
    apply index_Ok_inv in Hidx as [Hrange Hi].
    split; [exact Hk|]. split; [exact Hcount|]. split; [lia|].
    split; [exact Hi|].
    replace (Z.to_nat (Z.of_nat i + 1 - 1)) with i in Hi by lia.
    rewrite (strictly_before_count _ _ _ _ _ Hi). lia.
  - destruct Hspec as (_ & err & Herr). congruence.
Qed.

End WithStrings.

Lemma Rank_found_witness :
  ToUpper "Liam" = ToUpper "liam"
  /\ 180 = aggregatedCount sampleCA 0 "" "liam"
  /\ 1 <= 2 <= len (AggregateNames sampleCA 0 "").1
  /\ (AggregateNames sampleCA 0 "").1 !! Z.to_nat (2 - 1)
     = Some (mkNameCount "Liam" 180)
  /\ 2 - 1
     = Z.of_nat
         (length (List.filter (fun x => less x (mkNameCount "Liam" 180))
                    (AggregateNames sampleCA 0 "").1)).
Proof.
  apply (Rank_found sampleCA 0 "" "liam" 2 (mkNameCount "Liam" 180)).
  vm_compute. reflexivity.
Defined.

Section WithStrings.
Context {strings : Strings}.

(** X5. [Rank] fails with "name is required" exactly when the name is
    blank, with "no matching records" exactly when the name is not blank and
    no record passes the filters, and succeeds exactly when the name is not
    blank and a record that passes the filters carries it; it never
    panics. *)
Theorem Rank_outcomes (records : list Record_) (year : Z)
  (gender name : string) :
  (Rank records year gender name = Err ErrNameRequired <-> TrimSpace name = "")
  /\ (Rank records year gender name = Err ErrNoMatchingRecords
      <-> TrimSpace name <> ""
          /\ forall r, r ∈ records -> passes year gender r = false)
  /\ ((exists rank e, Rank records year gender name = Ok (rank, e))
      <-> TrimSpace name <> ""
          /\ exists r, r ∈ records /\ passes year gender r = true
                       /\ carries name r = true)
  /\ Rank records year gender name <> Panic
  /\ Rank records year gender name <> OutOfFuel.
Proof.
  destruct (String.eqb_spec (TrimSpace name) "") as [Hb|Hnb].
  - assert (Hr : Rank records year gender name = Err ErrNameRequired).
    { rewrite Rank_unfold. unfold RankFromAggregate. rewrite Hb. reflexivity. }
    rewrite Hr.
    split; [split; [intros _; exact Hb|reflexivity]|].
    split; [split; [discriminate|intros [H _]; contradiction]|].
    split; [split; [intros (rank & e & H); discriminate
                   |intros [H _]; contradiction]|].
    split; discriminate.
  - pose proof (Rank_spec records year gender name Hnb) as Hspec.
    pose proof (aggregated_nil_iff records year gender) as Hnil.
    pose proof (aggregated_has_key records year gender (ToUpper name)) as Hkey.
    assert (Hcar : (exists r, r ∈ records /\ passes year gender r = true
                              /\ ToUpper (RName r) = ToUpper name)
                   <-> exists r, r ∈ records /\ passes year gender r = true
                                 /\ carries name r = true).
    { split; intros (r & H1 & H2 & H3); exists r;
        (split; [exact H1|split; [exact H2|apply carries_iff, H3]]). }
    destruct (groupTotals _ _ _ !! ToUpper name) as [e0|] eqn:Hm.
    + destruct Hspec as (i & Hr & Hres). rewrite Hres.
      assert (Hin : exists r, r ∈ records /\ passes year gender r = true
                              /\ carries name r = true).
      { apply Hcar, Hkey. exists e0.
        pose proof (keyed_groupTotals _ _ _ _ _ Hm) as Hk.
        split; [|exact Hk]. apply elem_of_aggregated. unfold keyOf.
        rewrite Hk. exact Hm. }
      split; [split; [discriminate|intros H; contradiction]|].
      split.
      { split; [discriminate|]. intros [_ Hnone].
        destruct Hin as (r & H1 & H2 & _).
        rewrite (Hnone r H1) in H2. discriminate. }
      split; [split; [intros _; split; assumption|intros _; eauto]|].
      split; discriminate.
    + destruct Hspec as (Hrn & _).
      assert (Hno : ~ exists r, r ∈ records /\ passes year gender r = true
                                /\ carries name r = true).
      { intros H%Hcar%Hkey. destruct H as (e & He & Hk).
        apply elem_of_aggregated in He. unfold keyOf in He.
        rewrite Hk in He. congruence. }
      assert (Hres : (forall r, r ∈ records -> passes year gender r = false)
                     /\ Rank records year gender name = Err ErrNoMatchingRecords
                     \/ ~ (forall r, r ∈ records -> passes year gender r = false)
                        /\ Rank records year gender name
                           = Err (ErrNameNotFound name)).
      { rewrite Rank_unfold. unfold RankFromAggregate.
        destruct (String.eqb_spec (TrimSpace name) "") as [|_]; [contradiction|].
        destruct (len _ =? 0) eqn:Hlen.
        - left. apply len_nil_iff in Hlen. split; [apply Hnil, Hlen|reflexivity].
        - right. rewrite Hrn. split; [|reflexivity].
          intros H%Hnil%len_nil_iff. congruence. }
      destruct Hres as [[Hall ->]|[Hnall ->]].
      * split; [split; [discriminate|intros H; contradiction]|].
        split; [split; [intros _; split; assumption|reflexivity]|].
        split; [split; [intros (rank & e & H); discriminate
                       |intros [_ H]; contradiction]|].
        split; discriminate.
      * split; [split; [discriminate|intros H; contradiction]|].
        split; [split; [discriminate|intros [_ H]; contradiction]|].
        split; [split; [intros (rank & e & H); discriminate
                       |intros [_ H]; contradiction]|].
        split; discriminate.
Qed.

(** ** RandomNameFromAggregate *)

Lemma sumLoop_Ok_inv (l : list NameCount) (total0 total : Z) :
  sumLoop l total0 = Ok total ->
  Forall (fun e => 0 <= Count e) l
  /\ total = fold_left add64 (Count <$> l) total0.
Proof.
  revert total0. induction l as [|e l IH]; intros total0; cbn [sumLoop].
  - intros [= <-]. split; [constructor|reflexivity].
  - destruct (Z.ltb_spec (Count e) 0) as [|Hpos]; [discriminate|].
    intros [Hl Ht]%IH. split; [constructor; assumption|exact Ht].
Qed.

Lemma sumLoop_Err_inv (l : list NameCount) (total0 : Z) (err : error) :
  sumLoop l total0 = Err err ->
  exists e, e ∈ l /\ Count e < 0 /\ err = ErrNegativeCount (Name e).
Proof.
  revert total0. induction l as [|e l IH]; intros total0; cbn [sumLoop];
    [discriminate|].
  destruct (Z.ltb_spec (Count e) 0) as [Hneg|Hpos].
  - intros [= <-]. exists e. split; [left|auto].
  - intros (x & Hx & H)%IH. exists x. split; [right; exact Hx|exact H].
Qed.

Lemma sumLoop_cases (l : list NameCount) (total0 : Z) :
  (exists total, sumLoop l total0 = Ok total)
  \/ (exists err, sumLoop l total0 = Err err).
Proof.
  revert total0. induction l as [|e l IH]; intros total0; cbn [sumLoop];
    [eauto|].
  destruct (Count e <? 0); [eauto|apply IH].
Qed.

(** The scan never stops at an entry of count 0. *)
Lemma scan_nonzero (pick running : Z) (l : list NameCount) (e : NameCount) :
  wrap64 running = running -> running <= pick ->
  scan pick running l = Some e -> Count e <> 0.
Proof.
  revert running. induction l as [|a l IH]; intros running Hw Hle;
    [discriminate|].
  cbn [scan].
  destruct (Z.ltb_spec pick (add64 running (Count a))) as [Hlt|Hge].
  - intros [= <-] Hz. rewrite Hz in Hlt. unfold add64 in Hlt.
    rewrite Z.add_0_r, Hw in Hlt. lia.
  - apply IH; [apply wrap64_idem|exact Hge].
Qed.

Lemma scan_total (pick : Z) (l : list NameCount) :
  l <> [] -> pick < sumCounts l -> scan pick 0 l <> None.
Proof.
  intros Hl Hlt Hs.
  pose proof (scan_None _ _ _ Hs (length l - 1)%nat) as Hn.
  fold (cumulative l (length l - 1)) in Hn.
  rewrite (cumulative_last _ Hl) in Hn.
  assert (length l <> 0%nat) by (destruct l; cbn; congruence). lia.
Qed.

Section RandomDraw.
Context {rng : Type} `{!RandSource rng}.

(** [Intn] returns a number of [[0, n)]. *)
Hypothesis Intn_range :
  forall (r : rng) (n : Z), 0 < n -> 0 <= (Intn r n).1 < n.

(** X6. [RandomNameFromAggregate] fails on an empty list, on a list with
    a negative count (naming an entry that has one) and on a list whose
    counts total 0 or less; otherwise it draws one integer below the total
    and returns an entry of the list whose count is positive: an entry of
    count 0 is never drawn.  It never panics. *)
Theorem RandomNameFromAggregate_outcome (aggregated : list NameCount)
  (r : rng) :
  match RandomNameFromAggregate aggregated r with
  | Ok (e, r') =>
      e ∈ aggregated /\ 0 < Count e
      /\ 0 < sumCounts aggregated
      /\ r' = (Intn r (sumCounts aggregated)).2
  | Err err =>
      (err = ErrNoMatchingRecords /\ aggregated = [])
      \/ (exists e, e ∈ aggregated /\ Count e < 0
                    /\ err = ErrNegativeCount (Name e))
      \/ (err = ErrNoProbabilityMass /\ aggregated <> []
          /\ Forall (fun e => 0 <= Count e) aggregated
          /\ sumCounts aggregated <= 0)
  | Panic | OutOfFuel => False
  end.
Proof.
  unfold RandomNameFromAggregate.
  destruct (len aggregated =? 0) eqn:Hlen.
  { left. split; [reflexivity|]. apply len_nil_iff, Hlen. }
  assert (Hne : aggregated <> []).
  { intros H%len_nil_iff. congruence. }
  destruct (sumLoop_cases aggregated 0) as [[total Ht]|[err Herr]].
  - rewrite Ht, bind_Ok. apply sumLoop_Ok_inv in Ht as [Hpos ->].
    change (fold_left add64 (Count <$> aggregated) 0)
      with (sumCounts aggregated).
    unfold RandomNameFromAggregateWithTotal. rewrite Hlen.
    destruct (Z.leb_spec (sumCounts aggregated) 0) as [Hle|Hgt].
    { right. right. auto. }
    unfold intn. destruct (Z.leb_spec (sumCounts aggregated) 0) as [|_]; [lia|].
    rewrite bind_Ok.
    pose proof (Intn_range r _ Hgt) as Hpick.
    destruct (Intn r (sumCounts aggregated)) as [pick r']. cbn [fst snd] in *.
    destruct (scan pick 0 aggregated) as [e|] eqn:Hs.
    + split; [eapply scan_elem_of, Hs|].
      pose proof (scan_nonzero pick 0 aggregated e eq_refl
                    (proj1 Hpick) Hs) as Hnz.
      rewrite Forall_forall in Hpos.
      pose proof (Hpos e (scan_elem_of _ _ _ _ Hs)).
      split; [lia|]. split; [exact Hgt|reflexivity].
    + exfalso. apply (scan_total pick aggregated Hne); [lia|exact Hs].
  - rewrite Herr. cbn. right. left. apply (sumLoop_Err_inv _ _ _ Herr).
Qed.
End RandomDraw.

End WithStrings.

Lemma RandomNameFromAggregate_outcome_witness :
  mkNameCount "B" 3 ∈ [mkNameCount "Z" 0; mkNameCount "B" 3]
  /\ 0 < 3
  /\ 0 < sumCounts [mkNameCount "Z" 0; mkNameCount "B" 3]
  /\ mkTape [] []
     = (Intn (mkTape [0] []) (sumCounts [mkNameCount "Z" 0; mkNameCount "B" 3])).2.
Proof.
  exact (RandomNameFromAggregate_outcome tape_Intn_range
           [mkNameCount "Z" 0; mkNameCount "B" 3] (mkTape [0] [])).
Defined.

Section WithStrings.
Context {strings : Strings}.

(** ** Pick *)

Section PickEntry.
Context {rng : Type} `{!RandSource rng}.

(** [Intn] returns a number of [[0, n)]. *)
Hypothesis Intn_range :
  forall (r : rng) (n : Z), 0 < n -> 0 <= (Intn r n).1 < n.

(** X7. On a sampler built by [NewNameSampler], [Pick] never fails and
    returns an entry of the list the sampler was built from; built from a
    single entry, it returns that entry whatever the source draws. *)
Theorem Pick_returns_entry (aggregated : list NameCount) (s : NameSampler)
  (r : rng) :
  NewNameSampler aggregated = Ok s ->
  exists e : NameCount,
    Pick (Some s) r = Ok (e, (Float64 (Intn r (len aggregated)).2).2)
    /\ e ∈ aggregated
    /\ (forall x : NameCount, aggregated = [x] -> e = x).
Proof.
  intros Hs.
  destruct (NewNameSampler_inv _ _ Hs) as (Hne & He & Hp & Ha & Hal).
  assert (Hn : 0 < len aggregated).
  { unfold len. destruct aggregated; [contradiction|cbn; lia]. }
  pose proof (Intn_range r _ Hn) as Hidx.
  unfold Pick, intn. rewrite He.
  destruct (Z.eqb_spec (len aggregated) 0) as [|_]; [lia|].
  destruct (Z.leb_spec (len aggregated) 0) as [|_]; [lia|].
  rewrite bind_Ok.
  destruct (Intn r (len aggregated)) as [idx r1]. cbn [fst snd] in *.
  destruct (Z.eqb_spec (len (prob s)) 0) as [Hz|_].
  { unfold len in Hz, Hn. rewrite Hp in Hz. lia. }
  destruct (Z.eqb_spec (len (alias s)) 0) as [Hz|_].
  { unfold len in Hz, Hn. rewrite Ha in Hz. lia. }
  cbn [orb]. destruct (Float64 r1) as [f r2]. cbn [fst snd].
  unfold len in Hidx.
  destruct (index_in_range aggregated idx Hidx) as (e & Hie & Hle).
  destruct (index_inRange (prob s) idx) as [p Hip]; [rewrite Hp; exact Hidx|].
  destruct (index_in_range (alias s) idx) as (a & Hia & Hla);
    [unfold len; rewrite Ha; exact Hidx|].
  rewrite Forall_lookup in Hal. pose proof (Hal _ _ Hla) as Har.
  destruct (index_in_range aggregated a Har) as (ea & Hea & Hlea).
  rewrite Hip, bind_Ok.
  assert (Hone : forall (x y : NameCount) (j : nat),
             aggregated = [x] -> aggregated !! j = Some y -> y = x).
  { intros x y j -> Hj. destruct j as [|[|j]]; cbn in Hj; congruence. }
  destruct (f <? p)%float.
  - rewrite Hie. exists e. split; [reflexivity|].
    split; [apply list_elem_of_lookup; eauto|]. intros x Hx. eapply Hone; eauto.
  - rewrite Hia, bind_Ok, Hea. exists ea. split; [reflexivity|].
    split; [apply list_elem_of_lookup; eauto|]. intros x Hx. eapply Hone; eauto.
Qed.
End PickEntry.

End WithStrings.

Lemma Pick_returns_entry_witness :
  exists e : NameCount,
    Pick (Some (mkNameSampler [mkNameCount "Solo" 7] [1%float] [0] 7))
      (mkTape [5] [0.5%float])
    = Ok (e, mkTape [] [])
    /\ e ∈ [mkNameCount "Solo" 7]
    /\ (forall x : NameCount, [mkNameCount "Solo" 7] = [x] -> e = x).
Proof.
  exact (Pick_returns_entry tape_Intn_range [mkNameCount "Solo" 7]
           (mkNameSampler [mkNameCount "Solo" 7] [1%float] [0] 7)
           (mkTape [5] [0.5%float]) eq_refl).
Defined.

Section WithStrings.
Context {strings : Strings}.

(** ** Trend: the requests *)

Lemma requestStep_spec (st : gmap string bool * list request) (raw : string) :
  reqInv st -> NoDup (Key <$> st.2) ->
  reqInv (requestStep st raw)
  /\ NoDup (Key <$> (requestStep st raw).2)
  /\ (forall k : string,
         k ∈ Key <$> (requestStep st raw).2
         <-> k ∈ Key <$> st.2
             \/ (TrimSpace raw <> "" /\ ToUpper (TrimSpace raw) = k)).
Proof.
  intros Hinv Hnd. destruct st as [seen requested]. unfold requestStep.
  destruct (String.eqb_spec (TrimSpace raw) "") as [Hb|Hnb].
  { split; [exact Hinv|]. split; [exact Hnd|]. intros k.
    split; [auto|]. intros [H|[H _]]; [exact H|contradiction]. }
  destruct (default false (seen !! ToUpper (TrimSpace raw))) eqn:Hseen.
  { split; [exact Hinv|]. split; [exact Hnd|]. intros k.
    split; [auto|]. intros [H|[_ He]]; [exact H|]. subst k.
    apply Hinv, Hseen. }
  assert (Hfresh : ToUpper (TrimSpace raw) ∉ Key <$> requested).
  { intros Hin%Hinv. cbn [fst] in Hin. congruence. }
  cbn [fst snd] in *. rewrite fmap_app. cbn [fmap list_fmap Key].
  split; [|split].
  - intros k. cbn [fst snd]. rewrite fmap_app. cbn [fmap list_fmap Key].
    rewrite elem_of_app, list_elem_of_singleton.
    destruct (decide (k = ToUpper (TrimSpace raw))) as [->|Hne].
    + rewrite lookup_insert_eq. cbn. tauto.
    + rewrite lookup_insert_ne by congruence.
      specialize (Hinv k). cbn [fst snd] in Hinv. tauto.
  - apply NoDup_app. split; [exact Hnd|]. split; [|apply NoDup_singleton].
    intros k Hk ->%list_elem_of_singleton. contradiction.
  - intros k. rewrite elem_of_app, list_elem_of_singleton.
    split; [intros [H | ->]; auto|]. intros [H|[_ He]]; auto.
Qed.

Lemma requests_fold_spec (names : list string)
  (st : gmap string bool * list request) :
  reqInv st -> NoDup (Key <$> st.2) ->
  NoDup (Key <$> (fold_left requestStep names st).2)
  /\ (forall k : string,
         k ∈ Key <$> (fold_left requestStep names st).2
         <-> k ∈ Key <$> st.2
             \/ exists raw, raw ∈ names /\ TrimSpace raw <> ""
                            /\ ToUpper (TrimSpace raw) = k).
Proof.
  revert st. induction names as [|raw names IH]; intros st Hinv Hnd.
  - split; [exact Hnd|]. intros k. split; [auto|].
    intros [H|(raw & Hr & _)]; [exact H|inversion Hr].
  - destruct (requestStep_spec st raw Hinv Hnd) as (Hinv' & Hnd' & Hk').
    destruct (IH _ Hinv' Hnd') as [Hnd'' Hk'']. cbn [fold_left].
    split; [exact Hnd''|]. intros k. rewrite Hk'', Hk'. split.
    + intros [[H|[Hnb He]]|(x & Hx & Hnb & He)]; [auto| |].
      * right. exists raw. split; [left|auto].
      * right. exists x. split; [right; exact Hx|auto].
    + intros [H|(x & Hx & Hnb & He)]; [auto|].
      apply elem_of_cons in Hx as [->|Hx]; [auto|].
      right. exists x. auto.
Qed.

Lemma requestedOf_keys (names : list string) :
  NoDup (Key <$> requestedOf names)
  /\ (forall k : string,
         k ∈ Key <$> requestedOf names
         <-> exists raw, raw ∈ names /\ TrimSpace raw <> ""
                         /\ ToUpper (TrimSpace raw) = k).
Proof.
  destruct (requests_fold_spec names (∅, [])) as [Hnd Hk].
  - intros k. cbn. rewrite lookup_empty. cbn. split; [discriminate|].
    intros H. inversion H.
  - constructor.
  - split; [exact Hnd|]. intros k. unfold requestedOf. rewrite Hk. cbn.
    split; [|auto]. intros [H|H]; [inversion H|exact H].
Qed.

Lemma requestedOf_nil_iff (names : list string) :
  requestedOf names = [] <-> Forall (fun raw => TrimSpace raw = "") names.
Proof.
  destruct (requestedOf_keys names) as [_ Hk]. split.
  - intros Hnil. apply Forall_forall. intros raw Hraw.
    destruct (String.eqb_spec (TrimSpace raw) "") as [|Hnb]; [assumption|].
    exfalso.
    assert (Hin : ToUpper (TrimSpace raw) ∈ Key <$> requestedOf names)
      by (apply Hk; eauto).
    rewrite Hnil in Hin. inversion Hin.
  - intros Hall. destruct (requestedOf names) as [|req l] eqn:Hl;
      [reflexivity|].
    destruct (proj1 (Hk (Key req))) as (raw & Hraw & Hnb & _); [left|].
    rewrite Forall_forall in Hall. specialize (Hall raw Hraw). contradiction.
Qed.

(** ** Trend: outcomes, year axis and totals *)

Lemma existsb_false_forall {A : Type} (f : A -> bool) (l : list A) :
  existsb f l = false <-> forall a, a ∈ l -> f a = false.
Proof.
  induction l as [|x l IH]; cbn.
  - split; [|reflexivity]. intros _ a Ha. inversion Ha.
  - rewrite orb_false_iff, IH. split.
    + intros [Hx Hl] a [->|Ha]%elem_of_cons; auto.
    + intros H. split; [apply H; left|]. intros a Ha. apply H. right. exact Ha.
Qed.

Lemma existsb_true_exists {A : Type} (f : A -> bool) (l : list A) :
  existsb f l = true <-> exists a, a ∈ l /\ f a = true.
Proof.
  split.
  - intros H. destruct (existsb_exists f l) as [Hex _].
    destruct (Hex H) as (a & Ha & Hf). exists a.
    split; [apply list_elem_of_In, Ha|exact Hf].
  - intros (a & Ha & Hf). apply existsb_exists. exists a.
    split; [apply list_elem_of_In, Ha|exact Hf].
Qed.

Lemma yearly_is_Some (records : list Record_) (gender : string) (y : Z) :
  is_Some ((yearlyOf records gender).1 !! y)
  <-> exists r, r ∈ records /\ skipGender gender r = false /\ Year r = y.
Proof.
  rewrite yearlyOf_lookup.
  destruct (existsb (keepYear gender y) records) eqn:Hex.
  - apply existsb_true_exists in Hex as (r & Hr & Hk). unfold keepYear in Hk.
    apply andb_true_iff in Hk as [Hg%negb_true_iff Hy%Z.eqb_eq].
    split; [eauto|]. intros _. eauto.
  - split; [intros [x Hx]; discriminate|].
    intros (r & Hr & Hg & Hy).
    rewrite existsb_false_forall in Hex. specialize (Hex r Hr).
    unfold keepYear in Hex. rewrite Hg, <- Hy, Z.eqb_refl in Hex. discriminate.
Qed.

Lemma yearly_empty_iff (records : list Record_) (gender : string) :
  (yearlyOf records gender).1 = ∅
  <-> forall r, r ∈ records -> skipGender gender r = true.
Proof.
  rewrite map_empty. split.
  - intros Hnone r Hr. destruct (skipGender gender r) eqn:Hg; [reflexivity|].
    destruct (proj2 (yearly_is_Some records gender (Year r))) as [m Hm];
      [eauto|]. rewrite Hnone in Hm. discriminate.
  - intros Hall y. apply eq_None_not_Some.
    intros (r & Hr & Hg & _)%yearly_is_Some.
    rewrite (Hall r Hr) in Hg. discriminate.
Qed.

Lemma Trend_run_unfold
  (order : gmap Z (gmap string NameCount) -> list (Z * gmap string NameCount))
  (records : list Record_) (gender : string) (names : list string) :
  let g := ToUpper (TrimSpace gender) in
  let yearly := (yearlyOf records g).1 in
  Trend_run order records gender names
  = if decide (requestedOf names = []) then Err ErrAtLeastOneName
    else if decide (yearly = ∅) then Err ErrNoMatchingRecords
    else Ok (sortedYears yearly,
             map (seriesOf yearly (yearRanksOf yearly (sortedYears yearly))
                    (displayNamesOf (order yearly)) (sortedYears yearly))
               (requestedOf names),
             (yearlyOf records g).2).
Proof.
  intros g yearly. unfold Trend_run. fold g.
  destruct (decide (requestedOf names = [])) as [Hr|Hr].
  { rewrite Hr. reflexivity. }
  destruct (len (requestedOf names) =? 0) eqn:Hlen.
  { apply len_nil_iff in Hlen. contradiction. }
  subst yearly. destruct (yearlyOf records g) as [yearly totals]. cbn [fst snd].
  destruct (decide (yearly = ∅)) as [->|Hy].
  { rewrite map_size_empty. reflexivity. }
  destruct (Z.eqb_spec (Z.of_nat (size yearly)) 0) as [Hz|_]; [|reflexivity].
  exfalso. apply Hy, map_size_empty_iff. lia.
Qed.

(** X8. [Trend] fails with "at least one name is required" exactly when
    every requested name is blank, with "no matching records" exactly when
    some name is not blank and no record passes the gender filter, and
    succeeds exactly when some name is not blank and some record passes the
    gender filter; it never panics. *)
Theorem Trend_outcomes
  (order : gmap Z (gmap string NameCount) -> list (Z * gmap string NameCount))
  (records : list Record_) (gender : string) (names : list string) :
  (Trend_run order records gender names = Err ErrAtLeastOneName
   <-> Forall (fun raw => TrimSpace raw = "") names)
  /\ (Trend_run order records gender names = Err ErrNoMatchingRecords
      <-> ~ Forall (fun raw => TrimSpace raw = "") names
          /\ forall r, r ∈ records -> passesGender gender r = false)
  /\ ((exists out, Trend_run order records gender names = Ok out)
      <-> ~ Forall (fun raw => TrimSpace raw = "") names
          /\ exists r, r ∈ records /\ passesGender gender r = true)
  /\ Trend_run order records gender names <> Panic
  /\ Trend_run order records gender names <> OutOfFuel.
Proof.
  pose proof (Trend_run_unfold order records gender names) as Hrun.
  cbn zeta in Hrun. rewrite Hrun. clear Hrun.
  pose proof (requestedOf_nil_iff names) as Hreq.
  pose proof (yearly_empty_iff records (ToUpper (TrimSpace gender))) as Hyl.
  assert (Hpass : (forall r, r ∈ records ->
                     skipGender (ToUpper (TrimSpace gender)) r = true)
                  <-> forall r, r ∈ records -> passesGender gender r = false).
  { unfold passesGender. split; intros H r Hr; specialize (H r Hr).
    - rewrite H. reflexivity.
    - apply negb_false_iff, H. }
  destruct (decide (requestedOf names = [])) as [Hr|Hr].
  - apply Hreq in Hr.
    split; [split; [intros _; exact Hr|reflexivity]|].
    split; [split; [discriminate|intros [H _]; contradiction]|].
    split; [split; [intros [out H]; discriminate
                   |intros [H _]; contradiction]|].
    split; discriminate.
  - assert (Hnb : ~ Forall (fun raw => TrimSpace raw = "") names).
    { intros H%Hreq. contradiction. }
    destruct (decide (_ = ∅)) as [Hy|Hy].
    + pose proof (proj1 Hpass (proj1 Hyl Hy)) as Hall. clear Hy.
      rename Hall into Hy.
      split; [split; [discriminate|intros H; contradiction]|].
      split; [split; [intros _; split; assumption|reflexivity]|].
      split; [|split; discriminate].
      split; [intros [out H]; discriminate|].
      intros [_ (r & Hr' & Hp)]. rewrite (Hy r Hr') in Hp. discriminate.
    + split; [split; [discriminate|intros H; contradiction]|].
      split.
      { split; [discriminate|]. intros [_ H]. exfalso.
        apply Hy, (proj2 Hyl), (proj2 Hpass), H. }
      split; [|split; discriminate].
      split; [|intros _; eauto]. intros _. split; [exact Hnb|].
      destruct (decide (Exists (fun r => passesGender gender r = true) records))
        as [Hex|Hnex].
      * apply Exists_exists in Hex. exact Hex.
      * exfalso. apply Hy, (proj2 Hyl), (proj2 Hpass). intros r Hr'.
        destruct (passesGender gender r) eqn:Hp; [|reflexivity].
        exfalso. apply Hnex, Exists_exists. eauto.
Qed.

Lemma StronglySorted_le_lt (l : list Z) :
  StronglySorted Z.le l -> NoDup l -> StronglySorted Z.lt l.
Proof.
  induction 1 as [|x l Hl IH Hx]; intros Hnd; constructor.
  - apply IH. apply NoDup_cons in Hnd as [_ Hnd]. exact Hnd.
  - apply NoDup_cons in Hnd as [Hnin _].
    rewrite Forall_forall in Hx |- *. intros y Hy.
    specialize (Hx y Hy). assert (x <> y) by (intros ->; contradiction). lia.
Qed.

Lemma sortedYears_strict (yearly : gmap Z (gmap string NameCount)) :
  StronglySorted Z.lt (sortedYears yearly).
Proof.
  apply StronglySorted_le_lt.
  - apply StronglySorted_merge_sort; apply _.
  - unfold sortedYears. rewrite merge_sort_Permutation.
    apply NoDup_fst_map_to_list.
Qed.

Lemma trendStep_snd (gender : string)
  (st : gmap Z (gmap string NameCount) * gmap Z Z) (r : Record_) :
  (trendStep gender st r).2
  = if skipGender gender r then st.2
    else <[Year r := add64 (default 0 (st.2 !! Year r)) (RCount r)]> st.2.
Proof.
  unfold trendStep. destruct st as [yearly totals].
  destruct (skipGender gender r); reflexivity.
Qed.

Lemma totals_fold_lookup (gender : string) (records : list Record_)
  (st : gmap Z (gmap string NameCount) * gmap Z Z) (y : Z) :
  (fold_left (trendStep gender) records st).2 !! y
  = if existsb (keepYear gender y) records
    then Some (fold_left add64
                 (RCount <$> List.filter (keepYear gender y) records)
                 (default 0 (st.2 !! y)))
    else st.2 !! y.
Proof.
  revert st. induction records as [|r records IH]; intros st; [reflexivity|].
  cbn [fold_left existsb List.filter]. rewrite IH, trendStep_snd.
  destruct (keepYear gender y r) eqn:Hk; cbn [orb]; unfold keepYear in Hk.
  - apply andb_true_iff in Hk as [Hg%negb_true_iff Hy%Z.eqb_eq].
    rewrite Hg. subst y. rewrite lookup_insert_eq.
    cbn [default from_option id]. rewrite fmap_cons. cbn [fold_left].
    destruct (existsb (keepYear gender (Year r)) records) eqn:Hex;
      [reflexivity|].
    rewrite (filter_none _ records); [reflexivity|].
    apply existsb_false_forall, Hex.
  - destruct (skipGender gender r); [reflexivity|]. cbn [negb andb] in Hk.
    apply Z.eqb_neq in Hk. rewrite lookup_insert_ne by exact Hk. reflexivity.
Qed.

Lemma aggregated_sum (records : list Record_) (year : Z) (gender : string) :
  sumCounts (AggregateNames records year gender).1
  = sumRecordCounts (List.filter (passes year gender) records).
Proof.
  unfold AggregateNames. cbn [fst].
  rewrite (sumCounts_perm (sortSlice _) _ (sortSlice_perm _)).
  unfold sumCounts, sumRecordCounts. rewrite !sum64_wrap. unfold groupTotals.
  change (sumZ (Count <$> entriesOf ?m)) with (mapSum m).
  rewrite mapSum_fold. reflexivity.
Qed.

Lemma Trend_run_Ok_inv
  (order : gmap Z (gmap string NameCount) -> list (Z * gmap string NameCount))
  (records : list Record_) (gender : string) (names : list string)
  (years : list Z) (series : list TrendSeries) (totals : gmap Z Z) :
  Trend_run order records gender names = Ok (years, series, totals) ->
  let yearly := (yearlyOf records (ToUpper (TrimSpace gender))).1 in
  years = sortedYears yearly
  /\ series
     = map (seriesOf yearly (yearRanksOf yearly years)
              (displayNamesOf (order yearly)) years)
         (requestedOf names)
  /\ totals = (yearlyOf records (ToUpper (TrimSpace gender))).2.
Proof.
  pose proof (Trend_run_unfold order records gender names) as Hrun.
  cbn zeta in Hrun. rewrite Hrun. clear Hrun.
  destruct (decide (requestedOf names = [])); [discriminate|].
  destruct (decide (_ = ∅)); [discriminate|].
  intros [= <- <- <-]. auto.
Qed.

Lemma year_passes_iff (records : list Record_) (gender : string) (y : Z) :
  existsb (keepYear (ToUpper (TrimSpace gender)) y) records = true
  <-> exists r, r ∈ records /\ passesGender gender r = true /\ Year r = y.
Proof.
  rewrite existsb_true_exists. unfold keepYear, passesGender.
  split; intros (r & Hr & H).
  - apply andb_true_iff in H as [Hg Hy%Z.eqb_eq]. eauto.
  - destruct H as [Hg <-]. exists r. rewrite Hg, Z.eqb_refl. auto.
Qed.

Lemma pointOf_year (yearly : gmap Z (gmap string NameCount))
  (yearRanks : gmap Z (gmap string Z)) (req : request) (y : Z) :
  PYear (pointOf yearly yearRanks req y) = y.
Proof. unfold pointOf. destruct (_ !! Key req); reflexivity. Qed.

(** X9. When [Trend] succeeds, the year axis is strictly ascending and
    holds exactly the years of the records that pass the gender filter; the
    totals are keyed by exactly these years; there is one series per request;
    and every series has one point per year of the axis, in the order of the
    axis. *)
Theorem Trend_axis
  (order : gmap Z (gmap string NameCount) -> list (Z * gmap string NameCount))
  (records : list Record_) (gender : string) (names : list string)
  (years : list Z) (series : list TrendSeries) (totals : gmap Z Z) :
  Trend_run order records gender names = Ok (years, series, totals) ->
  StronglySorted Z.lt years
  /\ (forall y : Z,
         y ∈ years
         <-> exists r, r ∈ records /\ passesGender gender r = true
                       /\ Year r = y)
  /\ (forall y : Z, is_Some (totals !! y) <-> y ∈ years)
  /\ length series = length (requestedOf names)
  /\ (forall s : TrendSeries, s ∈ series -> PYear <$> Points s = years).
Proof.
  intros (Hy & Hs & Ht)%Trend_run_Ok_inv. cbn zeta in *.
  set (g := ToUpper (TrimSpace gender)) in *.
  assert (Hyears : forall y : Z,
             y ∈ years
             <-> exists r, r ∈ records /\ passesGender gender r = true
                           /\ Year r = y).
  { intros y. rewrite Hy, elem_of_sortedYears, yearlyOf_lookup.
    rewrite <- year_passes_iff. fold g.
    destruct (existsb (keepYear g y) records); split; eauto.
    - intros [x Hx]. discriminate.
    - discriminate. }
  split; [rewrite Hy; apply sortedYears_strict|].
  split; [exact Hyears|]. split; [|split].
  - intros y. rewrite Hyears, <- year_passes_iff. fold g. rewrite Ht.
    unfold yearlyOf. rewrite totals_fold_lookup.
    destruct (existsb (keepYear g y) records); split; eauto.
    + cbn. rewrite lookup_empty. intros [x Hx]. discriminate.
    + discriminate.
  - rewrite Hs. apply length_map.
  - intros s Hin. rewrite Hs in Hin.
    apply list_elem_of_In, in_map_iff in Hin as (req & <- & _).
    cbn [Points seriesOf]. clear.
    generalize (yearRanksOf (yearlyOf records g).1 years). intros yearRanks.
    induction years as [|y years IH]; [reflexivity|].
    cbn [map fmap list_fmap] in *. rewrite pointOf_year. f_equal. exact IH.
Qed.

End WithStrings.

Lemma Trend_axis_witness :
  StronglySorted Z.lt [2018; 2019]
  /\ (forall y : Z,
         y ∈ [2018; 2019]
         <-> exists r, r ∈ sampleCA /\ passesGender "F" r = true /\ Year r = y)
  /\ (forall y : Z,
         is_Some ((yearlyOf sampleCA "F").2 !! y) <-> y ∈ [2018; 2019])
  /\ length
       [mkTrendSeries "Emma"
          [mkTrendPoint 2018 2 50 true; mkTrendPoint 2019 2 90 true]]
     = length (requestedOf ["emma"])
  /\ (forall s : TrendSeries,
         s ∈ [mkTrendSeries "Emma"
                [mkTrendPoint 2018 2 50 true; mkTrendPoint 2019 2 90 true]] ->
         PYear <$> Points s = [2018; 2019]).
Proof.
  apply (Trend_axis map_to_list sampleCA "F" ["emma"]).
  vm_compute. reflexivity.
Defined.

Section WithStrings.
Context {strings : Strings}.

(** X10. When [Trend] succeeds, the total of a year of the axis is the sum
    of the counts of the records of that year that pass the gender filter,
    and, for a year other than 0, the sum of the counts of the list
    [AggregateNames] returns for that year and gender. *)
Theorem Trend_totals
  (order : gmap Z (gmap string NameCount) -> list (Z * gmap string NameCount))
  (records : list Record_) (gender : string) (names : list string)
  (years : list Z) (series : list TrendSeries) (totals : gmap Z Z) (y : Z) :
  Trend_run order records gender names = Ok (years, series, totals) ->
  y ∈ years ->
  totals !! y
  = Some (sumRecordCounts
            (List.filter (fun r => passesGender gender r && (Year r =? y))
               records))
  /\ (y <> 0 ->
      totals !! y = Some (sumCounts (AggregateNames records y gender).1)).
Proof.
  intros (Hy & Hs & Ht)%Trend_run_Ok_inv Hin. cbn zeta in *.
  set (g := ToUpper (TrimSpace gender)) in *.
  assert (Htot : totals !! y
                 = Some (sumRecordCounts
                           (List.filter
                              (fun r => passesGender gender r && (Year r =? y))
                              records))).
  { rewrite Ht. unfold yearlyOf. rewrite totals_fold_lookup.
    rewrite Hy, elem_of_sortedYears, yearlyOf_lookup in Hin.
    destruct (existsb (keepYear g y) records);
      [|destruct Hin; discriminate].
    cbn [snd]. rewrite lookup_empty. reflexivity. }
  split; [exact Htot|]. intros Hy0. rewrite Htot, aggregated_sum.
  do 2 f_equal. apply List.filter_ext. intros r.
  unfold passes, passesGender, skipYear.
  destruct (Z.eqb_spec y 0) as [|_]; [contradiction|]. cbn [negb andb].
  rewrite negb_involutive. apply andb_comm.
Qed.

End WithStrings.

Lemma Trend_totals_witness :
  (yearlyOf sampleCA "").2 !! 2019
  = Some (sumRecordCounts
            (List.filter (fun r => passesGender "" r && (Year r =? 2019))
               sampleCA))
  /\ (2019 <> 0 ->
      (yearlyOf sampleCA "").2 !! 2019
      = Some (sumCounts (AggregateNames sampleCA 2019 "").1)).
Proof.
  apply (Trend_totals map_to_list sampleCA "" ["Olivia"] [2018; 2019]
           [mkTrendSeries "Olivia"
              [mkTrendPoint 2018 2 80 true; mkTrendPoint 2019 1 140 true]]).
  - vm_compute. reflexivity.
  - right. left.
Defined.

Section WithStrings.
Context {strings : Strings}.

(** ** Trend: which spelling a request keeps *)

Lemma requestStep_elem (st : gmap string bool * list request) (raw : string)
  (req : request) :
  req ∈ (requestStep st raw).2 ->
  req ∈ st.2
  \/ ((TrimSpace raw <> "")
      /\ (default false (st.1 !! ToUpper (TrimSpace raw)) = false)
      /\ req = mkRequest (ToUpper (TrimSpace raw)) (TrimSpace raw)).
Proof.
  destruct st as [seen requested]. unfold requestStep.
  destruct (String.eqb_spec (TrimSpace raw) "") as [|Hne]; [auto|].
  destruct (default false (seen !! ToUpper (TrimSpace raw))) eqn:Hseen; [auto|].
  cbn [fst snd]. intros [Hin|Hin]%elem_of_app; [auto|].
  apply list_elem_of_singleton in Hin. auto.
Qed.

Lemma requests_fold_first (names : list string)
  (st : gmap string bool * list request) (req : request) :
  reqInv st -> NoDup (Key <$> st.2) ->
  req ∈ (fold_left requestStep names st).2 ->
  req ∈ st.2
  \/ ((Key req ∉ Key <$> st.2)
      /\ exists (pre : list string) (raw : string) (post : list string),
           names = (pre ++ raw :: post)%list
           /\ TrimSpace raw <> ""
           /\ req = mkRequest (ToUpper (TrimSpace raw)) (TrimSpace raw)
           /\ forall x : string,
                x ∈ pre -> ToUpper (TrimSpace x) <> Key req).
Proof.
  revert st. induction names as [|raw names IH]; intros st Hinv Hnd Hin;
    [auto|].
  cbn [fold_left] in Hin.
  destruct (requestStep_spec st raw Hinv Hnd) as (Hinv' & Hnd' & Hk').
  destruct (IH _ Hinv' Hnd' Hin) as [Hin'|[Hfresh Hsplit]].
  - apply requestStep_elem in Hin' as [Hin'|(Hnb & Hseen & ->)]; [auto|].
    right. split.
    + intros Hk%Hinv. cbn [Key] in Hk. congruence.
    + exists [], raw, names. split; [reflexivity|]. split; [exact Hnb|].
      split; [reflexivity|]. intros x Hx. inversion Hx.
  - destruct Hsplit as (pre & raw' & post & -> & Hnb & -> & Hpre).
    cbn [Key] in *. right. split.
    + intros Hk. apply Hfresh, Hk'. auto.
    + exists (raw :: pre), raw', post. split; [reflexivity|].
      split; [exact Hnb|]. split; [reflexivity|]. cbn [Key].
      intros x [->|Hx]%elem_of_cons; [|apply Hpre, Hx].
      intros He. apply Hfresh, Hk'. right. split; [|exact He].
      intros Hb. rewrite Hb, ToUpper_nil in He. symmetry in He.
      apply ToUpper_empty in He. contradiction.
Qed.

(** X11. The requests of [Trend] hold every non-blank name once, letter case
    and surrounding white space apart, in the spelling (trimmed) of its first
    occurrence in the argument: the keys have no repeats, every non-blank
    name has its key among them, and every request is the trimmed form of a
    name none of whose predecessors has the same key. *)
Theorem Trend_requests (names : list string) :
  NoDup (Key <$> requestedOf names)
  /\ (forall raw : string,
         raw ∈ names -> TrimSpace raw <> "" ->
         ToUpper (TrimSpace raw) ∈ Key <$> requestedOf names)
  /\ (forall req : request,
         req ∈ requestedOf names ->
         exists (pre : list string) (raw : string) (post : list string),
           names = (pre ++ raw :: post)%list
           /\ TrimSpace raw <> ""
           /\ Input req = TrimSpace raw
           /\ Key req = ToUpper (TrimSpace raw)
           /\ forall x : string,
                x ∈ pre -> ToUpper (TrimSpace x) <> Key req).
Proof.
  destruct (requestedOf_keys names) as [Hnd Hk].
  split; [exact Hnd|]. split.
  - intros raw Hin Hnb. apply Hk. eauto.
  - intros req Hin. unfold requestedOf in Hin.
    apply requests_fold_first in Hin as [Hin|[_ Hsplit]].
    + inversion Hin.
    + destruct Hsplit as (pre & raw & post & Hn & Hnb & -> & Hpre).
      exists pre, raw, post. cbn [Key Input] in *. auto.
    + intros k. cbn. rewrite lookup_empty. cbn. split; [discriminate|].
      intros H. inversion H.
    + constructor.
Qed.

(** ** Trend: the name of a series *)

Lemma displayStep_fold_Some (l : list (string * NameCount))
  (displayNames : gmap string string) (k n : string) :
  fold_left displayStep l displayNames !! k = Some n ->
  displayNames !! k = Some n \/ exists e, (k, e) ∈ l /\ n = Name e.
Proof.
  revert displayNames. induction l as [|kv l IH]; intros D H; [auto|].
  cbn [fold_left] in H. apply IH in H as [H|(e & He & ->)].
  - unfold displayStep in H. destruct (D !! kv.1) eqn:Hkv; [auto|].
    destruct (decide (kv.1 = k)) as [<-|Hne].
    + rewrite lookup_insert_eq in H. injection H as <-.
      right. exists kv.2. split; [|reflexivity]. destruct kv. left.
    + rewrite lookup_insert_ne in H by exact Hne. auto.
  - right. exists e. split; [right; exact He|reflexivity].
Qed.

Lemma displayStep_fold_None (l : list (string * NameCount))
  (displayNames : gmap string string) (k : string) :
  fold_left displayStep l displayNames !! k = None ->
  displayNames !! k = None /\ forall e, (k, e) ∉ l.
Proof.
  revert displayNames. induction l as [|kv l IH]; intros D H.
  - split; [exact H|]. intros e He. inversion He.
  - cbn [fold_left] in H. apply IH in H as [H Hl].
    assert (HD : D !! k = None /\ kv.1 <> k).
    { unfold displayStep in H. destruct (D !! kv.1) eqn:Hkv.
      - split; [exact H|]. intros <-. congruence.
      - destruct (decide (kv.1 = k)) as [<-|Hne].
        + rewrite lookup_insert_eq in H. discriminate.
        + rewrite lookup_insert_ne in H by exact Hne. auto. }
    destruct HD as [HD Hne]. split; [exact HD|].
    intros e [<-|He]%elem_of_cons; [apply Hne; reflexivity|].
    exact (Hl e He).
Qed.

Lemma display_fold_Some (visit : list (Z * gmap string NameCount))
  (displayNames : gmap string string) (k n : string) :
  fold_left
    (fun displayNames yv => fold_left displayStep (map_to_list yv.2) displayNames)
    visit displayNames !! k = Some n ->
  displayNames !! k = Some n
  \/ exists yv e, yv ∈ visit /\ yv.2 !! k = Some e /\ n = Name e.
Proof.
  revert displayNames. induction visit as [|yv visit IH]; intros D H; [auto|].
  cbn [fold_left] in H. apply IH in H as [H|(yv' & e & Hin & He & ->)].
  - apply displayStep_fold_Some in H as [H|(e & He & ->)]; [auto|].
    right. exists yv, e. split; [left|].
    split; [apply elem_of_map_to_list, He|reflexivity].
  - right. exists yv', e. split; [right; exact Hin|auto].
Qed.

Lemma display_fold_None (visit : list (Z * gmap string NameCount))
  (displayNames : gmap string string) (k : string) :
  fold_left
    (fun displayNames yv => fold_left displayStep (map_to_list yv.2) displayNames)
    visit displayNames !! k = None ->
  displayNames !! k = None /\ forall yv, yv ∈ visit -> yv.2 !! k = None.
Proof.
  revert displayNames. induction visit as [|yv visit IH]; intros D H.
  - split; [exact H|]. intros yv Hin. inversion Hin.
  - cbn [fold_left] in H. apply IH in H as [H Hv].
    apply displayStep_fold_None in H as [H Hl]. split; [exact H|].
    intros yv' [->|Hin]%elem_of_cons; [|apply Hv, Hin].
    destruct (yv.2 !! k) as [e|] eqn:He; [|reflexivity].
    destruct (Hl e). apply elem_of_map_to_list, He.
Qed.

Lemma yearly_entry_record (records : list Record_) (gender : string) (y : Z)
  (m : gmap string NameCount) (k : string) (e : NameCount) :
  (yearlyOf records gender).1 !! y = Some m -> m !! k = Some e ->
  exists r, r ∈ records /\ keepYear gender y r = true
            /\ ToUpper (RName r) = k /\ Name e = RName r.
Proof.
  rewrite yearlyOf_lookup.
  destruct (existsb (keepYear gender y) records); [|discriminate].
  intros [= <-] He.
  pose proof (groupBy_name (keepYear gender y) records ∅ k) as Hn.
  rewrite He, lookup_empty in Hn. cbn [fmap option_fmap option_map] in Hn.
  destruct (List.filter _ records) as [|r rest] eqn:Hf; [discriminate|].
  injection Hn as Hn.
  assert (Hr : In r (List.filter
                       (fun r => keepYear gender y r
                                 && String.eqb (ToUpper (RName r)) k) records))
    by (rewrite Hf; left; reflexivity).
  apply filter_In in Hr as [Hr Hp].
  apply andb_true_iff in Hp as [Hkeep Hk%String.eqb_eq].
  exists r. split; [apply list_elem_of_In, Hr|auto].
Qed.

(** X12. When [Trend] succeeds, the k-th series answers the k-th request,
    and its name is the request's name up to letter case: the spelling of a
    record that passes the gender filter and carries the name, if there is
    one, and the request as it was typed (trimmed) otherwise.  This holds
    for every order in which the range over [yearly] yields the years. *)
Theorem Trend_series_name
  (order : gmap Z (gmap string NameCount) -> list (Z * gmap string NameCount))
  (records : list Record_) (gender : string) (names : list string)
  (years : list Z) (series : list TrendSeries) (totals : gmap Z Z)
  (k : nat) (s : TrendSeries) :
  order (yearlyOf records (ToUpper (TrimSpace gender))).1
  ≡ₚ map_to_list (yearlyOf records (ToUpper (TrimSpace gender))).1 ->
  Trend_run order records gender names = Ok (years, series, totals) ->
  series !! k = Some s ->
  exists req : request,
    requestedOf names !! k = Some req
    /\ ToUpper (SName s) = Key req
    /\ ((exists r, r ∈ records /\ passesGender gender r = true
                   /\ ToUpper (RName r) = Key req /\ SName s = RName r)
        \/ ((forall r, r ∈ records -> passesGender gender r = true ->
                       ToUpper (RName r) <> Key req)
            /\ SName s = Input req)).
Proof.
  intros Hperm (Hy & Hs & Ht)%Trend_run_Ok_inv Hk. cbn zeta in *.
  set (g := ToUpper (TrimSpace gender)) in *.
  rewrite Hs in Hk. change (map ?f ?l) with (f <$> l) in Hk.
  rewrite list_lookup_fmap in Hk.
  destruct (requestedOf names !! k) as [req|] eqn:Hreq; [|discriminate].
  injection Hk as <-. exists req. split; [reflexivity|].
  destruct (requestedOf_spec names req) as [Hkey Hnb];
    [eapply list_elem_of_lookup_2, Hreq|].
  assert (Hin : Input req <> "") by (intros Hb; rewrite Hb, TrimSpace_nil in Hnb; auto).
  cbn [SName seriesOf]. unfold displayNamesOf.
  destruct (fold_left _ (order (yearlyOf records g).1) ∅ !! Key req)
    as [n|] eqn:Hd; cbn [default from_option id].
  - apply display_fold_Some in Hd as [Hd|(yv & e & Hv & He & ->)];
      [rewrite lookup_empty in Hd; discriminate|].
    rewrite Hperm in Hv. destruct yv as [y m].
    apply elem_of_map_to_list in Hv. cbn [snd] in He.
    destruct (yearly_entry_record records g y m (Key req) e Hv He)
      as (r & Hr & Hkeep & Hrk & Hname).
    assert (Hne : Name e <> "").
    { intros Hb. rewrite Hname in Hb. rewrite Hb, ToUpper_nil in Hrk.
      rewrite Hkey in Hrk. symmetry in Hrk. apply ToUpper_empty in Hrk.
      contradiction. }
    destruct (String.eqb_spec (Name e) "") as [|_]; [contradiction|].
    split; [rewrite Hname; exact Hrk|]. left. exists r.
    split; [exact Hr|]. split; [|auto].
    unfold keepYear in Hkeep. apply andb_true_iff in Hkeep as [Hg _].
    exact Hg.
  - cbn. split; [symmetry; exact Hkey|]. right. split; [|reflexivity].
    apply display_fold_None in Hd as [_ Hv].
    intros r Hr Hg Hrk.
    assert (Hkeep : keepYear g (Year r) r = true).
    { unfold keepYear. unfold passesGender in Hg. fold g in Hg.
      rewrite Hg, Z.eqb_refl. reflexivity. }
    pose proof (yearlyOf_lookup records g (Year r)) as Hl.
    assert (Hex : existsb (keepYear g (Year r)) records = true)
      by (apply existsb_true_exists; eauto).
    rewrite Hex in Hl.
    assert (Hm : groupBy (keepYear g (Year r)) records ∅ !! Key req = None).
    { apply (Hv (Year r, groupBy (keepYear g (Year r)) records ∅)).
      rewrite Hperm. apply elem_of_map_to_list, Hl. }
    assert (Hsome : is_Some (groupBy (keepYear g (Year r)) records ∅ !! Key req)).
    { apply groupBy_is_Some. right. eauto. }
    rewrite Hm in Hsome. destruct Hsome as [x Hx]. discriminate.
Qed.

End WithStrings.

Lemma Trend_series_name_witness :
  exists req : request,
    requestedOf [" olivia "; "Zed"] !! 0%nat = Some req
    /\ ToUpper (SName (mkTrendSeries "Olivia"
                         [mkTrendPoint 2018 2 80 true;
                          mkTrendPoint 2019 1 140 true]))
       = Key req
    /\ ((exists r, r ∈ sampleCA /\ passesGender "" r = true
                   /\ ToUpper (RName r) = Key req
                   /\ SName (mkTrendSeries "Olivia"
                               [mkTrendPoint 2018 2 80 true;
                                mkTrendPoint 2019 1 140 true])
                      = RName r)
        \/ ((forall r, r ∈ sampleCA -> passesGender "" r = true ->
                       ToUpper (RName r) <> Key req)
            /\ SName (mkTrendSeries "Olivia"
                        [mkTrendPoint 2018 2 80 true;
                         mkTrendPoint 2019 1 140 true])
               = Input req)).
Proof.
  apply (Trend_series_name map_to_list sampleCA "" [" olivia "; "Zed"]
           [2018; 2019]
           [mkTrendSeries "Olivia"
              [mkTrendPoint 2018 2 80 true; mkTrendPoint 2019 1 140 true];
            mkTrendSeries "Zed"
              [mkTrendPoint 2018 0 0 false; mkTrendPoint 2019 0 0 false]]
           (yearlyOf sampleCA "").2).
  - reflexivity.
  - vm_compute. reflexivity.
  - reflexivity.
Defined.

Section WithStrings.
Context {strings : Strings}.

(** * The loader and the streaming functions *)

End WithStrings.

Example load_sample : LoadStateRecords sampleFS "ca" = Loaded sampleCA.
Proof. vm_compute. reflexivity. Qed.

Example load_all_sample :
  match LoadAllRecords sampleFS with
  | Loaded records => length records = 11%nat
  | Failed _ => False
  end.
Proof. vm_compute. reflexivity. Qed.

Example aggregate_fs_sample :
  AggregateFromFS sampleFS "CA" 2019 "F"
  = Loaded ([mkNameCount "Olivia" 140; mkNameCount "Emma" 90], 230).
Proof. vm_compute. reflexivity. Qed.

Example random_fs_sample :
  RandomNameFromFS sampleFS "CA" 2019 "F" (mkTape [] [0.25%float; 0.25%float])
  = Loaded (mkNameCount "Emma" 90, 230, mkTape [] []).
Proof. vm_compute. reflexivity. Qed.

Section WithStrings.
Context {strings : Strings}.

(** ** A walk with a callback that never fails is a fold over the records *)

Lemma fold_left_snoc {A B : Type} (f : A -> B -> A) (l : list B) (b : B) (a : A) :
  fold_left f (l ++ [b])%list a = f (fold_left f l a) b.
Proof. rewrite fold_left_app. reflexivity. Qed.

Lemma always_eq {St : Type} (step : St -> Record_ -> St) (st : St)
  (r : Record_) :
  always step st r = (step st r, None).
Proof. reflexivity. Qed.

Lemma appendRecord_eq (records : list Record_) (r : Record_) :
  appendRecord records r = ((records ++ [r])%list, None).
Proof. reflexivity. Qed.

Lemma scanLoop_always {St : Type} (fileName : string)
  (step : St -> Record_ -> St) (lines : list string) (sawRecord : bool)
  (acc : list Record_) (st0 : St) :
  scanLoop fileName (always step) lines sawRecord (fold_left step acc st0)
  = let '(records, saw, err) :=
      scanLoop fileName appendRecord lines sawRecord acc in
    (fold_left step records st0, saw, err).
Proof.
  revert sawRecord acc.
  induction lines as [|text lines IH]; intros sawRecord acc; [reflexivity|].
  cbn [scanLoop].
  destruct (String.eqb (TrimSpace text) ""); [apply IH|].
  destruct (Split (TrimSpace text) ",") as [|p0 [|p1 [|p2 [|p3 [|p4 [|p5 l]]]]]];
    try reflexivity.
  destruct (Atoi p2) as [year|]; [|reflexivity].
  destruct (Atoi p4) as [count|]; [|reflexivity].
  rewrite always_eq, appendRecord_eq, <- IH, fold_left_snoc. reflexivity.
Qed.

Lemma readRecordsFromFile_always {St : Type} (fsys : FS) (fileName : string)
  (step : St -> Record_ -> St) (acc : list Record_) (st0 : St) :
  readRecordsFromFile fsys fileName (always step) (fold_left step acc st0)
  = let '(records, err) := readRecordsFromFile fsys fileName appendRecord acc in
    (fold_left step records st0, err).
Proof.
  unfold readRecordsFromFile.
  destruct (fsOpen fsys fileName) as [file|]; [|reflexivity].
  rewrite scanLoop_always.
  destruct (scanLoop fileName appendRecord (scLines file) false acc)
    as [[records saw] [err|]]; [reflexivity|].
  destruct (scErr file); [reflexivity|]. destruct saw; reflexivity.
Qed.

Lemma walkEntries_always {St : Type} (fsys : FS) (step : St -> Record_ -> St)
  (dirEntries : list dirEntry) (processed : bool) (acc : list Record_)
  (st0 : St) :
  walkEntries fsys (always step) dirEntries processed (fold_left step acc st0)
  = let '(records, done, err) :=
      walkEntries fsys appendRecord dirEntries processed acc in
    (fold_left step records st0, done, err).
Proof.
  revert processed acc.
  induction dirEntries as [|entry rest IH]; intros processed acc;
    [reflexivity|].
  cbn [walkEntries]. destruct (entryIsDir entry); [apply IH|].
  destruct (HasSuffix _ _); cbn [negb]; [|apply IH].
  rewrite readRecordsFromFile_always.
  destruct (readRecordsFromFile fsys (entryName entry) appendRecord acc)
    as [records [err|]]; [reflexivity|]. apply IH.
Qed.

Lemma walkRecords_always {St : Type} (fsys : FS) (state : string)
  (step : St -> Record_ -> St) (st0 : St) :
  walkRecords fsys state (always step) st0
  = let '(records, err) := walkRecords fsys state appendRecord [] in
    (fold_left step records st0, err).
Proof.
  unfold walkRecords.
  destruct (String.eqb (TrimSpace state) ""); cbn [negb].
  - destruct (fsReadDir fsys) as [dirEntries|]; [|reflexivity].
    pose proof (walkEntries_always fsys step dirEntries false [] st0) as Hw.
    cbn [fold_left] in Hw. rewrite Hw.
    destruct (walkEntries fsys appendRecord dirEntries false [])
      as [[records done] [err|]]; [reflexivity|]. destruct done; reflexivity.
  - apply (readRecordsFromFile_always fsys _ step [] st0).
Qed.

(** ** The walk and the loaders read the same records *)

Lemma scanLoop_grows (fileName : string) (lines : list string)
  (sawRecord : bool) (acc : list Record_) :
  exists new : list Record_,
    (scanLoop fileName appendRecord lines sawRecord acc).1.1 = (acc ++ new)%list
    /\ ((scanLoop fileName appendRecord lines sawRecord acc).1.2 = true ->
        sawRecord = true \/ new <> []).
Proof.
  assert (Hstop : forall (saw : bool) (acc : list Record_) (err : loadError),
             exists new : list Record_,
               (acc, saw, Some err).1.1 = (acc ++ new)%list
               /\ ((acc, saw, Some err).1.2 = true -> saw = true \/ new <> [])).
  { intros saw acc' err. exists (@nil Record_). cbn. rewrite app_nil_r. auto. }
  revert sawRecord acc.
  induction lines as [|text lines IH]; intros sawRecord acc.
  - exists (@nil Record_). cbn. rewrite app_nil_r. auto.
  - cbn [scanLoop].
    destruct (String.eqb (TrimSpace text) ""); [apply IH|].
    destruct (Split (TrimSpace text) ",")
      as [|p0 [|p1 [|p2 [|p3 [|p4 [|p5 l]]]]]];
      try apply Hstop.
    destruct (Atoi p2) as [year|]; [|apply Hstop].
    destruct (Atoi p4) as [count|]; [|apply Hstop].
    rewrite appendRecord_eq.
    destruct (IH true (acc ++ [mkRecord p0 p1 year p3 count])%list)
      as (new & Hnew & _).
    exists (mkRecord p0 p1 year p3 count :: new). split.
    + rewrite Hnew, <- app_assoc. reflexivity.
    + intros _. right. discriminate.
Qed.

Lemma readRecordsFromFile_grows (fsys : FS) (fileName : string)
  (acc records : list Record_) :
  readRecordsFromFile fsys fileName appendRecord acc = (records, None) ->
  exists new : list Record_, records = (acc ++ new)%list /\ new <> [].
Proof.
  unfold readRecordsFromFile.
  destruct (fsOpen fsys fileName) as [file|]; [|discriminate].
  destruct (scanLoop_grows fileName (scLines file) false acc)
    as (new & Hnew & Hsaw).
  destruct (scanLoop fileName appendRecord (scLines file) false acc)
    as [[records' saw] [err|]]; [discriminate|].
  destruct (scErr file); [discriminate|].
  destruct saw; [|discriminate]. cbn [negb fst snd] in *.
  intros [= <-]. exists new. split; [exact Hnew|].
  destruct (Hsaw eq_refl) as [|H]; [discriminate|exact H].
Qed.

Lemma walkEntries_loadEntries (fsys : FS) (dirEntries : list dirEntry)
  (processed : bool) (acc : list Record_) :
  (walkEntries fsys appendRecord dirEntries processed acc).1.1
  = (loadEntries fsys dirEntries acc).1
  /\ (walkEntries fsys appendRecord dirEntries processed acc).2
     = (loadEntries fsys dirEntries acc).2
  /\ ((loadEntries fsys dirEntries acc).2 = None ->
      exists new : list Record_,
        (loadEntries fsys dirEntries acc).1 = (acc ++ new)%list
        /\ (walkEntries fsys appendRecord dirEntries processed acc).1.2
           = processed || negb (len new =? 0)).
Proof.
  revert processed acc.
  induction dirEntries as [|entry rest IH]; intros processed acc.
  - cbn. split; [reflexivity|]. split; [reflexivity|]. intros _.
    exists (@nil Record_). rewrite app_nil_r, orb_false_r. auto.
  - cbn [walkEntries loadEntries].
    destruct (entryIsDir entry); [apply IH|].
    destruct (HasSuffix _ _); cbn [negb]; [|apply IH].
    destruct (readRecordsFromFile fsys (entryName entry) appendRecord acc)
      as [records [err|]] eqn:Hread.
    + cbn. split; [reflexivity|]. split; [reflexivity|discriminate].
    + destruct (IH true records) as (H1 & H2 & H3).
      split; [exact H1|]. split; [exact H2|]. intros Hnone.
      destruct (H3 Hnone) as (new & Hnew & Hdone).
      destruct (readRecordsFromFile_grows _ _ _ _ Hread) as (new0 & -> & Hne).
      exists (new0 ++ new)%list. split; [rewrite Hnew, app_assoc; reflexivity|].
      rewrite Hdone. cbn [orb]. destruct new0 as [|x new0]; [contradiction|].
      cbn. rewrite orb_true_r. reflexivity.
Qed.

Lemma loadRecords_walk (fsys : FS) (state : string) :
  loadRecords fsys state
  = match walkRecords fsys state appendRecord [] with
    | (records, None) => Loaded records
    | (_, Some err) => Failed err
    end.
Proof.
  unfold loadRecords, walkRecords.
  destruct (String.eqb (TrimSpace state) "") eqn:Hb; cbn [negb].
  - unfold LoadAllRecords.
    destruct (fsReadDir fsys) as [dirEntries|]; [|reflexivity].
    destruct (walkEntries_loadEntries fsys dirEntries false [])
      as (H1 & H2 & H3).
    destruct (walkEntries fsys appendRecord dirEntries false [])
      as [[records done] err].
    destruct (loadEntries fsys dirEntries []) as [records' err'].
    cbn [fst snd] in *. subst records' err'.
    destruct err as [err|]; [reflexivity|].
    destruct (H3 eq_refl) as (new & -> & ->). cbn [app orb].
    destruct (len new =? 0); reflexivity.
  - unfold LoadStateRecords. rewrite Hb. reflexivity.
Qed.

Lemma loadRecords_nonempty (fsys : FS) (state : string)
  (records : list Record_) :
  loadRecords fsys state = Loaded records -> records <> [].
Proof.
  unfold loadRecords.
  destruct (String.eqb (TrimSpace state) "").
  - unfold LoadAllRecords. destruct (fsReadDir fsys); [|discriminate].
    destruct (loadEntries fsys l []) as [records' [err|]]; [discriminate|].
    destruct (len records' =? 0) eqn:Hlen; [discriminate|].
    intros [= <-] ->. discriminate.
  - unfold LoadStateRecords.
    destruct (String.eqb (TrimSpace state) ""); [discriminate|].
    unfold loadRecordsFromFile.
    destruct (readRecordsFromFile fsys _ appendRecord [])
      as [records' [err|]] eqn:Hread; [discriminate|].
    intros [= <-].
    destruct (readRecordsFromFile_grows _ _ _ _ Hread) as (new & -> & Hne).
    exact Hne.
Qed.

Lemma walk_fold (fsys : FS) (state : string) {St : Type}
  (step : St -> Record_ -> St) (st : St) :
  match loadRecords fsys state with
  | Loaded records =>
      walkRecords fsys state (always step) st = (fold_left step records st, None)
  | Failed err => (walkRecords fsys state (always step) st).2 = Some err
  end.
Proof.
  rewrite loadRecords_walk, walkRecords_always.
  destruct (walkRecords fsys state appendRecord []) as [records [err|]];
    reflexivity.
Qed.

(** X13. The streaming walk and the loaders agree: for a callback that
    never fails, [walkRecords] fails exactly when loading the same state
    ([LoadAllRecords] for a blank state, [LoadStateRecords] of the trimmed
    state otherwise) fails, with the same error; and when loading succeeds
    the list is not empty and the walk has called the callback on exactly
    its records, in order. *)
Theorem walkRecords_loadRecords (fsys : FS) (state : string) {St : Type}
  (step : St -> Record_ -> St) (st : St) :
  match loadRecords fsys state with
  | Loaded records =>
      records <> []
      /\ walkRecords fsys state (always step) st
         = (fold_left step records st, None)
  | Failed err => (walkRecords fsys state (always step) st).2 = Some err
  end.
Proof.
  pose proof (walk_fold fsys state step st) as Hw.
  pose proof (loadRecords_nonempty fsys state) as Hne.
  destruct (loadRecords fsys state) as [records|err]; [|exact Hw].
  split; [apply Hne; reflexivity|exact Hw].
Qed.

(** ** AggregateFromFS and AggregateNames *)

Lemma countRecord_step (year : Z) (gender : string) (r : Record_)
  (st : fsTotals) (m : gmap string NameCount) :
  fsCounts st = Count <$> m -> fsDisplay st = Name <$> m ->
  let st' := countRecord year (ToUpper (TrimSpace gender)) st r in
  let m' := if positive r && passes year gender r then addRecord m r else m in
  fsCounts st' = Count <$> m'
  /\ fsDisplay st' = Name <$> m'
  /\ fsTotal st'
     = if positive r && passes year gender r
       then add64 (fsTotal st) (RCount r) else fsTotal st.
Proof.
  intros Hc Hd. cbn zeta. unfold countRecord, passes, positive.
  destruct (skipYear year r); cbn [negb andb];
    [rewrite andb_false_r; auto|].
  destruct (skipGender _ r); cbn [negb andb];
    [rewrite andb_false_r; auto|].
  rewrite andb_true_r.
  destruct (Z.leb_spec (RCount r) 0) as [Hle|Hlt].
  { destruct (Z.ltb_spec 0 (RCount r)); [lia|auto]. }
  destruct (Z.ltb_spec 0 (RCount r)); [|lia]. cbn [fsCounts fsDisplay fsTotal].
  split; [|split; [|reflexivity]].
  - unfold addRecord. rewrite fmap_insert, Hc, lookup_fmap. cbn [Count].
    destruct (m !! ToUpper (RName r)); reflexivity.
  - unfold addRecord. rewrite fmap_insert, Hd, lookup_fmap. cbn [Name].
    destruct (m !! ToUpper (RName r)) as [e|] eqn:He;
      cbn [fmap option_fmap option_map default from_option id Name];
      [|reflexivity].
    symmetry. apply insert_id. rewrite lookup_fmap, He. reflexivity.
Qed.

Lemma countRecord_fold (year : Z) (gender : string) (records : list Record_)
  (st : fsTotals) (m : gmap string NameCount) :
  fsCounts st = Count <$> m -> fsDisplay st = Name <$> m ->
  let st' := fold_left (countRecord year (ToUpper (TrimSpace gender))) records st in
  let keep := fun r => positive r && passes year gender r in
  fsCounts st' = Count <$> groupBy keep records m
  /\ fsDisplay st' = Name <$> groupBy keep records m
  /\ fsTotal st'
     = fold_left add64 (RCount <$> List.filter keep records) (fsTotal st).
Proof.
  cbn zeta. revert st m.
  induction records as [|r records IH]; intros st m Hc Hd; [auto|].
  cbn [fold_left List.filter].
  rewrite (groupBy_cons (fun r => positive r && passes year gender r)).
  destruct (countRecord_step year gender r st m Hc Hd) as (Hc' & Hd' & Ht').
  cbn zeta in *.
  destruct (IH _ _ Hc' Hd') as (Hc'' & Hd'' & Ht'').
  split; [exact Hc''|]. split; [exact Hd''|]. rewrite Ht'', Ht'.
  destruct (positive r && passes year gender r); reflexivity.
Qed.

Lemma fsEntries_entriesOf (st : fsTotals) (m : gmap string NameCount) :
  fsCounts st = Count <$> m -> fsDisplay st = Name <$> m ->
  fsEntries st = entriesOf m.
Proof.
  intros Hc Hd. unfold fsEntries, entriesOf.
  rewrite Hc, Hd, map_to_list_fmap, <- list_fmap_compose.
  apply list_fmap_ext. intros i [k e] Hi.
  apply list_elem_of_lookup_2, elem_of_map_to_list in Hi.
  cbn. rewrite lookup_fmap, Hi. cbn. destruct e; reflexivity.
Qed.

Lemma countRecord_aggregated (year : Z) (gender : string)
  (records : list Record_) :
  let st := fold_left (countRecord year (ToUpper (TrimSpace gender))) records
              (mkFsTotals ∅ ∅ 0) in
  let kept := List.filter positive records in
  sortSlice (fsEntries st) = (AggregateNames kept year gender).1
  /\ fsTotal st = sumCounts (AggregateNames kept year gender).1.
Proof.
  cbn zeta.
  destruct (countRecord_fold year gender records (mkFsTotals ∅ ∅ 0) ∅)
    as (Hc & Hd & Ht);
    [cbn; rewrite fmap_empty; reflexivity
    |cbn; rewrite fmap_empty; reflexivity|].
  cbn zeta in *. cbn [fsTotal] in Ht.
  rewrite (fsEntries_entriesOf _ _ Hc Hd), Ht.
  rewrite aggregated_sum, filter_filter.
  unfold AggregateNames. cbn [fst].
  rewrite groupTotals_groupBy, groupBy_filter. split; reflexivity.
Qed.

(** X14. [AggregateFromFS] fails with the error of the loader when loading
    the same state fails; otherwise it returns the list [AggregateNames]
    returns for the loaded records that have a positive count, and the sum
    of the counts of that list, or "no matching records" when that sum
    is 0. *)
Theorem AggregateFromFS_AggregateNames (fsys : FS) (state : string) (year : Z)
  (gender : string) :
  match loadRecords fsys state with
  | Loaded records =>
      let kept := List.filter positive records in
      AggregateFromFS fsys state year gender
      = if sumCounts (AggregateNames kept year gender).1 =? 0
        then Failed (ErrEngine ErrNoMatchingRecords)
        else Loaded ((AggregateNames kept year gender).1,
                     sumCounts (AggregateNames kept year gender).1)
  | Failed err => AggregateFromFS fsys state year gender = Failed err
  end.
Proof.
  unfold AggregateFromFS.
  pose proof (walk_fold fsys state
                (countRecord year (ToUpper (TrimSpace gender)))
                (mkFsTotals ∅ ∅ 0)) as Hw.
  destruct (loadRecords fsys state) as [records|err].
  - rewrite Hw. cbn zeta.
    destruct (countRecord_aggregated year gender records) as [Hagg Htot].
    cbn zeta in *. rewrite Hagg, Htot. reflexivity.
  - destruct (walkRecords fsys state _ _) as [st [e|]]; cbn [snd] in Hw;
      [|discriminate].
    injection Hw as ->. reflexivity.
Qed.

(** ** From AggregateFromFS to the sampler *)

Lemma sumZ_filter_le (c : Record_ -> bool) (l : list Record_) :
  (forall r, r ∈ l -> 0 <= RCount r) ->
  0 <= sumZ (RCount <$> List.filter c l) <= sumZ (RCount <$> l).
Proof.
  induction l as [|r l IH]; intros Hpos; [cbn; lia|].
  assert (Hr : 0 <= RCount r) by (apply Hpos; left).
  assert (Hl : forall x, x ∈ l -> 0 <= RCount x)
    by (intros x Hx; apply Hpos; right; exact Hx).
  specialize (IH Hl). cbn [List.filter].
  destruct (c r); cbn [fmap list_fmap]; rewrite ?sumZ_cons;
    fold (fmap RCount l); fold (fmap RCount (List.filter c l)); lia.
Qed.

Lemma sumZ_elem_le (l : list Record_) (r : Record_) :
  (forall x, x ∈ l -> 0 <= RCount x) -> r ∈ l ->
  RCount r <= sumZ (RCount <$> l).
Proof.
  induction l as [|x l IH]; intros Hpos Hin; [inversion Hin|].
  assert (Hx : 0 <= RCount x) by (apply Hpos; left).
  assert (Hl : forall y, y ∈ l -> 0 <= RCount y)
    by (intros y Hy; apply Hpos; right; exact Hy).
  cbn [fmap list_fmap]. rewrite sumZ_cons. fold (fmap RCount l).
  apply elem_of_cons in Hin as [->|Hin].
  - pose proof (sumZ_filter_le (fun _ => true) l Hl) as H.
    rewrite filter_all in H by auto. lia.
  - specialize (IH Hl Hin). lia.
Qed.

Lemma elem_of_filter_list {A : Type} (f : A -> bool) (l : list A) (x : A) :
  x ∈ List.filter f l <-> x ∈ l /\ f x = true.
Proof. rewrite !list_elem_of_In. apply filter_In. Qed.

(** X15. The pipeline of the command [generate]: when the positive counts
    that pass the filters add up without overflow, a list returned by
    [AggregateFromFS] has positive counts only, its total is their exact
    sum, and [NewNameSampler] accepts the list and builds a sampler over it
    with the same total. *)
Theorem AggregateFromFS_sampler (fsys : FS) (state : string) (year : Z)
  (gender : string) (records : list Record_) (aggregated : list NameCount)
  (sum : Z) :
  loadRecords fsys state = Loaded records ->
  sumZ (RCount <$> drawable year gender records) < 2 ^ 63 ->
  AggregateFromFS fsys state year gender = Loaded (aggregated, sum) ->
  Forall (fun e => 0 < Count e) aggregated
  /\ sum = sumZ (RCount <$> drawable year gender records)
  /\ 0 < sum
  /\ exists s : NameSampler,
       NewNameSampler aggregated = Ok s
       /\ entries s = aggregated /\ total s = sum.
Proof.
  unfold drawable. intros Hload Hbound. unfold AggregateFromFS.
  pose proof (walk_fold fsys state
                (countRecord year (ToUpper (TrimSpace gender)))
                (mkFsTotals ∅ ∅ 0)) as Hw.
  rewrite Hload in Hw. rewrite Hw. cbn zeta.
  destruct (countRecord_aggregated year gender records) as [Hagg Htot].
  cbn zeta in *. rewrite Hagg, Htot.
  set (kept := List.filter positive records) in *.
  set (agg := (AggregateNames kept year gender).1) in *.
  destruct (Z.eqb_spec (sumCounts agg) 0) as [|Hne]; [discriminate|].
  intros [= <- <-].
  assert (Hkept : forall r, r ∈ List.filter (passes year gender) kept ->
                            0 <= RCount r).
  { intros r [Hr _]%elem_of_filter_list.
    apply elem_of_filter_list in Hr as [_ Hp]. unfold positive in Hp.
    apply Z.ltb_lt in Hp. lia. }
  assert (Hall : List.filter (fun r => positive r && passes year gender r)
                   records
                 = List.filter (passes year gender) kept)
    by (unfold kept; rewrite filter_filter; reflexivity).
  rewrite Hall in *.
  assert (Hsum : sumCounts agg
                 = sumZ (RCount <$> List.filter (passes year gender) kept)).
  { unfold agg. rewrite aggregated_sum. unfold sumRecordCounts.
    rewrite sum64_wrap. apply wrap64_id.
    pose proof (sumZ_filter_le (fun _ => true) _ Hkept) as H.
    unfold inInt64. lia. }
  assert (Hcounts : Forall (fun e => 0 < Count e) agg).
  { apply Forall_forall. intros e He.
    rewrite (aggregated_count kept year gender e He).
    unfold aggregatedCount, sumRecordCounts. rewrite sum64_wrap.
    rewrite <- (filter_filter (carries (Name e)) (passes year gender)).
    pose proof (sumZ_filter_le (carries (Name e)) _ Hkept) as Hle.
    destruct (proj1 (aggregated_has_key kept year gender (ToUpper (Name e))))
      as (r & Hr & Hp & Hk); [eauto|].
    assert (Hin : r ∈ List.filter (carries (Name e))
                        (List.filter (passes year gender) kept)).
    { apply elem_of_filter_list. split.
      - apply elem_of_filter_list. auto.
      - apply carries_iff, Hk. }
    assert (Hpos : 0 < RCount r).
    { apply elem_of_filter_list in Hr as [_ Hr]. apply Z.ltb_lt, Hr. }
    assert (Hge : RCount r
                  <= sumZ (RCount <$>
                           List.filter (carries (Name e))
                             (List.filter (passes year gender) kept))).
    { apply sumZ_elem_le; [|exact Hin].
      intros x [Hx _]%elem_of_filter_list. apply Hkept, Hx. }
    rewrite wrap64_id by (unfold inInt64; lia). lia. }
  split; [exact Hcounts|]. split; [exact Hsum|].
  assert (Hnonneg : 0 <= sumCounts agg).
  { rewrite Hsum. pose proof (sumZ_filter_le (fun _ => true) _ Hkept). lia. }
  split; [lia|].
  destruct (NewNameSampler_ok agg) as (s & Hs & He & Ht & _).
  - intros Hnil. rewrite Hnil in Hne. apply Hne. reflexivity.
  - eapply Forall_impl; [exact Hcounts|]. cbn. intros; lia.
  - exact Hne.
  - exists s. auto.
Qed.

End WithStrings.

Lemma AggregateFromFS_sampler_witness :
  Forall (fun e => 0 < Count e) [mkNameCount "Olivia" 140; mkNameCount "Emma" 90]
  /\ 230 = sumZ (RCount <$> drawable 2019 "F" sampleCA)
  /\ 0 < 230
  /\ exists s : NameSampler,
       NewNameSampler [mkNameCount "Olivia" 140; mkNameCount "Emma" 90] = Ok s
       /\ entries s = [mkNameCount "Olivia" 140; mkNameCount "Emma" 90]
       /\ total s = 230.
Proof.
  apply (AggregateFromFS_sampler sampleFS "CA" 2019 "F" sampleCA).
  - vm_compute. reflexivity.
  - vm_compute. reflexivity.
  - vm_compute. reflexivity.
Defined.

Section WithStrings.
Context {strings : Strings}.

(** ** RandomNameFromFS *)

Lemma countCandidate_fold (year : Z) (gender name : string)
  (records : list Record_) (aggCount : Z) :
  fold_left (countCandidate year (ToUpper (TrimSpace gender)) (ToUpper name))
    records aggCount
  = fold_left add64
      (RCount <$>
       List.filter (fun r => passes year gender r && carries name r) records)
      aggCount.
Proof.
  revert aggCount. induction records as [|r records IH]; intros aggCount;
    [reflexivity|].
  cbn [fold_left List.filter]. rewrite IH.
  unfold countCandidate, passes, carries.
  destruct (skipYear year r); [reflexivity|].
  destruct (skipGender _ r); [reflexivity|].
  destruct (String.eqb _ _); reflexivity.
Qed.

Section StreamingDraw.
Context {rng : Type} `{!RandSource rng}.

Lemma drawRecord_skip (year : Z) (gender : string) (st : fsDraw rng)
  (r : Record_) :
  positive r && passes year gender r = false ->
  drawRecord year (ToUpper (TrimSpace gender)) st r = st.
Proof.
  unfold drawRecord, passes, positive.
  destruct (skipYear year r); [reflexivity|].
  destruct (skipGender _ r); [reflexivity|]. cbn [negb andb].
  rewrite andb_true_r. intros Hp%Z.ltb_ge.
  destruct (Z.leb_spec (RCount r) 0); [reflexivity|lia].
Qed.

Lemma drawRecord_keep (year : Z) (gender : string) (st : fsDraw rng)
  (r : Record_) :
  positive r && passes year gender r = true ->
  drawRecord year (ToUpper (TrimSpace gender)) st r
  = if add64 (drTotal st) (RCount r) <=? 0
    then mkFsDraw (add64 (drTotal st) (RCount r)) (drCandidate st)
           (drChosen st) (drRng st)
    else if negb (drChosen st)
    then mkFsDraw (add64 (drTotal st) (RCount r)) (RName r) true (drRng st)
    else
      let '(f, r') := Float64 (drRng st) in
      if (f <? Z2float (RCount r)
               / Z2float (add64 (drTotal st) (RCount r)))%float
      then mkFsDraw (add64 (drTotal st) (RCount r)) (RName r) true r'
      else mkFsDraw (add64 (drTotal st) (RCount r)) (drCandidate st) true r'.
Proof.
  unfold drawRecord, passes, positive.
  intros [Hp%Z.ltb_lt [Hy%negb_true_iff Hg%negb_true_iff]%andb_true_iff]%andb_true_iff.
  rewrite Hy, Hg. destruct (Z.leb_spec (RCount r) 0); [lia|reflexivity].
Qed.

Lemma drawRecord_fold (year : Z) (gender : string) (records : list Record_)
  (st : fsDraw rng) :
  let st' := fold_left (drawRecord year (ToUpper (TrimSpace gender))) records st in
  let keep := fun r => positive r && passes year gender r in
  drTotal st'
  = fold_left add64 (RCount <$> List.filter keep records) (drTotal st)
  /\ (drChosen st' = true ->
      (drChosen st = true /\ drCandidate st' = drCandidate st)
      \/ exists rec, rec ∈ records /\ keep rec = true
                     /\ drCandidate st' = RName rec).
Proof.
  cbn zeta. revert st. induction records as [|r records IH]; intros st.
  - cbn. auto.
  - cbn [fold_left List.filter].
    destruct (IH (drawRecord year (ToUpper (TrimSpace gender)) st r))
      as [Ht Hc].
    destruct (positive r && passes year gender r) eqn:Hk.
    + rewrite drawRecord_keep in * by exact Hk. cbn [fmap list_fmap fold_left].
      split.
      * rewrite Ht. f_equal.
        destruct (_ <=? 0); [reflexivity|].
        destruct (negb (drChosen st)); [reflexivity|].
        destruct (Float64 (drRng st)) as [f r'].
        destruct (_ <? _)%float; reflexivity.
      * intros Hch. destruct (Hc Hch) as [[Hch' Hcand]|(rec & Hin & Hkeep & Hcand)].
        -- rewrite Hcand. clear Ht Hc Hcand Hch.
           destruct (_ <=? 0); [left; auto|].
           destruct (drChosen st); cbn [negb] in *;
             [|right; exists r; split; [left|auto]].
           destruct (Float64 (drRng st)) as [f r'].
           destruct (_ <? _)%float; [|left; auto].
           right. exists r. split; [left|auto].
        -- right. exists rec. split; [right; exact Hin|auto].
    + rewrite drawRecord_skip in * by exact Hk. split; [exact Ht|].
      intros Hch. destruct (Hc Hch) as [H|(rec & Hin & Hkeep & Hcand)];
        [left; exact H|].
      right. exists rec. split; [right; exact Hin|auto].
Qed.

(** Without overflow: the total is the exact sum, a candidate is chosen as
    soon as a record is kept, and every kept record after the first costs
    one draw. *)
Lemma drawRecord_fold_exact (year : Z) (gender : string)
  (records : list Record_) (st : fsDraw rng) :
  let st' := fold_left (drawRecord year (ToUpper (TrimSpace gender))) records st in
  let kept :=
    List.filter (fun r => positive r && passes year gender r) records in
  0 <= drTotal st ->
  drTotal st + sumZ (RCount <$> kept) < 2 ^ 63 ->
  drTotal st' = drTotal st + sumZ (RCount <$> kept)
  /\ drChosen st' = drChosen st || negb (len kept =? 0)
  /\ drRng st'
     = Nat.iter (if drChosen st then length kept else pred (length kept))
         (fun r => (Float64 r).2) (drRng st).
Proof.
  cbn zeta. revert st. induction records as [|r records IH]; intros st H0 Hb.
  - cbn. rewrite orb_false_r. destruct (drChosen st); split; auto with zarith.
  - cbn [fold_left List.filter] in *.
    destruct (positive r && passes year gender r) eqn:Hk.
    + assert (Hpos : 0 < RCount r).
      { apply andb_true_iff in Hk as [Hp _]. apply Z.ltb_lt, Hp. }
      cbn [fmap list_fmap] in Hb. rewrite sumZ_cons in Hb.
      fold (fmap (M := list) RCount) in Hb.
      set (kept := List.filter
                     (fun r => positive r && passes year gender r) records) in *.
      assert (Hrest : 0 <= sumZ (RCount <$> kept)).
      { apply sumZ_nonneg, Forall_fmap, Forall_forall.
        intros x Hx. unfold kept in Hx.
        apply elem_of_filter_list in Hx as [_ Hx].
        apply andb_true_iff in Hx as [Hp _]. apply Z.ltb_lt in Hp.
        cbn. lia. }
      assert (Hadd : add64 (drTotal st) (RCount r) = drTotal st + RCount r).
      { unfold add64. apply wrap64_id. unfold inInt64. lia. }
      rewrite drawRecord_keep by exact Hk. rewrite Hadd.
      destruct (Z.leb_spec (drTotal st + RCount r) 0) as [|_]; [lia|].
      cbn [fmap list_fmap]. rewrite sumZ_cons.
      fold (fmap (M := list) RCount).
      assert (Hlen : (len (r :: kept) =? 0) = false).
      { unfold len. cbn [length]. apply Z.eqb_neq. lia. }
      rewrite Hlen. cbn [negb]. rewrite orb_true_r. cbn [length pred].
      destruct (drChosen st); cbn [negb].
      * destruct (Float64 (drRng st)) as [f r'] eqn:Hf.
        assert (Hr' : r' = (Float64 (drRng st)).2) by (rewrite Hf; reflexivity).
        destruct (_ <? _)%float;
          match goal with
          | |- context [fold_left _ records ?s] =>
              destruct (IH s) as (Ht & Hc & Hr); [cbn; lia|cbn; lia|]
          end;
          cbn [drTotal drChosen drRng orb] in *;
          rewrite Ht, Hc, Hr, Hr', Nat.iter_succ_r; split; auto with zarith.
      * destruct (IH (mkFsDraw (drTotal st + RCount r) (RName r) true (drRng st)))
          as (Ht & Hc & Hr); [cbn; lia|cbn; lia|].
        cbn [drTotal drChosen drRng orb] in *.
        rewrite Ht, Hc, Hr. split; auto with zarith.
    + rewrite drawRecord_skip by exact Hk. apply IH; assumption.
Qed.
End StreamingDraw.

Section StreamingDrawOutcome.
Context {rng : Type} `{!RandSource rng}.

(** X16. [RandomNameFromFS] fails with the error of the loader when loading
    the same state fails.  When it succeeds, the total is the sum of the
    positive counts that pass the filters and is not 0, the name is the
    spelling of one of the records with a positive count that pass the
    filters, and the count is the sum of the counts of all the records that
    pass the filters and carry the name, those of count 0 or less included.
    Otherwise the error is "no matching records": no record with a positive
    count passes the filters, or their sum overflows. *)
Theorem RandomNameFromFS_outcome (fsys : FS) (state : string) (year : Z)
  (gender : string) (r : rng) :
  match loadRecords fsys state with
  | Failed err => RandomNameFromFS fsys state year gender r = Failed err
  | Loaded records =>
      match RandomNameFromFS fsys state year gender r with
      | Loaded (e, sum, r') =>
          sum = sumRecordCounts (drawable year gender records)
          /\ sum <> 0
          /\ (exists rec, rec ∈ drawable year gender records
                          /\ Name e = RName rec)
          /\ Count e = aggregatedCount records year gender (Name e)
      | Failed err =>
          err = ErrEngine ErrNoMatchingRecords
          /\ (drawable year gender records = []
              \/ 2 ^ 63 <= sumZ (RCount <$> drawable year gender records))
      end
  end.
Proof.
  unfold RandomNameFromFS.
  pose proof (walk_fold fsys state
                (drawRecord year (ToUpper (TrimSpace gender)))
                (mkFsDraw 0 "" false r)) as Hw.
  destruct (loadRecords fsys state) as [records|err] eqn:Hload.
  - rewrite Hw. cbn zeta.
    set (st := fold_left (drawRecord year (ToUpper (TrimSpace gender)))
                 records (mkFsDraw 0 "" false r)).
    destruct (drawRecord_fold year gender records (mkFsDraw 0 "" false r))
      as [Htot Hcand].
    cbn zeta in Htot, Hcand. fold st in Htot, Hcand.
    cbn [drTotal drChosen] in Htot, Hcand.
    destruct (negb (drChosen st) || (drTotal st =? 0)) eqn:Hfail.
    + split; [reflexivity|].
      destruct (drawable year gender records) as [|rec kept] eqn:Hkept;
        [left; reflexivity|].
      right. destruct (Z.le_gt_cases (2 ^ 63) (sumZ (RCount <$> rec :: kept)))
        as [Hle|Hlt]; [exact Hle|exfalso].
      destruct (drawRecord_fold_exact year gender records
                  (mkFsDraw 0 "" false r)) as (Ht & Hc & _);
        [cbn; lia|unfold drawable in Hkept; rewrite Hkept; cbn [drTotal]; lia|].
      cbn zeta in Ht, Hc. fold st in Ht, Hc. unfold drawable in Hkept.
      rewrite Hkept in Ht, Hc. cbn [drTotal drChosen orb] in Ht, Hc.
      assert (Hpos : 0 < RCount rec).
      { assert (Hin : rec ∈ List.filter
                                (fun r => positive r && passes year gender r)
                                records) by (rewrite Hkept; left).
        apply elem_of_filter_list in Hin as [_ Hin].
        apply andb_true_iff in Hin as [Hp _]. apply Z.ltb_lt, Hp. }
      assert (Hrest : 0 <= sumZ (RCount <$> kept)).
      { apply sumZ_nonneg, Forall_fmap, Forall_forall. intros x Hx.
        assert (Hin : x ∈ List.filter
                              (fun r => positive r && passes year gender r)
                              records) by (rewrite Hkept; right; exact Hx).
        apply elem_of_filter_list in Hin as [_ Hin].
        apply andb_true_iff in Hin as [Hp _]. apply Z.ltb_lt in Hp.
        cbn. lia. }
      cbn [fmap list_fmap] in Ht. rewrite sumZ_cons in Ht.
      fold (fmap (M := list) RCount) in Ht.
      rewrite Hc in Hfail. unfold len in Hfail. cbn [length] in Hfail.
      destruct (Z.eqb_spec (Z.of_nat (S (length kept))) 0); [lia|].
      cbn [negb orb] in Hfail. apply Z.eqb_eq in Hfail. lia.
    + apply orb_false_iff in Hfail as [Hch%negb_false_iff Hne%Z.eqb_neq].
      pose proof (walk_fold fsys state
                    (countCandidate year (ToUpper (TrimSpace gender))
                       (ToUpper (drCandidate st))) 0) as Hw2.
      rewrite Hload in Hw2. rewrite Hw2. cbn [Name Count].
      split; [exact Htot|]. split; [exact Hne|]. split.
      * destruct (Hcand Hch) as [[Hf _]|(rec & Hin & Hkeep & Hname)];
          [discriminate|].
        exists rec. split; [|exact Hname].
        apply elem_of_filter_list. auto.
      * apply countCandidate_fold.
  - destruct (walkRecords fsys state _ _) as [st [e|]]; cbn [snd] in Hw;
      [|discriminate].
    injection Hw as ->. reflexivity.
Qed.

(** X17. When some record with a positive count passes the filters and the
    positive counts that pass add up without overflow, [RandomNameFromFS]
    succeeds, its total is their exact sum, and it draws one [Float64] for
    each such record after the first: with a single such record it returns
    that record's name and leaves the source untouched. *)
Theorem RandomNameFromFS_draws (fsys : FS) (state : string) (year : Z)
  (gender : string) (r : rng) (records : list Record_) :
  loadRecords fsys state = Loaded records ->
  drawable year gender records <> [] ->
  sumZ (RCount <$> drawable year gender records) < 2 ^ 63 ->
  exists e : NameCount,
    RandomNameFromFS fsys state year gender r
    = Loaded (e, sumZ (RCount <$> drawable year gender records),
              Nat.iter (pred (length (drawable year gender records)))
                (fun r => (Float64 r).2) r)
    /\ (exists rec, rec ∈ drawable year gender records /\ Name e = RName rec)
    /\ 0 < sumZ (RCount <$> drawable year gender records).
Proof.
  intros Hload Hne Hb. unfold RandomNameFromFS.
  pose proof (walk_fold fsys state
                (drawRecord year (ToUpper (TrimSpace gender)))
                (mkFsDraw 0 "" false r)) as Hw.
  rewrite Hload in Hw. rewrite Hw. cbn zeta.
  set (st := fold_left (drawRecord year (ToUpper (TrimSpace gender)))
               records (mkFsDraw 0 "" false r)).
  destruct (drawRecord_fold year gender records (mkFsDraw 0 "" false r))
    as [_ Hcand].
  destruct (drawRecord_fold_exact year gender records (mkFsDraw 0 "" false r))
    as (Ht & Hc & Hr); [cbn; lia|exact Hb|].
  cbn zeta in Hcand, Ht, Hc, Hr. fold st in Hcand, Ht, Hc, Hr.
  fold (drawable year gender records) in Ht, Hc, Hr.
  cbn [drTotal drChosen drRng orb] in Hcand, Ht, Hc, Hr.
  assert (Hpos : 0 < sumZ (RCount <$> drawable year gender records)).
  { destruct (drawable year gender records) as [|rec kept] eqn:Hkept;
      [contradiction|].
    assert (Hall : forall x, x ∈ rec :: kept -> 0 < RCount x).
    { intros x Hx. rewrite <- Hkept in Hx. unfold drawable in Hx.
      apply elem_of_filter_list in Hx as [_ Hx].
      apply andb_true_iff in Hx as [Hp _]. apply Z.ltb_lt, Hp. }
    assert (Hrest : 0 <= sumZ (RCount <$> kept)).
    { apply sumZ_nonneg, Forall_fmap, Forall_forall. intros x Hx.
      specialize (Hall x ltac:(right; exact Hx)). cbn. lia. }
    cbn [fmap list_fmap]. rewrite sumZ_cons.
    fold (fmap (M := list) RCount).
    specialize (Hall rec ltac:(left)). lia. }
  assert (Hlen : (len (drawable year gender records) =? 0) = false).
  { apply Z.eqb_neq. unfold len.
    destruct (drawable year gender records); [contradiction|]. cbn. lia. }
  rewrite Hlen in Hc. cbn [negb] in Hc. rewrite Hc. cbn [negb orb].
  destruct (Z.eqb_spec (drTotal st) 0) as [|_]; [lia|].
  pose proof (walk_fold fsys state
                (countCandidate year (ToUpper (TrimSpace gender))
                   (ToUpper (drCandidate st))) 0) as Hw2.
  rewrite Hload in Hw2. rewrite Hw2, Ht, Hr.
  eexists. split; [reflexivity|]. split; [|exact Hpos]. cbn [Name].
  destruct (Hcand Hc) as [[Hf _]|(rec & Hin & Hkeep & Hname)];
    [discriminate|].
  exists rec. split; [|exact Hname].
  apply elem_of_filter_list. auto.
Qed.
End StreamingDrawOutcome.

End WithStrings.

Lemma RandomNameFromFS_draws_witness :
  exists e : NameCount,
    RandomNameFromFS sampleFS "CA" 2019 "F"
      (mkTape [] [0.25%float; 0.25%float; 0.5%float])
    = Loaded (e, sumZ (RCount <$> drawable 2019 "F" sampleCA),
              Nat.iter (pred (length (drawable 2019 "F" sampleCA)))
                (fun r => (Float64 r).2)
                (mkTape [] [0.25%float; 0.25%float; 0.5%float]))
    /\ (exists rec, rec ∈ drawable 2019 "F" sampleCA /\ Name e = RName rec)
    /\ 0 < sumZ (RCount <$> drawable 2019 "F" sampleCA).
Proof.
  apply (RandomNameFromFS_draws sampleFS "CA" 2019 "F"
           (mkTape [] [0.25%float; 0.25%float; 0.5%float]) sampleCA).
  - vm_compute. reflexivity.
  - vm_compute. discriminate.
  - vm_compute. reflexivity.
Defined.

Section WithStrings.
Context {strings : Strings}.

(** ** What a successful load holds *)

Lemma snoc_fold (acc records : list Record_) :
  fold_left (fun records r => (records ++ [r])%list) records acc
  = (acc ++ records)%list.
Proof.
  revert acc. induction records as [|r records IH]; intros acc.
  - cbn. rewrite app_nil_r. reflexivity.
  - cbn [fold_left]. rewrite IH, <- app_assoc. reflexivity.
Qed.

Lemma scanLoop_from (fileName : string) (lines : list string)
  (sawRecord : bool) (acc : list Record_) :
  scanLoop fileName appendRecord lines sawRecord acc
  = let '(records, saw, err) :=
      scanLoop fileName appendRecord lines sawRecord [] in
    ((acc ++ records)%list, saw, err).
Proof.
  pose proof (scanLoop_always fileName
                (fun records r => (records ++ [r])%list)
                lines sawRecord [] acc) as H.
  cbn [fold_left] in H. fold appendRecord in H. rewrite H.
  destruct (scanLoop fileName appendRecord lines sawRecord [])
    as [[records saw] err].
  rewrite snoc_fold. reflexivity.
Qed.

Lemma readRecordsFromFile_from (fsys : FS) (fileName : string)
  (acc : list Record_) :
  readRecordsFromFile fsys fileName appendRecord acc
  = let '(records, err) := readRecordsFromFile fsys fileName appendRecord [] in
    ((acc ++ records)%list, err).
Proof.
  pose proof (readRecordsFromFile_always fsys fileName
                (fun records r => (records ++ [r])%list) [] acc) as H.
  cbn [fold_left] in H. fold appendRecord in H. rewrite H.
  destruct (readRecordsFromFile fsys fileName appendRecord [])
    as [records err].
  rewrite snoc_fold. reflexivity.
Qed.

Lemma lineRecord_fun (text : string) (r r' : Record_) :
  lineRecord text r -> lineRecord text r' -> r = r'.
Proof.
  intros (y & c & Hs & Hy & Hc) (y' & c' & Hs' & Hy' & Hc').
  rewrite Hs in Hs'. injection Hs' as H1 H2 H3 H4 H5. subst y' c'.
  rewrite Hy in Hy'. rewrite Hc in Hc'.
  destruct r, r'. cbn in *. congruence.
Qed.

Lemma scanLoop_loaded (fileName : string) (lines : list string)
  (sawRecord : bool) (records : list Record_) (saw : bool) :
  scanLoop fileName appendRecord lines sawRecord [] = (records, saw, None)
  <-> Forall2 lineRecord (List.filter notBlank lines) records
      /\ saw = sawRecord || negb (len records =? 0).
Proof.
  revert sawRecord records saw.
  induction lines as [|text lines IH]; intros sawRecord records saw.
  - cbn [scanLoop List.filter]. split.
    + intros [= <- <-]. split; [constructor|]. cbn. rewrite orb_false_r.
      reflexivity.
    + intros [H ->]. inversion H. subst. cbn. rewrite orb_false_r.
      reflexivity.
  - cbn [scanLoop List.filter]. unfold notBlank at 1.
    destruct (String.eqb (TrimSpace text) "") eqn:Hb; cbn [negb]; [apply IH|].
    destruct (Split (TrimSpace text) ",") as [|p0 [|p1 [|p2 [|p3 [|p4 [|p5 l]]]]]]
      eqn:Hsplit;
      try (split; [discriminate|];
           intros [H _]; inversion H as [|? r ? ? (y & c & Hs & _) ?]; subst;
           rewrite Hsplit in Hs; discriminate).
    destruct (Atoi p2) as [year|] eqn:Hy.
    2:{ split; [discriminate|].
        intros [H _]. inversion H as [|? r ? ? (y & c & Hs & Hy' & _) ?]; subst.
        rewrite Hsplit in Hs. injection Hs as _ _ <- _ _. congruence. }
    destruct (Atoi p4) as [count|] eqn:Hc.
    2:{ split; [discriminate|].
        intros [H _]. inversion H as [|? r ? ? (y & c & Hs & _ & Hc') ?]; subst.
        rewrite Hsplit in Hs. injection Hs as _ _ _ _ <-. congruence. }
    rewrite appendRecord_eq. cbn [app]. rewrite scanLoop_from.
    destruct (scanLoop fileName appendRecord lines true [])
      as [[rest saw'] err] eqn:Hrest.
    assert (Hhead : lineRecord text (mkRecord p0 p1 year p3 count)).
    { exists p2, p4. cbn. auto. }
    split.
    + intros [= <- <- ->]. apply IH in Hrest as [Hf ->]. split.
      * constructor; assumption.
      * cbn [orb]. unfold len. cbn [app length].
        destruct (Z.eqb_spec (Z.of_nat (S (length rest))) 0); [lia|].
        rewrite orb_true_r. reflexivity.
    + intros [H ->]. inversion H as [|? r ? rest' Hr Hf]; subst.
      rewrite (lineRecord_fun _ _ _ Hr Hhead) in *.
      assert (Hok : scanLoop fileName appendRecord lines true []
                    = (rest', true, None)).
      { apply IH. split; [exact Hf|reflexivity]. }
      rewrite Hrest in Hok. injection Hok as -> -> ->. cbn [app].
      unfold len. cbn [length].
      destruct (Z.eqb_spec (Z.of_nat (S (length rest'))) 0); [lia|].
      rewrite orb_true_r. reflexivity.
Qed.

(** X18. [loadRecordsFromFile] succeeds exactly when the file opens, the
    scan ends without error, every line that is not blank holds a record,
    and there is at least one; the list it returns holds the records of
    these lines, one per line, in the order of the file. *)
Theorem loadRecordsFromFile_loaded (fsys : FS) (fileName : string)
  (records : list Record_) :
  loadRecordsFromFile fsys fileName = Loaded records
  <-> exists file : scanned,
        fsOpen fsys fileName = Some file
        /\ scErr file = false
        /\ records <> []
        /\ Forall2 lineRecord (List.filter notBlank (scLines file)) records.
Proof.
  unfold loadRecordsFromFile, readRecordsFromFile.
  destruct (fsOpen fsys fileName) as [file|].
  2:{ split; [discriminate|]. intros (file & H & _). discriminate. }
  pose proof (scanLoop_loaded fileName (scLines file) false) as Hscan.
  destruct (scanLoop fileName appendRecord (scLines file) false [])
    as [[records' saw] [err|]].
  - split; [discriminate|]. intros (file' & [= <-] & Herr & Hne & Hf).
    pose proof (proj2 (Hscan records (negb (len records =? 0)))
                  (conj Hf eq_refl)) as Heq.
    discriminate Heq.
  - destruct (proj1 (Hscan records' saw) eq_refl) as [Hf Hsaw].
    cbn [orb] in Hsaw. split.
    + destruct (scErr file) eqn:Herr; [discriminate|].
      destruct saw; cbn [negb]; [|discriminate]. intros [= <-].
      exists file. split; [reflexivity|]. split; [exact Herr|].
      split; [|exact Hf]. intros ->. discriminate.
    + intros (file' & [= <-] & Herr & Hne & Hf').
      pose proof (proj2 (Hscan records (negb (len records =? 0)))
                    (conj Hf' eq_refl)) as Heq.
      injection Heq as -> ->. rewrite Herr.
      destruct records as [|r records]; [contradiction|]. reflexivity.
Qed.

Lemma loadEntries_loaded (fsys : FS) (dirEntries : list dirEntry)
  (acc records : list Record_) :
  loadEntries fsys dirEntries acc = (records, None)
  <-> exists parts : list (list Record_),
        Forall2
          (fun entry part =>
             loadRecordsFromFile fsys (entryName entry) = Loaded part)
          (List.filter isDataFile dirEntries) parts
        /\ records = (acc ++ concat parts)%list.
Proof.
  revert acc records.
  induction dirEntries as [|entry rest IH]; intros acc records.
  - cbn. split.
    + intros [= <-]. exists []. split; [constructor|].
      cbn. rewrite app_nil_r. reflexivity.
    + intros (parts & H & ->). inversion H. cbn. rewrite app_nil_r.
      reflexivity.
  - cbn [loadEntries List.filter]. unfold isDataFile at 1.
    destruct (entryIsDir entry); cbn [negb andb]; [apply IH|].
    destruct (HasSuffix _ _); cbn [negb]; [|apply IH].
    rewrite readRecordsFromFile_from.
    destruct (readRecordsFromFile fsys (entryName entry) appendRecord [])
      as [part [err|]] eqn:Hread.
    + split; [discriminate|]. intros (parts & H & _).
      inversion H as [|? ? ? ? Hp ?]; subst.
      unfold loadRecordsFromFile in Hp. rewrite Hread in Hp. discriminate Hp.
    + rewrite IH. split.
      * intros (parts & Hf & ->). exists (part :: parts). split.
        -- constructor; [|exact Hf].
           unfold loadRecordsFromFile. rewrite Hread. reflexivity.
        -- cbn [concat]. rewrite app_assoc. reflexivity.
      * intros (parts & Hf & ->).
        inversion Hf as [|? part' ? parts' Hp Hf']; subst.
        unfold loadRecordsFromFile in Hp. rewrite Hread in Hp.
        injection Hp as <-. exists parts'. split; [exact Hf'|].
        cbn [concat]. rewrite app_assoc. reflexivity.
Qed.

(** X19. [LoadAllRecords] succeeds exactly when the root can be listed,
    every entry that is not a directory and whose name ends in ".TXT"
    (letter case apart) loads as a file, and there is at least one; the list
    it returns is the concatenation of the lists of these files, in the
    order of the listing. *)
Theorem LoadAllRecords_loaded (fsys : FS) (records : list Record_) :
  LoadAllRecords fsys = Loaded records
  <-> exists (dirEntries : list dirEntry) (parts : list (list Record_)),
        fsReadDir fsys = Some dirEntries
        /\ Forall2
             (fun entry part =>
                loadRecordsFromFile fsys (entryName entry) = Loaded part)
             (List.filter isDataFile dirEntries) parts
        /\ records = concat parts
        /\ List.filter isDataFile dirEntries <> [].
Proof.
  unfold LoadAllRecords.
  destruct (fsReadDir fsys) as [dirEntries|].
  2:{ split; [discriminate|]. intros (d & parts & H & _). discriminate. }
  pose proof (loadEntries_loaded fsys dirEntries []) as Hload.
  assert (Hnonempty : forall parts : list (list Record_),
             Forall2
               (fun entry part =>
                  loadRecordsFromFile fsys (entryName entry) = Loaded part)
               (List.filter isDataFile dirEntries) parts ->
             (concat parts = [] <-> List.filter isDataFile dirEntries = [])).
  { intros parts Hf. destruct Hf as [|entry part l parts' Hpart Hf].
    - cbn. tauto.
    - split; [|discriminate]. cbn [concat]. intros Hnil.
      apply app_eq_nil in Hnil as [-> _].
      unfold loadRecordsFromFile in Hpart.
      destruct (readRecordsFromFile fsys (entryName entry) appendRecord [])
        as [part' [err|]] eqn:Hread; [discriminate|].
      injection Hpart as ->.
      destruct (readRecordsFromFile_grows _ _ _ _ Hread) as (new & Hnew & Hne).
      cbn in Hnew. subst new. contradiction. }
  destruct (loadEntries fsys dirEntries []) as [records' [err|]].
  - split; [discriminate|]. intros (d & parts & [= <-] & Hf & -> & _).
    assert (Heq : (records', Some err) = (concat parts, None))
      by (apply Hload; eauto).
    discriminate Heq.
  - destruct (proj1 (Hload records') eq_refl) as (parts & Hf & Hrec).
    cbn [app] in Hrec. split.
    + destruct (len records' =? 0) eqn:Hlen; [discriminate|].
      intros [= <-]. exists dirEntries, parts.
      split; [reflexivity|]. split; [exact Hf|]. split; [exact Hrec|].
      intros Hnil. apply (Hnonempty parts Hf) in Hnil.
      rewrite Hrec, Hnil in Hlen. discriminate.
    + intros (d & parts' & [= <-] & Hf' & -> & Hne).
      assert (Heq : (records', None) = (concat parts', None))
        by (apply Hload; eauto).
      injection Heq as ->.
      destruct (len (concat parts') =? 0) eqn:Hlen; [|reflexivity].
      apply len_nil_iff in Hlen. apply (Hnonempty parts' Hf') in Hlen.
      contradiction.
Qed.

(** * The year filter of the command line *)

End WithStrings.

Example parse_sample :
  parseYearFilter " 2018, 2020-2022 "
  = Parsed (mkYearFilter false {[2018; 2020; 2021; 2022]}).
Proof. vm_compute. reflexivity. Qed.

Section WithStrings.
Context {strings : Strings}.

Lemma Split_nonempty (s : string) (sep : ascii) : Split s sep <> [].
Proof.
  destruct s as [|c t]; cbn; [discriminate|].
  destruct (Ascii.eqb c sep); [discriminate|].
  destruct (Split t sep); discriminate.
Qed.

Lemma Atoi_range (s : string) (n : Z) : Atoi s = Some n -> inInt64 n.
Proof.
  unfold Atoi, inInt64.
  destruct (match s with
            | String "-"%char t => (true, t)
            | String "+"%char t => (false, t)
            | _ => (false, s)
            end) as [neg body].
  destruct body as [|c t]; [discriminate|].
  destruct (digits (String c t) 0) as [un|]; [|discriminate].
  destruct ((- 2 ^ 63 <=? (if neg then - un else un))
            && ((if neg then - un else un) <? 2 ^ 63)) eqn:Hr; [|discriminate].
  intros [= <-]. apply andb_true_iff in Hr as [H1%Z.leb_le H2%Z.ltb_lt]. lia.
Qed.

(** The loop over a range ends, unless the range ends at the largest
    [int]. *)
Lemma yearLoop_ends (n : nat) (start end_ : Z) (years : gset Z) :
  Z.of_nat n = end_ - start + 1 -> end_ < 2 ^ 63 - 1 -> - 2 ^ 63 <= start ->
  exists years' : gset Z,
    yearLoop (S n) start end_ years = Some years'
    /\ forall y : Z, y ∈ years' <-> y ∈ years \/ start <= y <= end_.
Proof.
  revert start years. induction n as [|n IH]; intros start years Hn He Hs.
  - cbn [yearLoop]. destruct (Z.leb_spec start end_) as [Hle|Hgt]; [lia|].
    exists years. split; [reflexivity|]. intros y. split; [auto|].
    intros [Hy|Hy]; [exact Hy|lia].
  - cbn [yearLoop]. destruct (Z.leb_spec start end_) as [Hle|Hgt]; [|lia].
    assert (Hadd : add64 start 1 = start + 1).
    { unfold add64. apply wrap64_id. unfold inInt64. lia. }
    rewrite Hadd.
    destruct (IH (start + 1) ({[start]} ∪ years)) as (years' & Hloop & Hin);
      [lia|lia|lia|].
    exists years'. split; [exact Hloop|]. intros y. rewrite Hin.
    rewrite elem_of_union, elem_of_singleton. split.
    + intros [[->|H']|H']; [right; lia|auto|right; lia].
    + intros [H'|H']; [auto|].
      destruct (Z.eq_dec y start) as [->|Hne]; [auto|right; lia].
Qed.

Lemma yearLoop_diverges (fuel : nat) (year : Z) (years : gset Z) :
  inInt64 year -> yearLoop fuel year (2 ^ 63 - 1) years = None.
Proof.
  revert year years. induction fuel as [|fuel IH]; intros year years Hy;
    [reflexivity|].
  cbn [yearLoop]. unfold inInt64 in Hy.
  destruct (Z.leb_spec year (2 ^ 63 - 1)); [|lia].
  apply IH, wrap64_range.
Qed.

Lemma parseSegments_parsed (parts : list string) (years : gset Z)
  (f : yearFilter) :
  (forall y, y ∈ years -> 0 < y) ->
  parseSegments parts years = Parsed f ->
  (fAll f = true /\ fYears f = ∅)
  \/ (fAll f = false
      /\ (parts <> [] \/ years <> ∅ -> fYears f <> ∅)
      /\ (forall y, y ∈ fYears f -> 0 < y)
      /\ (forall y, y ∈ fYears f
                    <-> y ∈ years
                        \/ exists part, part ∈ parts
                                        /\ segmentYear (TrimSpace part) y)).
Proof.
  revert years. induction parts as [|part parts IH]; intros years Hpos.
  - cbn [parseSegments]. destruct (Z.of_nat (size years) =? 0) eqn:Hsize;
      [discriminate|].
    intros [= <-]. right. cbn [fAll fYears]. split; [reflexivity|].
    split; [|split; [exact Hpos|]].
    + intros _ Hempty. rewrite Hempty, size_empty in Hsize. discriminate.
    + intros y. split; [auto|]. intros [H|(part & Hin & _)]; [exact H|].
      inversion Hin.
  - cbn [parseSegments].
    destruct (String.eqb (TrimSpace part) "") eqn:Hblank; [discriminate|].
    destruct (String.eqb (TrimSpace part) "0") eqn:Hzero.
    { intros [= <-]. left. auto. }
    assert (Hstep : forall years' : gset Z,
               (forall y, y ∈ years'
                          <-> y ∈ years \/ segmentYear (TrimSpace part) y) ->
               (exists y, y ∈ years') ->
               (forall y, segmentYear (TrimSpace part) y -> 0 < y) ->
               parseSegments parts years' = Parsed f ->
               (fAll f = true /\ fYears f = ∅)
               \/ (fAll f = false
                   /\ (part :: parts <> [] \/ years <> ∅ -> fYears f <> ∅)
                   /\ (forall y, y ∈ fYears f -> 0 < y)
                   /\ (forall y, y ∈ fYears f
                                 <-> y ∈ years
                                     \/ exists p, p ∈ part :: parts
                                                  /\ segmentYear (TrimSpace p) y))).
    { intros years' Hin' [y0 Hy0] Hseg Hparse.
      destruct (IH years') as [Hall|(Hf & Hne & Hp & Hiff)];
        [|exact Hparse|left; exact Hall|].
      - intros y [Hy|Hy]%Hin'; [apply Hpos, Hy|apply Hseg, Hy].
      - right. split; [exact Hf|]. split; [|split; [exact Hp|]].
        + intros _. apply Hne. right. intros Hempty.
          rewrite Hempty in Hy0. set_solver.
        + intros y. rewrite Hiff, Hin'. split.
          * intros [[H|H]|(p & Hp' & Hs)]; [auto| |].
            -- right. exists part. split; [left|exact H].
            -- right. exists p. split; [right; exact Hp'|exact Hs].
          * intros [H|(p & [->|Hp']%elem_of_cons & Hs)]; [auto|auto|].
            right. exists p. auto. }
    unfold segmentYear in Hstep.
    destruct (stringsContains (TrimSpace part) "-").
    + destruct (Split (TrimSpace part) "-") as [|p0 [|p1 [|p2 l]]];
        try discriminate.
      destruct (Atoi (TrimSpace p0)) as [start|] eqn:Hstart; [|discriminate].
      destruct (Atoi (TrimSpace p1)) as [end_|] eqn:Hend; [|discriminate].
      destruct ((start <=? 0) || (end_ <=? 0)) eqn:Hsign; [discriminate|].
      apply orb_false_iff in Hsign as [Hs%Z.leb_gt He%Z.leb_gt].
      destruct (Z.ltb_spec end_ start) as [|Hle]; [discriminate|].
      pose proof (Atoi_range _ _ Hend) as Hr. unfold inInt64 in Hr.
      destruct (Z.eq_dec end_ (2 ^ 63 - 1)) as [->|Hmax].
      { rewrite yearLoop_diverges by (unfold inInt64; lia). discriminate. }
      replace (Z.to_nat (end_ - start + 2))
        with (S (Z.to_nat (end_ - start + 1))) by lia.
      destruct (yearLoop_ends (Z.to_nat (end_ - start + 1)) start end_ years)
        as (years' & Hloop & Hin'); [lia|lia|lia|].
      rewrite Hloop. apply Hstep.
      * intros y. rewrite Hin'. split.
        -- intros [H|H]; [auto|]. right. exists p0, p1, start, end_. auto.
        -- intros [H|(q0 & q1 & a & b & [= <- <-] & Ha & Hb & Hy)]; [auto|].
           right. congruence.
      * exists start. apply Hin'. right. lia.
      * intros y (q0 & q1 & a & b & [= <- <-] & Ha & Hb & Hy).
        assert (a = start) by congruence. lia.
    + destruct (Atoi (TrimSpace part)) as [year|] eqn:Hyear; [|discriminate].
      destruct (Z.leb_spec year 0) as [|Hy]; [discriminate|].
      apply Hstep.
      * intros y. rewrite elem_of_union, elem_of_singleton. split.
        -- intros [->|H]; [right; reflexivity|auto].
        -- intros [H|[= ->]]; auto.
      * exists year. set_solver.
      * intros y [= ->]. exact Hy.
Qed.

Lemma parseSegments_diverges (parts : list string) (years : gset Z) :
  parseSegments parts years = Diverges ->
  exists part p0 p1 : string,
    part ∈ parts
    /\ Split (TrimSpace part) "-" = [p0; p1]
    /\ Atoi (TrimSpace p1) = Some (2 ^ 63 - 1).
Proof.
  revert years. induction parts as [|part parts IH]; intros years.
  - cbn [parseSegments]. destruct (_ =? 0); discriminate.
  - cbn [parseSegments].
    assert (Hrec : forall years',
               parseSegments parts years' = Diverges ->
               exists q p0 p1 : string,
                 q ∈ part :: parts
                 /\ Split (TrimSpace q) "-" = [p0; p1]
                 /\ Atoi (TrimSpace p1) = Some (2 ^ 63 - 1)).
    { intros years' (q & p0 & p1 & Hq & Hs) %IH. exists q, p0, p1.
      split; [right; exact Hq|exact Hs]. }
    destruct (String.eqb (TrimSpace part) ""); [discriminate|].
    destruct (String.eqb (TrimSpace part) "0"); [discriminate|].
    destruct (stringsContains (TrimSpace part) "-").
    + destruct (Split (TrimSpace part) "-") as [|p0 [|p1 [|p2 l]]] eqn:Hsplit;
        try discriminate.
      destruct (Atoi (TrimSpace p0)) as [start|] eqn:Hstart; [|discriminate].
      destruct (Atoi (TrimSpace p1)) as [end_|] eqn:Hend; [|discriminate].
      destruct ((start <=? 0) || (end_ <=? 0)) eqn:Hsign; [discriminate|].
      apply orb_false_iff in Hsign as [Hs%Z.leb_gt He%Z.leb_gt].
      destruct (Z.ltb_spec end_ start) as [|Hle]; [discriminate|].
      pose proof (Atoi_range _ _ Hend) as Hr. unfold inInt64 in Hr.
      destruct (Z.eq_dec end_ (2 ^ 63 - 1)) as [->|Hmax].
      { intros _. exists part, p0, p1. split; [left|auto]. }
      replace (Z.to_nat (end_ - start + 2))
        with (S (Z.to_nat (end_ - start + 1))) by lia.
      destruct (yearLoop_ends (Z.to_nat (end_ - start + 1)) start end_ years)
        as (years' & Hloop & _); [lia|lia|lia|].
      rewrite Hloop. apply Hrec.
    + destruct (Atoi (TrimSpace part)) as [year|]; [|discriminate].
      destruct (year <=? 0); [discriminate|]. apply Hrec.
Qed.

Lemma parseSegments_no_years (parts : list string) (years : gset Z) :
  parseSegments parts years = Rejected ErrNoValidYears ->
  parts = [] /\ years = ∅.
Proof.
  revert years. induction parts as [|part parts IH]; intros years.
  - cbn [parseSegments]. destruct (Z.of_nat (size years) =? 0) eqn:Hsize;
      [|discriminate].
    intros _. split; [reflexivity|].
    apply leibniz_equiv, size_empty_iff. apply Z.eqb_eq in Hsize. lia.
  - cbn [parseSegments].
    destruct (String.eqb (TrimSpace part) ""); [discriminate|].
    destruct (String.eqb (TrimSpace part) "0"); [discriminate|].
    destruct (stringsContains (TrimSpace part) "-").
    + destruct (Split (TrimSpace part) "-") as [|p0 [|p1 [|p2 l]]] eqn:Hsplit;
        try discriminate.
      destruct (Atoi (TrimSpace p0)) as [start|] eqn:Hstart; [|discriminate].
      destruct (Atoi (TrimSpace p1)) as [end_|] eqn:Hend; [|discriminate].
      destruct ((start <=? 0) || (end_ <=? 0)) eqn:Hsign; [discriminate|].
      destruct (Z.ltb_spec end_ start) as [|Hle]; [discriminate|].
      pose proof (Atoi_range _ _ Hend) as Hr. unfold inInt64 in Hr.
      pose proof (Atoi_range _ _ Hstart) as Hr0. unfold inInt64 in Hr0.
      destruct (Z.eq_dec end_ (2 ^ 63 - 1)) as [->|Hmax].
      { rewrite yearLoop_diverges by (unfold inInt64; lia). discriminate. }
      replace (Z.to_nat (end_ - start + 2))
        with (S (Z.to_nat (end_ - start + 1))) by lia.
      destruct (yearLoop_ends (Z.to_nat (end_ - start + 1)) start end_ years)
        as (years' & Hloop & Hin); [lia|lia|lia|].
      rewrite Hloop. intros Hrej. apply IH in Hrej.
      destruct Hrej as [Hnil Hempty].
      assert (Hs : start ∈ years') by (apply Hin; right; lia).
      rewrite Hempty in Hs. apply elem_of_empty in Hs. contradiction.
    + destruct (Atoi (TrimSpace part)) as [year|]; [|discriminate].
      destruct (year <=? 0); [discriminate|].
      intros Hrej. apply IH in Hrej. destruct Hrej as [Hnil Hempty].
      assert (Hy : year ∈ ({[year]} ∪ years : gset Z))
        by (apply elem_of_union_l, elem_of_singleton; reflexivity).
      rewrite Hempty in Hy. apply elem_of_empty in Hy. contradiction.
Qed.

(** X20. A filter [parseYearFilter] returns is either "all years", or a
    set of years that is not empty, holds positive years only, and holds
    exactly the years the segments of the flag name (a year, or the years
    of a range).  The error "no valid years provided" is never returned.
    The loop over a range does not end only for a range that ends at the
    largest [int]. *)
Theorem parseYearFilter_outcome (raw : string) :
  match parseYearFilter raw with
  | Parsed f =>
      (fAll f = true /\ fYears f = ∅)
      \/ (fAll f = false
          /\ fYears f <> ∅
          /\ (forall y, y ∈ fYears f -> 0 < y)
          /\ (forall y,
                 y ∈ fYears f
                 <-> exists part, part ∈ Split (TrimSpace raw) ","
                                  /\ segmentYear (TrimSpace part) y))
  | Rejected e => e <> ErrNoValidYears
  | Diverges =>
      exists part p0 p1 : string,
        part ∈ Split (TrimSpace raw) ","
        /\ Split (TrimSpace part) "-" = [p0; p1]
        /\ Atoi (TrimSpace p1) = Some (2 ^ 63 - 1)
  end.
Proof.
  unfold parseYearFilter.
  destruct (String.eqb (TrimSpace raw) "" || String.eqb (TrimSpace raw) "0").
  { left. auto. }
  destruct (parseSegments (Split (TrimSpace raw) ",") ∅) as [f|e|] eqn:Hparse.
  - assert (Hnone : forall y : Z, y ∈ (∅ : gset Z) -> 0 < y) by set_solver.
    destruct (parseSegments_parsed _ _ _ Hnone Hparse)
      as [Hall|(Hf & Hne & Hpos & Hiff)]; [left; exact Hall|].
    right. split; [exact Hf|]. split; [|split; [exact Hpos|]].
    + apply Hne. left. apply Split_nonempty.
    + intros y. rewrite Hiff. split; [|auto].
      intros [H|H]; [set_solver|exact H].
  - intros ->. apply parseSegments_no_years in Hparse as [Hnil _].
    exact (Split_nonempty _ _ Hnil).
  - exact (parseSegments_diverges _ _ Hparse).
Qed.

Lemma Contains_singleton (f : yearFilter) (y x : Z) :
  fAll f = false -> fYears f = {[y]} -> Contains f x = (x =? y).
Proof.
  intros Hall Hy. unfold Contains. rewrite Hall, Hy.
  destruct (Z.eqb_spec x y) as [->|Hne].
  - apply bool_decide_eq_true. set_solver.
  - apply bool_decide_eq_false. set_solver.
Qed.

(** X21. The command [top] with a single year: when the flag parses to a
    filter that holds the one year [y], filtering the records by it and
    aggregating with no year filter gives what [AggregateNames] gives for
    the year [y]. *)
Theorem top_single_year (raw : string) (f : yearFilter) (y : Z)
  (records : list Record_) (gender : string) :
  parseYearFilter raw = Parsed f ->
  fYears f = {[y]} ->
  AggregateNames (filterRecordsByYear records f) 0 gender
  = AggregateNames records y gender.
Proof.
  intros Hparse Hy.
  assert (Hf : fAll f = false /\ 0 < y).
  { unfold parseYearFilter in Hparse.
    destruct (String.eqb (TrimSpace raw) "" || String.eqb (TrimSpace raw) "0").
    { injection Hparse as <-. cbn in Hy. set_solver. }
    assert (Hnone : forall y : Z, y ∈ (∅ : gset Z) -> 0 < y) by set_solver.
    destruct (parseSegments_parsed _ _ _ Hnone Hparse)
      as [[_ Hempty]|(Hf & _ & Hpos & _)].
    - rewrite Hempty in Hy. set_solver.
    - split; [exact Hf|]. apply Hpos. rewrite Hy. set_solver. }
  destruct Hf as [Hall Hpos].
  unfold filterRecordsByYear, All. rewrite Hall.
  assert (Hgroup : forall g,
             groupTotals
               (List.filter (fun record => Contains f (Year record)) records)
               0 g
             = groupTotals records y g).
  { intros g. rewrite !groupTotals_groupBy, groupBy_filter.
    apply groupBy_ext. intros r.
    rewrite (Contains_singleton f y _ Hall Hy). unfold skipYear.
    destruct (Z.eqb_spec y 0) as [|_]; [lia|]. cbn [negb andb].
    rewrite negb_involutive. reflexivity. }
  unfold AggregateNames. rewrite Hgroup. reflexivity.
Qed.

End WithStrings.

Lemma top_single_year_witness :
  AggregateNames
    (filterRecordsByYear sampleCA (mkYearFilter false {[2019]})) 0 "F"
  = AggregateNames sampleCA 2019 "F".
Proof.
  apply (top_single_year " 2019 " (mkYearFilter false {[2019]}) 2019).
  - vm_compute. reflexivity.
  - reflexivity.
Defined.

(** A range that ends at the largest [int] is accepted, and the loop over
    it never ends. *)
Example parse_never_ends :
  parseYearFilter "1-9223372036854775807" = Diverges.
Proof.
  assert (Htrim : TrimSpace "1-9223372036854775807" = "1-9223372036854775807")
    by (vm_compute; reflexivity).
  assert (Hlow : Atoi (TrimSpace "1") = Some 1) by (vm_compute; reflexivity).
  assert (Hhigh : Atoi (TrimSpace "9223372036854775807") = Some (2 ^ 63 - 1))
    by (vm_compute; reflexivity).
  assert (He : String.eqb "1-9223372036854775807" "" = false) by reflexivity.
  assert (Hz : String.eqb "1-9223372036854775807" "0" = false) by reflexivity.
  assert (Hc : stringsContains "1-9223372036854775807" "-" = true)
    by (vm_compute; reflexivity).
  assert (Hs : Split "1-9223372036854775807" "-"
               = ["1"; "9223372036854775807"]) by (vm_compute; reflexivity).
  assert (Hp : (1 <=? 0) || (2 ^ 63 - 1 <=? 0) = false)
    by (vm_compute; reflexivity).
  assert (Hlt : (2 ^ 63 - 1 <? 1) = false) by (vm_compute; reflexivity).
  unfold parseYearFilter. rewrite Htrim, He, Hz.
  change (Split "1-9223372036854775807" ",") with ["1-9223372036854775807"].
  cbn [parseSegments orb]. rewrite Htrim, He, Hz, Hc, Hs, Hlow, Hhigh, Hp, Hlt.
  rewrite yearLoop_diverges; [reflexivity|]. unfold inInt64. lia.
Qed.

Section WithStrings.
Context {strings : Strings}.

(** * RandomName *)

Section RandomNameDraw.
Context {rng : Type} `{!RandSource rng}.

(** [Intn] returns a number of [[0, n)]. *)
Hypothesis Intn_range :
  forall (r : rng) (n : Z), 0 < n -> 0 <= (Intn r n).1 < n.

(** X22. [RandomName] on a slice of records: it fails with "no matching
    records" only when no record passes the filters, with the negative
    count error only for a name whose counts under the filters add up to
    less than 0, and with "no probability mass" only when the counts that
    pass the filters add up to 0 or less; otherwise it makes one draw below
    that sum and returns a name that a record passing the filters carries,
    with its aggregated count, which is positive.  It never panics. *)
Theorem RandomName_outcome (records : list Record_) (year : Z)
  (gender : string) (r : rng) :
  match RandomName records year gender r with
  | Ok (e, r') =>
      (exists rec, rec ∈ records /\ passes year gender rec = true
                   /\ carries (Name e) rec = true)
      /\ Count e = aggregatedCount records year gender (Name e)
      /\ 0 < Count e
      /\ r' = (Intn r (sumRecordCounts
                         (List.filter (passes year gender) records))).2
  | Err err =>
      (err = ErrNoMatchingRecords
       /\ forall rec, rec ∈ records -> passes year gender rec = false)
      \/ (exists name, err = ErrNegativeCount name
                       /\ aggregatedCount records year gender name < 0)
      \/ (err = ErrNoProbabilityMass
          /\ sumRecordCounts (List.filter (passes year gender) records) <= 0)
  | Panic | OutOfFuel => False
  end.
Proof.
  unfold RandomName, RandomNameFromAggregate.
  set (agg := (AggregateNames records year gender).1).
  destruct (len agg =? 0) eqn:Hlen.
  { left. split; [reflexivity|].
    apply aggregated_nil_iff, len_nil_iff, Hlen. }
  assert (Hne : agg <> []) by (intros H%len_nil_iff; congruence).
  destruct (sumLoop_cases agg 0) as [[sum Ht]|[err Herr]].
  - rewrite Ht, bind_Ok. apply sumLoop_Ok_inv in Ht as [Hpos ->].
    change (fold_left add64 (Count <$> agg) 0) with (sumCounts agg).
    unfold RandomNameFromAggregateWithTotal. rewrite Hlen.
    assert (Hsum : sumCounts agg
                   = sumRecordCounts (List.filter (passes year gender) records))
      by apply aggregated_sum.
    destruct (Z.leb_spec (sumCounts agg) 0) as [Hle|Hgt].
    { right. right. split; [reflexivity|]. rewrite <- Hsum. exact Hle. }
    unfold intn. destruct (Z.leb_spec (sumCounts agg) 0) as [|_]; [lia|].
    rewrite bind_Ok.
    pose proof (Intn_range r _ Hgt) as Hpick. rewrite <- Hsum.
    destruct (Intn r (sumCounts agg)) as [pick r']. cbn [fst snd] in *.
    destruct (scan pick 0 agg) as [e|] eqn:Hs.
    + assert (Hin : e ∈ agg) by (eapply scan_elem_of, Hs).
      split; [|split; [apply aggregated_count, Hin|split; [|reflexivity]]].
      * destruct (proj1 (aggregated_has_key records year gender
                           (ToUpper (Name e))))
          as (rec & Hrec & Hp & Hk); [eauto|].
        exists rec. split; [exact Hrec|]. split; [exact Hp|].
        apply carries_iff, Hk.
      * pose proof (scan_nonzero pick 0 agg e eq_refl (proj1 Hpick) Hs).
        rewrite Forall_forall in Hpos. pose proof (Hpos e Hin). lia.
    + exfalso. apply (scan_total pick agg Hne); [lia|exact Hs].
  - rewrite Herr. cbn. right. left.
    apply sumLoop_Err_inv in Herr as (e & Hin & Hneg & ->).
    exists (Name e). split; [reflexivity|].
    rewrite <- (aggregated_count records year gender e Hin). exact Hneg.
Qed.
End RandomNameDraw.

End WithStrings.

Lemma RandomName_outcome_witness :
  (exists rec, rec ∈ sampleCA /\ passes 2019 "F" rec = true
               /\ carries "Emma" rec = true)
  /\ 90 = aggregatedCount sampleCA 2019 "F" "Emma"
  /\ 0 < 90
  /\ mkTape [] []
     = (Intn (mkTape [200] [])
          (sumRecordCounts (List.filter (passes 2019 "F") sampleCA))).2.
Proof.
  exact (RandomName_outcome tape_Intn_range sampleCA 2019 "F" (mkTape [200] [])).
Defined.

Example string_sample :
  String_ (mkYearFilter false {[2018; 2020; 2021; 2022; 1999]})
  = "1999, 2018, 2020-2022".
Proof. vm_compute. reflexivity. Qed.

Section WithStrings.
Context {strings : Strings}.

(** * Printing and parsing a year filter *)

Lemma digitChar_code (m : Z) :
  0 <= m < 10 -> Z.of_N (N_of_ascii (digitChar m)) = 48 + m.
Proof.
  intros Hm.
  assert (Hc : m = 0 \/ m = 1 \/ m = 2 \/ m = 3 \/ m = 4 \/ m = 5 \/ m = 6
               \/ m = 7 \/ m = 8 \/ m = 9) by lia.
  repeat (destruct Hc as [->|Hc]; [reflexivity|]). subst m. reflexivity.
Qed.

Lemma digitChar_isDigit (m : Z) : 0 <= m < 10 -> isDigit (digitChar m) = true.
Proof.
  intros Hm. unfold isDigit. rewrite digitChar_code by exact Hm.
  apply andb_true_iff. split; [apply Z.leb_le|apply Z.leb_le]; lia.
Qed.

Lemma isDigit_plain (c : ascii) :
  isDigit c = true ->
  isSpace c = false /\ Ascii.eqb c "," = false /\ Ascii.eqb c "-" = false
  /\ Ascii.eqb c "+" = false.
Proof.
  destruct c as [[] [] [] [] [] [] [] []]; cbn; intros H;
    try discriminate H; auto.
Qed.

Lemma digits_String (c : ascii) (t : string) (a : Z) :
  isDigit c = true ->
  digits (String c t) a = digits t (a * 10 + (Z.of_N (N_of_ascii c) - 48)).
Proof. intros Hc. cbn [digits]. rewrite Hc. reflexivity. Qed.

Lemma utoa_value (fuel : nat) (n : Z) (acc : string) (a : Z) :
  0 <= n < 10 ^ Z.of_nat fuel -> (0 < fuel)%nat ->
  exists k : Z,
    0 <= k /\ digits (utoa fuel n acc) a = digits acc (a * 10 ^ k + n).
Proof.
  revert n acc a. induction fuel as [|fuel IH]; intros n acc a Hn Hf; [lia|].
  cbn [utoa].
  assert (Hmod : 0 <= n mod 10 < 10) by (apply Z.mod_pos_bound; lia).
  destruct (Z.ltb_spec n 10) as [Hlt|Hge].
  - exists 1. split; [lia|].
    rewrite digits_String by (apply digitChar_isDigit, Hmod).
    rewrite digitChar_code by exact Hmod.
    rewrite Z.mod_small by lia. f_equal. lia.
  - assert (Hfuel : (0 < fuel)%nat).
    { destruct fuel; [|lia]. cbn in Hn. lia. }
    destruct (IH (n / 10) (String (digitChar (n mod 10)) acc) a)
      as (k & Hk & Hd); [|exact Hfuel|].
    + split; [apply Z.div_pos; lia|].
      apply Z.div_lt_upper_bound; [lia|].
      rewrite Nat2Z.inj_succ, Z.pow_succ_r in Hn by lia. lia.
    + exists (k + 1). split; [lia|]. rewrite Hd.
      rewrite digits_String by (apply digitChar_isDigit, Hmod).
      rewrite digitChar_code by exact Hmod. f_equal.
      rewrite Z.pow_add_r by lia.
      pose proof (Z.div_mod n 10 ltac:(lia)). lia.
Qed.

Lemma utoa_bytes (fuel : nat) (n : Z) (acc : string) :
  0 <= n -> allBytes isDigit acc = true ->
  allBytes isDigit (utoa fuel n acc) = true.
Proof.
  revert n acc. induction fuel as [|fuel IH]; intros n acc Hn Hacc;
    [exact Hacc|].
  cbn [utoa].
  assert (Hmod : 0 <= n mod 10 < 10) by (apply Z.mod_pos_bound; lia).
  assert (Hacc' : allBytes isDigit (String (digitChar (n mod 10)) acc) = true).
  { cbn [allBytes]. rewrite digitChar_isDigit by exact Hmod. exact Hacc. }
  destruct (n <? 10); [exact Hacc'|].
  apply IH; [apply Z.div_pos; lia|exact Hacc'].
Qed.

(** A positive number is printed without a sign and without leading zero. *)
Lemma utoa_head (fuel : nat) (n : Z) (acc : string) :
  1 <= n < 10 ^ Z.of_nat fuel ->
  exists (d : Z) (t : string),
    utoa fuel n acc = String (digitChar d) t /\ 1 <= d <= 9.
Proof.
  revert n acc. induction fuel as [|fuel IH]; intros n acc Hn.
  - cbn in Hn. lia.
  - cbn [utoa]. destruct (Z.ltb_spec n 10) as [Hlt|Hge].
    + exists n, acc. rewrite Z.mod_small by lia. split; [reflexivity|lia].
    + apply IH. split.
      * apply Z.div_le_lower_bound; lia.
      * apply Z.div_lt_upper_bound; [lia|].
        rewrite Nat2Z.inj_succ, Z.pow_succ_r in Hn by lia. lia.
Qed.

(** The years the round trip is about: positive, below the largest [int]. *)
Lemma itoa_year (n : Z) :
  0 < n < 2 ^ 63 ->
  allBytes isDigit (itoa n) = true
  /\ (exists (d : Z) (t : string),
        itoa n = String (digitChar d) t /\ 1 <= d <= 9)
  /\ Atoi (itoa n) = Some n.
Proof.
  intros Hn. unfold itoa. destruct (Z.ltb_spec n 0) as [|_]; [lia|].
  assert (Hbound : 1 <= n < 10 ^ Z.of_nat 19).
  { change (10 ^ Z.of_nat 19) with 10000000000000000000.
    change (2 ^ 63) with 9223372036854775808 in Hn. lia. }
  pose proof (utoa_bytes 19 n "" ltac:(lia) eq_refl) as Hbytes.
  destruct (utoa_head 19 n "" Hbound) as (d & t & Hhead & Hd).
  destruct (utoa_value 19 n "" 0 ltac:(lia) ltac:(lia)) as (k & Hk & Hval).
  split; [exact Hbytes|]. split; [eauto|].
  unfold Atoi. rewrite Hhead in *.
  assert (Hdig : isDigit (digitChar d) = true)
    by (apply digitChar_isDigit; lia).
  destruct (isDigit_plain _ Hdig) as (_ & _ & Hminus & Hplus).
  destruct (digitChar d) as [b0 b1 b2 b3 b4 b5 b6 b7] eqn:Hc.
  assert (Hsign :
            match String (Ascii b0 b1 b2 b3 b4 b5 b6 b7) t with
            | String "-"%char t' => (true, t')
            | String "+"%char t' => (false, t')
            | _ => (false, String (Ascii b0 b1 b2 b3 b4 b5 b6 b7) t)
            end = (false, String (Ascii b0 b1 b2 b3 b4 b5 b6 b7) t)).
  { destruct b0, b1, b2, b3, b4, b5, b6, b7; try reflexivity;
      cbn in Hminus, Hplus; discriminate. }
  rewrite Hsign, Hval. cbn [digits]. rewrite Z.mul_0_l, Z.add_0_l.
  destruct (Z.leb_spec (- 2 ^ 63) n); [|lia].
  destruct (Z.ltb_spec n (2 ^ 63)); [|lia]. reflexivity.
Qed.

Lemma append_String (c : ascii) (a b : string) :
  (String c a ++ b)%string = String c (a ++ b).
Proof. reflexivity. Qed.

Lemma append_empty (b : string) : ("" ++ b)%string = b.
Proof. reflexivity. Qed.

Lemma allBytes_app (p : ascii -> bool) (a b : string) :
  allBytes p (a ++ b) = allBytes p a && allBytes p b.
Proof.
  induction a as [|c a IH]; [reflexivity|].
  rewrite append_String. cbn [allBytes].
  rewrite IH, andb_assoc. reflexivity.
Qed.

Lemma allBytes_impl (p q : ascii -> bool) (s : string) :
  (forall c, p c = true -> q c = true) ->
  allBytes p s = true -> allBytes q s = true.
Proof.
  intros Hpq. induction s as [|c s IH]; [reflexivity|]. cbn [allBytes].
  intros [Hc Hs]%andb_true_iff. rewrite (Hpq c Hc). apply IH, Hs.
Qed.

Lemma trimRight_nospace (s : string) :
  allBytes (fun c => negb (isSpace c)) s = true -> trimRight s = s.
Proof.
  induction s as [|c s IH]; [reflexivity|]. cbn [allBytes trimRight].
  intros [Hc%negb_true_iff Hs]%andb_true_iff. rewrite (IH Hs), Hc.
  destruct s; reflexivity.
Qed.

Lemma trimRight_app_keep (a b : string) :
  trimRight b = b -> b <> "" -> trimRight (a ++ b) = (a ++ b)%string.
Proof.
  intros Hb Hne. induction a as [|c a IH]; [exact Hb|].
  rewrite append_String. cbn [trimRight]. rewrite IH.
  destruct (a ++ b)%string eqn:Hab; [|reflexivity].
  destruct a; [rewrite append_empty in Hab; contradiction|discriminate].
Qed.

Lemma Split_nosep (s : string) (sep : ascii) :
  allBytes (fun c => negb (Ascii.eqb c sep)) s = true -> Split s sep = [s].
Proof.
  induction s as [|c s IH]; [reflexivity|]. cbn [allBytes Split].
  intros [Hc%negb_true_iff Hs]%andb_true_iff. rewrite Hc, (IH Hs). reflexivity.
Qed.

Lemma Split_app_sep (s t : string) (sep : ascii) :
  allBytes (fun c => negb (Ascii.eqb c sep)) s = true ->
  Split (s ++ String sep t) sep = s :: Split t sep.
Proof.
  induction s as [|c s IH].
  - intros _. rewrite append_empty. cbn [Split].
    rewrite Ascii.eqb_refl. reflexivity.
  - cbn [allBytes]. intros [Hc%negb_true_iff Hs]%andb_true_iff.
    rewrite append_String. cbn [Split]. rewrite Hc, (IH Hs). reflexivity.
Qed.

Lemma stringsContains_nosep (s : string) (sep : ascii) :
  allBytes (fun c => negb (Ascii.eqb c sep)) s = true ->
  stringsContains s sep = false.
Proof.
  induction s as [|c s IH]; [reflexivity|]. cbn [allBytes stringsContains].
  intros [Hc%negb_true_iff Hs]%andb_true_iff. rewrite Hc, (IH Hs). reflexivity.
Qed.

Lemma stringsContains_app_sep (s t : string) (sep : ascii) :
  stringsContains (s ++ String sep t) sep = true.
Proof.
  induction s as [|c s IH].
  - rewrite append_empty. cbn [stringsContains].
    rewrite Ascii.eqb_refl. reflexivity.
  - rewrite append_String. cbn [stringsContains]. rewrite IH.
    apply orb_true_r.
Qed.

Lemma digitChar_inj_0 (d : Z) : 1 <= d <= 9 -> digitChar d <> "0"%char.
Proof.
  intros Hd He. pose proof (digitChar_code d ltac:(lia)) as Hc.
  rewrite He in Hc. cbn in Hc. lia.
Qed.

Lemma isASCII_String (c : ascii) (s : string) :
  isASCII (String c s) = (N_of_ascii c <? 128)%N && isASCII s.
Proof. reflexivity. Qed.

Lemma isASCII_app (a b : string) :
  isASCII (a ++ b) = isASCII a && isASCII b.
Proof.
  induction a as [|c a IH]; [reflexivity|].
  rewrite append_String, !isASCII_String, IH, andb_assoc. reflexivity.
Qed.

Lemma isASCII_allBytes (p : ascii -> bool) (s : string) :
  (forall c, p c = true -> (N_of_ascii c <? 128)%N = true) ->
  allBytes p s = true -> isASCII s = true.
Proof.
  intros Hp. induction s as [|c s IH]; [reflexivity|].
  cbn [allBytes]. rewrite isASCII_String.
  intros [Hc Hs]%andb_true_iff. rewrite (Hp c Hc), (IH Hs). reflexivity.
Qed.

(** Digits and hyphens are ASCII text. *)
Lemma isASCII_segment (s : string) :
  allBytes (fun c => isDigit c || Ascii.eqb c "-") s = true ->
  isASCII s = true.
Proof.
  apply isASCII_allBytes. intros c [Hc|Hc%Ascii.eqb_eq]%orb_true_iff.
  - destruct c as [[] [] [] [] [] [] [] []]; try reflexivity;
      cbn in Hc; discriminate Hc.
  - subst c. reflexivity.
Qed.

Lemma asciiTrimSpace_space (s : string) :
  asciiTrimSpace (String " " s) = asciiTrimSpace s.
Proof. reflexivity. Qed.

(** What the parser needs of a printed segment. *)
Lemma TrimSpace_segment (s : string) (d : Z) (t : string) :
  allBytes (fun c => isDigit c || Ascii.eqb c "-") s = true ->
  s = String (digitChar d) t -> 1 <= d <= 9 ->
  TrimSpace s = s /\ String.eqb s "" = false /\ String.eqb s "0" = false
  /\ allBytes (fun c => negb (Ascii.eqb c ",")) s = true.
Proof.
  intros Hbytes Hs Hd.
  assert (Hplain : forall c, isDigit c || Ascii.eqb c "-" = true ->
                             isSpace c = false /\ Ascii.eqb c "," = false).
  { intros c [Hc|Hc%Ascii.eqb_eq]%orb_true_iff.
    - destruct (isDigit_plain c Hc) as (H1 & H2 & _). auto.
    - subst c. auto. }
  assert (Hdig : isDigit (digitChar d) = true)
    by (apply digitChar_isDigit; lia).
  split; [|split; [|split]].
  - rewrite TrimSpace_ASCII by (apply isASCII_segment, Hbytes).
    unfold asciiTrimSpace.
    assert (Hl : trimLeft s = s).
    { rewrite Hs. cbn [trimLeft].
      rewrite (proj1 (isDigit_plain _ Hdig)). reflexivity. }
    rewrite Hl. apply trimRight_nospace.
    eapply allBytes_impl; [|exact Hbytes].
    intros c Hc. apply negb_true_iff, (Hplain c Hc).
  - rewrite Hs. reflexivity.
  - rewrite Hs. apply String.eqb_neq. intros [= He _].
    exact (digitChar_inj_0 d Hd He).
  - eapply allBytes_impl; [|exact Hbytes].
    intros c Hc. apply negb_true_iff, (Hplain c Hc).
Qed.

Lemma formatYearSegment_bytes (start end_ : Z) :
  0 < start < 2 ^ 63 -> 0 < end_ < 2 ^ 63 ->
  allBytes (fun c => isDigit c || Ascii.eqb c "-")
    (formatYearSegment start end_) = true
  /\ exists (d : Z) (t : string),
       formatYearSegment start end_ = String (digitChar d) t /\ 1 <= d <= 9.
Proof.
  intros Hs He.
  destruct (itoa_year start Hs) as (Hb1 & (d & t & Hh & Hd) & _).
  destruct (itoa_year end_ He) as (Hb2 & _ & _).
  assert (Hw : forall s, allBytes isDigit s = true ->
                         allBytes (fun c => isDigit c || Ascii.eqb c "-") s
                         = true).
  { intros s. apply allBytes_impl. intros c ->. reflexivity. }
  unfold formatYearSegment. destruct (start =? end_).
  - split; [apply Hw, Hb1|eauto].
  - split.
    + rewrite !allBytes_app, (Hw _ Hb1), (Hw _ Hb2). reflexivity.
    + exists d, (t ++ "-" ++ itoa end_)%string. rewrite Hh.
      split; [reflexivity|exact Hd].
Qed.

(** One round of the parser on a printed segment. *)
Lemma parseSegments_formatted (part : string) (parts : list string)
  (years : gset Z) (start end_ : Z) :
  0 < start -> start <= end_ -> end_ < 2 ^ 63 - 1 ->
  TrimSpace part = formatYearSegment start end_ ->
  exists years' : gset Z,
    parseSegments (part :: parts) years = parseSegments parts years'
    /\ forall y : Z, y ∈ years' <-> y ∈ years \/ start <= y <= end_.
Proof.
  intros Hs Hle He Hpart.
  destruct (formatYearSegment_bytes start end_ ltac:(lia) ltac:(lia))
    as (Hbytes & d & t & Hhead & Hd).
  destruct (TrimSpace_segment _ d t Hbytes Hhead Hd)
    as (_ & Hne & Hnz & _).
  destruct (itoa_year start ltac:(lia)) as (Hb1 & (d1 & t1 & Hh1 & Hd1) & Ha1).
  destruct (itoa_year end_ ltac:(lia)) as (Hb2 & (d2 & t2 & Hh2 & Hd2) & Ha2).
  assert (Hnodash : forall s, allBytes isDigit s = true ->
                              allBytes (fun c => negb (Ascii.eqb c "-")) s
                              = true).
  { intros s. apply allBytes_impl. intros c Hc.
    apply negb_true_iff, (isDigit_plain c Hc). }
  assert (Htrim : forall n dn tn,
             allBytes isDigit (itoa n) = true ->
             itoa n = String (digitChar dn) tn -> 1 <= dn <= 9 ->
             TrimSpace (itoa n) = itoa n).
  { intros n dn tn Hb Hh Hdn. eapply TrimSpace_segment; [|exact Hh|exact Hdn].
    eapply allBytes_impl; [|exact Hb]. intros c ->. reflexivity. }
  cbn [parseSegments]. rewrite Hpart, Hne, Hnz.
  unfold formatYearSegment in *.
  destruct (Z.eqb_spec start end_) as [<-|Hneq].
  - rewrite (stringsContains_nosep _ _ (Hnodash _ Hb1)), Ha1.
    destruct (Z.leb_spec start 0); [lia|].
    exists ({[start]} ∪ years). split; [reflexivity|].
    intros y. rewrite elem_of_union, elem_of_singleton. split.
    + intros [->|H']; [right; lia|auto].
    + intros [H'|H']; [auto|left; lia].
  - change (itoa start ++ "-" ++ itoa end_)%string
      with (itoa start ++ String "-" (itoa end_))%string.
    rewrite stringsContains_app_sep.
    rewrite (Split_app_sep _ _ _ (Hnodash _ Hb1)).
    rewrite (Split_nosep _ _ (Hnodash _ Hb2)).
    rewrite (Htrim start d1 t1 Hb1 Hh1 Hd1), Ha1.
    rewrite (Htrim end_ d2 t2 Hb2 Hh2 Hd2), Ha2.
    destruct (Z.leb_spec start 0); [lia|].
    destruct (Z.leb_spec end_ 0); [lia|]. cbn [orb].
    destruct (Z.ltb_spec end_ start); [lia|].
    replace (Z.to_nat (end_ - start + 2))
      with (S (Z.to_nat (end_ - start + 1))) by lia.
    destruct (yearLoop_ends (Z.to_nat (end_ - start + 1)) start end_ years)
      as (years' & Hloop & Hin); [lia|lia|lia|].
    rewrite Hloop. exists years'. split; [reflexivity|exact Hin].
Qed.

Lemma runEnd_spec (end_ : Z) (rest : list Z) (last : Z) (rest' : list Z) :
  Forall (fun y => 0 < y < 2 ^ 63 - 1) (end_ :: rest) ->
  runEnd end_ rest = (last, rest') ->
  end_ <= last
  /\ (length rest' <= length rest)%nat
  /\ Forall (fun y => 0 < y < 2 ^ 63 - 1) (last :: rest')
  /\ forall y : Z, y ∈ end_ :: rest <-> end_ <= y <= last \/ y ∈ rest'.
Proof.
  revert end_. induction rest as [|x rest IH]; intros end_ Hall.
  - cbn [runEnd]. intros [= <- <-]. split; [lia|]. split; [lia|].
    split; [exact Hall|]. intros y. rewrite list_elem_of_singleton.
    split; [intros ->; left; lia|]. intros [H|H]; [lia|inversion H].
  - cbn [runEnd]. inversion Hall as [|? ? He Hrest]; subst.
    assert (Hadd : add64 end_ 1 = end_ + 1).
    { unfold add64. apply wrap64_id. unfold inInt64. lia. }
    rewrite Hadd. destruct (Z.eqb_spec x (end_ + 1)) as [->|Hne].
    + intros Hrun. destruct (IH _ Hrest Hrun) as (Hle & Hlen & Hall' & Hin).
      split; [lia|]. split; [cbn [length]; lia|]. split; [exact Hall'|].
      intros y. rewrite elem_of_cons, Hin. split.
      * intros [->|[H|H]]; [left; lia|left; lia|auto].
      * intros [H|H]; [|auto].
        destruct (Z.eq_dec y end_) as [->|Hy]; [auto|right; left; lia].
    + intros [= <- <-]. split; [lia|]. split; [lia|].
      split; [exact Hall|]. intros y. rewrite elem_of_cons. split.
      * intros [->|H]; [left; lia|auto].
      * intros [H|H]; [left; lia|auto].
Qed.

Lemma parse_yearSegments (fuel : nat) (years : list Z) (parts : list string)
  (acc : gset Z) :
  (length years <= fuel)%nat ->
  Forall (fun y => 0 < y < 2 ^ 63 - 1) years ->
  Forall2 (fun part segment => TrimSpace part = segment) parts
    (yearSegments fuel years) ->
  years <> [] \/ acc <> ∅ ->
  exists found : gset Z,
    parseSegments parts acc = Parsed (mkYearFilter false found)
    /\ forall y : Z, y ∈ found <-> y ∈ acc \/ y ∈ years.
Proof.
  revert years parts acc.
  assert (Hnil : forall (parts : list string) (acc : gset Z),
             Forall2 (fun part segment => TrimSpace part = segment) parts [] ->
             [] <> @nil Z \/ acc <> ∅ ->
             exists found : gset Z,
               parseSegments parts acc = Parsed (mkYearFilter false found)
               /\ forall y : Z, y ∈ found <-> y ∈ acc \/ y ∈ @nil Z).
  { intros parts acc Hparts [Hne|Hne]; [contradiction|].
    inversion Hparts; subst. cbn [parseSegments].
    destruct (Z.eqb_spec (Z.of_nat (size acc)) 0) as [Hsize|_].
    - destruct Hne. apply leibniz_equiv, size_empty_iff. lia.
    - exists acc. split; [reflexivity|]. intros y. split; [auto|].
      intros [H|H]; [exact H|inversion H]. }
  induction fuel as [|fuel IH]; intros years parts acc Hlen Hall Hparts Hne.
  - destruct years; [|cbn in Hlen; lia]. apply Hnil; assumption.
  - destruct years as [|start rest]; [apply Hnil; assumption|].
    cbn [yearSegments] in Hparts.
    destruct (runEnd start rest) as [last rest'] eqn:Hrun.
    destruct (runEnd_spec _ _ _ _ Hall Hrun) as (Hle & Hlen' & Hall' & Hin).
    inversion Hparts as [|part seg parts' segs Hpart Hparts']; subst.
    inversion Hall as [|? ? Hstart _]; subst.
    inversion Hall' as [|? ? Hlast Hrest']; subst.
    destruct (parseSegments_formatted part parts' acc start last)
      as (years' & Hstep & Hin'); [lia|lia|lia|exact Hpart|].
    rewrite Hstep.
    destruct (IH rest' parts' years') as (found & Hparse & Hfound).
    + cbn [length] in Hlen. lia.
    + exact Hrest'.
    + exact Hparts'.
    + right. intros Hempty.
      assert (Hs : start ∈ years') by (apply Hin'; right; lia).
      rewrite Hempty in Hs. apply elem_of_empty in Hs. contradiction.
    + exists found. split; [exact Hparse|]. intros y.
      rewrite Hfound, Hin', Hin. tauto.
Qed.

Lemma yearSegments_printed (fuel : nat) (years : list Z) :
  Forall (fun y => 0 < y < 2 ^ 63 - 1) years ->
  Forall
    (fun segment =>
       allBytes (fun c => isDigit c || Ascii.eqb c "-") segment = true
       /\ exists (d : Z) (t : string),
            segment = String (digitChar d) t /\ 1 <= d <= 9)
    (yearSegments fuel years).
Proof.
  revert years. induction fuel as [|fuel IH]; intros years Hall;
    [constructor|].
  destruct years as [|start rest]; [constructor|]. cbn [yearSegments].
  destruct (runEnd start rest) as [last rest'] eqn:Hrun.
  destruct (runEnd_spec _ _ _ _ Hall Hrun) as (_ & _ & Hall' & _).
  inversion Hall as [|? ? Hstart _]; subst.
  inversion Hall' as [|? ? Hlast Hrest']; subst.
  constructor; [|apply IH, Hrest'].
  apply formatYearSegment_bytes; lia.
Qed.

Lemma Join_cons (s s' : string) (rest : list string) (sep : string) :
  Join (s :: s' :: rest) sep = (s ++ sep ++ Join (s' :: rest) sep)%string.
Proof. reflexivity. Qed.

Lemma Join_printed (segments : list string) :
  Forall
    (fun segment =>
       allBytes (fun c => isDigit c || Ascii.eqb c "-") segment = true
       /\ exists (d : Z) (t : string),
            segment = String (digitChar d) t /\ 1 <= d <= 9)
    segments ->
  segments <> [] ->
  TrimSpace (Join segments ", ") = Join segments ", "
  /\ String.eqb (Join segments ", ") "" = false
  /\ String.eqb (Join segments ", ") "0" = false
  /\ Forall2 (fun part segment => TrimSpace part = segment)
       (Split (Join segments ", ") ",") segments.
Proof.
  intros Hall Hne.
  assert (Hright : trimRight (Join segments ", ") = Join segments ", "
                   /\ Join segments ", " <> ""
                   /\ isASCII (Join segments ", ") = true
                   /\ exists parts,
                        Split (Join segments ", ") "," = parts
                        /\ Forall2
                             (fun part segment =>
                                isASCII part = true
                                /\ TrimSpace part = segment)
                             parts segments).
  { induction Hall as [|s rest (Hb & d & t & Hs & Hd) Hrest IH];
      [contradiction|].
    destruct (TrimSpace_segment s d t Hb Hs Hd) as (Htrim & Hnb & _ & Hnc).
    pose proof (isASCII_segment s Hb) as Hascii.
    assert (Hr : trimRight s = s).
    { rewrite TrimSpace_ASCII in Htrim by exact Hascii.
      unfold asciiTrimSpace in Htrim.
      replace (trimLeft s) with s in Htrim; [exact Htrim|].
      rewrite Hs. cbn [trimLeft].
      rewrite (proj1 (isDigit_plain _ (digitChar_isDigit d ltac:(lia)))).
      reflexivity. }
    destruct rest as [|s' rest].
    - cbn [Join]. split; [exact Hr|]. split; [rewrite Hs; discriminate|].
      split; [exact Hascii|].
      exists [s]. split; [apply Split_nosep, Hnc|].
      constructor; [auto|constructor].
    - destruct (IH ltac:(discriminate))
        as (Hr' & Hne' & Hascii' & parts & Hsplit & Hparts).
      rewrite Join_cons.
      change (s ++ ", " ++ Join (s' :: rest) ", ")%string
        with (s ++ String "," (String " " (Join (s' :: rest) ", ")))%string.
      split; [|split; [|split]].
      + apply trimRight_app_keep; [|discriminate].
        apply (trimRight_app_keep ", " _ Hr' Hne').
      + rewrite Hs. discriminate.
      + rewrite isASCII_app, !isASCII_String, Hascii, Hascii'. reflexivity.
      + rewrite (Split_app_sep _ _ _ Hnc). cbn [Split].
        change (Ascii.eqb " " ",") with false. cbn iota.
        rewrite Hsplit.
        apply Forall2_cons_inv_r in Hparts
          as (part & parts' & [Hpa Hpart] & Hparts' & ->).
        eexists. split; [reflexivity|].
        constructor; [auto|]. constructor; [|exact Hparts'].
        assert (Hpa' : isASCII (String " " part) = true)
          by (rewrite isASCII_String, Hpa; reflexivity).
        split; [exact Hpa'|].
        rewrite TrimSpace_ASCII by exact Hpa'.
        rewrite asciiTrimSpace_space, <- TrimSpace_ASCII by exact Hpa.
        exact Hpart. }
  destruct Hright as (Hr & Hnonempty & Hascii & parts & Hsplit & Hparts).
  destruct Hall as [|s rest (Hb & d & t & Hs & Hd) Hrest]; [contradiction|].
  assert (Hhead : exists t', Join (s :: rest) ", " = String (digitChar d) t').
  { destruct rest as [|s' rest]; [cbn [Join]; eauto|].
    rewrite Join_cons, Hs. eexists. apply append_String. }
  destruct Hhead as [t' Hhead].
  split; [|split; [|split]].
  - rewrite TrimSpace_ASCII by exact Hascii. unfold asciiTrimSpace.
    replace (trimLeft (Join (s :: rest) ", ")) with (Join (s :: rest) ", ");
      [exact Hr|].
    rewrite Hhead. cbn [trimLeft].
    rewrite (proj1 (isDigit_plain _ (digitChar_isDigit d ltac:(lia)))).
    reflexivity.
  - rewrite Hhead. reflexivity.
  - rewrite Hhead. apply String.eqb_neq. intros [= He _].
    exact (digitChar_inj_0 d Hd He).
  - rewrite Hsplit. eapply Forall2_impl; [exact Hparts|].
    intros part segment [_ H]. exact H.
Qed.

(** X23. Printing a year filter and parsing it back gives the filter:
    [parseYearFilter (f.String())] returns [f] for the all-years filter, and
    for every filter that holds a set of years that is not empty, all
    positive and below the largest [int]. *)
Theorem parseYearFilter_String (f : yearFilter) :
  (fAll f = true /\ fYears f = ∅)
  \/ (fAll f = false /\ fYears f <> ∅
      /\ forall y : Z, y ∈ fYears f -> 0 < y < 2 ^ 63 - 1) ->
  parseYearFilter (String_ f) = Parsed f.
Proof.
  intros [[Hall Hempty]|(Hall & Hne & Hrange)].
  - unfold String_, parseYearFilter. rewrite Hall, TrimSpace_nil.
    destruct f as [a ys]. cbn in *. subst. reflexivity.
  - unfold String_. rewrite Hall.
    set (years := merge_sort Z.le (elements (fYears f))).
    assert (Hin : forall y, y ∈ years <-> y ∈ fYears f).
    { intros y. unfold years. rewrite merge_sort_Permutation.
      apply elem_of_elements. }
    assert (Hyears : Forall (fun y => 0 < y < 2 ^ 63 - 1) years).
    { apply Forall_forall. intros y Hy. apply Hrange, Hin, Hy. }
    assert (Hnil : years <> []).
    { intros Hnil. apply Hne. apply leibniz_equiv. intros y.
      rewrite <- Hin, Hnil. split; intros H; [inversion H|].
      apply elem_of_empty in H. contradiction. }
    assert (Hsegs : yearSegments (length years) years <> []).
    { destruct years as [|start rest]; [contradiction|]. cbn [length yearSegments].
      destruct (runEnd start rest). discriminate. }
    destruct (Join_printed _ (yearSegments_printed (length years) years Hyears)
                Hsegs) as (Htrim & Hnb & Hnz & Hparts).
    unfold parseYearFilter. rewrite Htrim, Hnb, Hnz. cbn [orb].
    destruct (parse_yearSegments (length years) years _ ∅ ltac:(lia) Hyears
                Hparts (or_introl Hnil)) as (found & Hparse & Hfound).
    rewrite Hparse. destruct f as [a ys]. cbn in *. subst a. do 2 f_equal.
    apply leibniz_equiv. intros y. rewrite Hfound, Hin. split; [|auto].
    intros [H|H]; [apply elem_of_empty in H; contradiction|exact H].
Qed.

End WithStrings.

Lemma parseYearFilter_String_witness :
  parseYearFilter (String_ (mkYearFilter false {[2018; 2020; 2021]}))
  = Parsed (mkYearFilter false {[2018; 2020; 2021]}).
Proof.
  apply (parseYearFilter_String (mkYearFilter false {[2018; 2020; 2021]})).
  right. split; [reflexivity|]. split.
  - intros H. assert (Hy : 2018 ∈ ({[2018; 2020; 2021]} : gset Z))
      by (apply elem_of_union_l, elem_of_union_l, elem_of_singleton;
          reflexivity).
    cbn [fYears] in H. rewrite H in Hy. apply elem_of_empty in Hy. exact Hy.
  - intros y Hy. cbn [fYears] in Hy.
    repeat rewrite elem_of_union in Hy. repeat rewrite elem_of_singleton in Hy.
    lia.
Defined.

Section WithStrings.
Context {strings : Strings}.

(** ** What a failed load says *)

Lemma scanLoop_failed (fileName : string) (lines : list string)
  (sawRecord : bool) (records : list Record_) (saw : bool) (err : loadError) :
  scanLoop fileName appendRecord lines sawRecord [] = (records, saw, Some err) ->
  exists (pre : list string) (text : string) (post : list string),
    lines = (pre ++ text :: post)%list
    /\ Forall2 lineRecord (List.filter notBlank pre) records
    /\ notBlank text = true
    /\ badLine fileName text err.
Proof.
  revert sawRecord records saw.
  induction lines as [|text lines IH]; intros sawRecord records saw;
    [discriminate|].
  cbn [scanLoop].
  destruct (String.eqb (TrimSpace text) "") eqn:Hb.
  { intros (pre & bad & post & -> & Hpre & Hbad)%IH.
    exists (text :: pre), bad, post. split; [reflexivity|].
    split; [|exact Hbad]. cbn [List.filter]. unfold notBlank at 1.
    rewrite Hb. exact Hpre. }
  assert (Hnb : notBlank text = true) by (unfold notBlank; rewrite Hb; reflexivity).
  assert (Hstop : forall e : loadError,
             badLine fileName text e ->
             ([], sawRecord, Some e) = (records, saw, Some err) ->
             exists (pre : list string) (bad : string) (post : list string),
               text :: lines = (pre ++ bad :: post)%list
               /\ Forall2 lineRecord (List.filter notBlank pre) records
               /\ notBlank bad = true
               /\ badLine fileName bad err).
  { intros e Hbad [= <- <- <-]. exists [], text, lines.
    split; [reflexivity|]. split; [constructor|auto]. }
  unfold badLine in Hstop.
  destruct (Split (TrimSpace text) ",") as [|p0 [|p1 [|p2 [|p3 [|p4 [|p5 l]]]]]]
    eqn:Hsplit; try (apply Hstop; reflexivity).
  destruct (Atoi p2) as [year|] eqn:Hy; [|apply Hstop; left; auto].
  destruct (Atoi p4) as [count|] eqn:Hc;
    [|apply Hstop; right; split; [discriminate|auto]].
  rewrite appendRecord_eq. cbn [app]. rewrite scanLoop_from.
  destruct (scanLoop fileName appendRecord lines true [])
    as [[rest saw'] err'] eqn:Hrest.
  intros [= <- <- ->].
  apply IH in Hrest as (pre & bad & post & -> & Hpre & Hbad).
  exists (text :: pre), bad, post. split; [reflexivity|].
  split; [|exact Hbad]. cbn [List.filter]. rewrite Hnb. cbn [app].
  constructor; [|exact Hpre]. exists p2, p4. cbn. auto.
Qed.

(** X24. A failed [loadRecordsFromFile] names the first thing that went
    wrong: the file does not open; or a line that is not blank, after lines
    that are blank or hold records, has not five fields, or a year that
    does not parse, or (its year parsing) a count that does not parse; or
    every line is blank or holds a record and the scan ended in an error;
    or the scan ended well and every line is blank. *)
Theorem loadRecordsFromFile_failed (fsys : FS) (fileName : string)
  (err : loadError) :
  loadRecordsFromFile fsys fileName = Failed err ->
  (fsOpen fsys fileName = None /\ err = ErrOpen fileName)
  \/ exists file : scanned,
       fsOpen fsys fileName = Some file
       /\ ((exists (pre : list string) (text : string) (post : list string)
                   (records : list Record_),
              scLines file = (pre ++ text :: post)%list
              /\ Forall2 lineRecord (List.filter notBlank pre) records
              /\ notBlank text = true
              /\ badLine fileName text err)
           \/ (scErr file = true /\ err = ErrScan fileName
               /\ exists records : list Record_,
                    Forall2 lineRecord (List.filter notBlank (scLines file))
                      records)
           \/ (scErr file = false /\ err = ErrNoRecordsInFile fileName
               /\ List.filter notBlank (scLines file) = [])).
Proof.
  unfold loadRecordsFromFile, readRecordsFromFile.
  destruct (fsOpen fsys fileName) as [file|]; [|intros [= <-]; auto].
  intros Hfail. right. exists file. split; [reflexivity|].
  destruct (scanLoop fileName appendRecord (scLines file) false [])
    as [[records saw] [e|]] eqn:Hscan.
  - injection Hfail as ->. left.
    destruct (scanLoop_failed _ _ _ _ _ _ Hscan)
      as (pre & text & post & Hl & Hpre & Hbad).
    exists pre, text, post, records. auto.
  - apply scanLoop_loaded in Hscan as [Hf Hsaw]. cbn [orb] in Hsaw.
    destruct (scErr file).
    + injection Hfail as <-. right. left. eauto.
    + destruct saw; cbn [negb] in Hfail; [discriminate|].
      injection Hfail as <-. right. right.
      split; [reflexivity|]. split; [reflexivity|].
      symmetry in Hsaw. apply negb_false_iff, len_nil_iff in Hsaw. subst records.
      inversion Hf. reflexivity.
Qed.

End WithStrings.

Lemma loadRecordsFromFile_failed_witness :
  (fsOpen brokenFS "CA.TXT" = None
   /\ ErrMalformedLine "CA.TXT" "oops,1" = ErrOpen "CA.TXT")
  \/ exists file : scanned,
       fsOpen brokenFS "CA.TXT" = Some file
       /\ ((exists (pre : list string) (text : string) (post : list string)
                   (records : list Record_),
              scLines file = (pre ++ text :: post)%list
              /\ Forall2 lineRecord (List.filter notBlank pre) records
              /\ notBlank text = true
              /\ badLine "CA.TXT" text (ErrMalformedLine "CA.TXT" "oops,1"))
           \/ (scErr file = true
               /\ ErrMalformedLine "CA.TXT" "oops,1" = ErrScan "CA.TXT"
               /\ exists records : list Record_,
                    Forall2 lineRecord (List.filter notBlank (scLines file))
                      records)
           \/ (scErr file = false
               /\ ErrMalformedLine "CA.TXT" "oops,1"
                  = ErrNoRecordsInFile "CA.TXT"
               /\ List.filter notBlank (scLines file) = [])).
Proof.
  apply (loadRecordsFromFile_failed brokenFS "CA.TXT"
           (ErrMalformedLine "CA.TXT" "oops,1")).
  vm_compute. reflexivity.
Defined.

Section WithStrings.
Context {strings : Strings}.

(** * The streaming functions: every run, and each other *)

(** X25. [AggregateFromFS] is deterministic: whatever order the range over
    the map of counts takes and whatever list the unstable sort returns,
    the outcome is the same. *)
Theorem AggregateFromFS_deterministic (fsys : FS) (state : string) (year : Z)
  (gender : string) (out : loaded (list NameCount * Z)) :
  AggregateFromFS_run fsys state year gender out
  <-> out = AggregateFromFS fsys state year gender.
Proof.
  unfold AggregateFromFS_run, AggregateFromFS.
  destruct (walkRecords fsys state _ _) as [st [err|]]; [reflexivity|].
  destruct (fsTotal st =? 0); [reflexivity|]. split.
  - intros (visited & aggregated & Hperm & Hsort & ->).
    rewrite (sortSlice_spec_unique (fsEntries st) visited aggregated Hperm Hsort).
    reflexivity.
  - intros ->. exists (fsEntries st), (sortSlice (fsEntries st)).
    split; [reflexivity|]. split; [apply sortSlice_keeps_promise|reflexivity].
Qed.

Lemma filter_ext_elem {A : Type} (f g : A -> bool) (l : list A) :
  (forall x, x ∈ l -> f x = g x) -> List.filter f l = List.filter g l.
Proof.
  induction l as [|x l IH]; intros H; [reflexivity|]. cbn [List.filter].
  rewrite (H x) by left. rewrite IH; [reflexivity|].
  intros y Hy. apply H. right. exact Hy.
Qed.

Section StreamingAgreement.
Context {rng : Type} `{!RandSource rng}.

(** X26. The two streaming functions agree when every record that passes
    the filters has a positive count: if [RandomNameFromFS] returns an entry
    and a total, [AggregateFromFS] succeeds with the same total, and its
    list has an entry of the same name, letter case apart, and the same
    count.  (The spelling may differ: the one is the spelling of the record
    drawn, the other of the first record met.) *)
Theorem RandomNameFromFS_AggregateFromFS (fsys : FS) (state : string)
  (year : Z) (gender : string) (r r' : rng) (records : list Record_)
  (e : NameCount) (sum : Z) :
  loadRecords fsys state = Loaded records ->
  (forall rec, rec ∈ records -> passes year gender rec = true ->
               0 < RCount rec) ->
  RandomNameFromFS fsys state year gender r = Loaded (e, sum, r') ->
  exists (aggregated : list NameCount) (e' : NameCount),
    AggregateFromFS fsys state year gender = Loaded (aggregated, sum)
    /\ e' ∈ aggregated
    /\ ToUpper (Name e') = ToUpper (Name e)
    /\ Count e' = Count e.
Proof.
  intros Hload Hpos. unfold RandomNameFromFS, AggregateFromFS.
  pose proof (walk_fold fsys state
                (drawRecord year (ToUpper (TrimSpace gender)))
                (mkFsDraw 0 "" false r)) as Hw.
  pose proof (walk_fold fsys state
                (countRecord year (ToUpper (TrimSpace gender)))
                (mkFsTotals ∅ ∅ 0)) as Hc.
  rewrite Hload in Hw, Hc. rewrite Hw, Hc. cbn zeta.
  set (st := fold_left (drawRecord year (ToUpper (TrimSpace gender)))
               records (mkFsDraw 0 "" false r)).
  destruct (drawRecord_fold year gender records (mkFsDraw 0 "" false r))
    as [Htot Hcand].
  cbn zeta in Htot, Hcand. fold st in Htot, Hcand.
  cbn [drTotal drChosen] in Htot, Hcand.
  destruct (negb (drChosen st) || (drTotal st =? 0)) eqn:Hfail; [discriminate|].
  apply orb_false_iff in Hfail as [Hch%negb_false_iff Hne%Z.eqb_neq].
  pose proof (walk_fold fsys state
                (countCandidate year (ToUpper (TrimSpace gender))
                   (ToUpper (drCandidate st))) 0) as Hw2.
  rewrite Hload in Hw2. rewrite Hw2. intros [= <- <- <-].
  destruct (countRecord_aggregated year gender records) as [Hagg Hsum].
  cbn zeta in Hagg, Hsum. rewrite Hagg, Hsum.
  set (kept := List.filter positive records) in *.
  assert (Htotal : sumCounts (AggregateNames kept year gender).1 = drTotal st).
  { rewrite aggregated_sum, Htot. unfold kept. rewrite filter_filter.
    reflexivity. }
  rewrite Htotal. destruct (Z.eqb_spec (drTotal st) 0) as [|_]; [contradiction|].
  destruct (Hcand Hch) as [[Hf _]|(rec & Hin & Hkeep & Hname)]; [discriminate|].
  apply andb_true_iff in Hkeep as [Hp Hpass].
  destruct (proj2 (aggregated_has_key kept year gender (ToUpper (RName rec))))
    as (e' & He' & Hkey).
  { exists rec. split; [|auto]. apply elem_of_filter_list. auto. }
  exists (AggregateNames kept year gender).1, e'.
  split; [reflexivity|]. split; [exact He'|]. cbn [Name Count].
  split; [rewrite Hname; exact Hkey|].
  rewrite (aggregated_count kept year gender e' He'), countCandidate_fold.
  unfold aggregatedCount, sumRecordCounts, sum64, kept.
  rewrite filter_filter. f_equal. f_equal. apply filter_ext_elem.
  intros x Hx. unfold carries. rewrite Hkey, Hname.
  destruct (passes year gender x) eqn:Hpx; cbn [andb];
    [|apply andb_false_r].
  unfold positive. destruct (Z.ltb_spec 0 (RCount x)) as [|Hle];
    [reflexivity|].
  specialize (Hpos x Hx Hpx). lia.
Qed.
End StreamingAgreement.

End WithStrings.

Lemma RandomNameFromFS_AggregateFromFS_witness :
  exists (aggregated : list NameCount) (e' : NameCount),
    AggregateFromFS sampleFS "CA" 2019 "F" = Loaded (aggregated, 230)
    /\ e' ∈ aggregated
    /\ ToUpper (Name e') = ToUpper (Name (mkNameCount "Emma" 90))
    /\ Count e' = Count (mkNameCount "Emma" 90).
Proof.
  apply (RandomNameFromFS_AggregateFromFS sampleFS "CA" 2019 "F"
           (mkTape [] [0.25%float; 0.25%float]) (mkTape [] []) sampleCA).
  - vm_compute. reflexivity.
  - intros rec Hrec _. unfold sampleCA in Hrec.
    repeat (apply elem_of_cons in Hrec as [->|Hrec]; [cbn; lia|]).
    inversion Hrec.
  - vm_compute. reflexivity.
Defined.

(** * ASCII data: the program runs as with the functions on ASCII text *)

Section WithStrings.
Context {strings : Strings}.

Lemma trimLeft_isASCII (s : string) :
  isASCII s = true -> isASCII (trimLeft s) = true.
Proof.
  induction s as [|c s IH]; [auto|]. cbn [trimLeft].
  destruct (isSpace c); [|auto]. rewrite isASCII_String.
  intros [_ H]%andb_true_iff. auto.
Qed.

Lemma trimRight_isASCII (s : string) :
  isASCII s = true -> isASCII (trimRight s) = true.
Proof.
  induction s as [|c s IH]; [auto|]. rewrite isASCII_String, trimRight_cons.
  intros [Hc Hs]%andb_true_iff. specialize (IH Hs).
  destruct (trimRight s) as [|x t].
  - destruct (isSpace c); [reflexivity|]. rewrite isASCII_String, Hc.
    reflexivity.
  - rewrite isASCII_String, Hc. exact IH.
Qed.

Lemma asciiTrimSpace_isASCII (s : string) :
  isASCII s = true -> isASCII (asciiTrimSpace s) = true.
Proof. intros H. apply trimRight_isASCII, trimLeft_isASCII, H. Qed.

Lemma filter_ascii (gender : string) :
  isASCII gender = true ->
  ToUpper (TrimSpace gender) = asciiToUpper (asciiTrimSpace gender).
Proof.
  intros H. rewrite (TrimSpace_ASCII _ H).
  apply ToUpper_ASCII, asciiTrimSpace_isASCII, H.
Qed.

Lemma skipGender_ascii (gender : string) (r : Record_) :
  isASCII (Gender r) = true ->
  skipGender gender r = skipGender (strings := asciiStrings) gender r.
Proof. intros H. unfold skipGender. rewrite (ToUpper_ASCII _ H). reflexivity. Qed.

Lemma addRecord_ascii (m : gmap string NameCount) (r : Record_) :
  isASCII (RName r) = true ->
  addRecord m r = addRecord (strings := asciiStrings) m r.
Proof. intros H. unfold addRecord. rewrite (ToUpper_ASCII _ H). reflexivity. Qed.

Lemma groupTotals_ascii (records : list Record_) (year : Z) (gender : string) :
  Forall asciiRecord records ->
  groupTotals records year gender
  = groupTotals (strings := asciiStrings) records year gender.
Proof.
  intros Hall. unfold groupTotals. generalize (∅ : gmap string NameCount).
  induction Hall as [|r records [Hg Hn] _ IH]; intros m; [reflexivity|].
  cbn [fold_left]. rewrite (skipGender_ascii _ _ Hg), (addRecord_ascii _ _ Hn).
  apply IH.
Qed.

Lemma addRecord_names (m : gmap string NameCount) (r : Record_) :
  isASCII (RName r) = true ->
  map_Forall (fun _ e => isASCII (Name e) = true) m ->
  map_Forall (fun _ e => isASCII (Name e) = true) (addRecord m r).
Proof.
  intros Hn Hm. unfold addRecord. apply map_Forall_insert_2; [|exact Hm].
  cbn [Name]. destruct (m !! ToUpper (RName r)) as [e|] eqn:He; cbn;
    [apply (Hm _ _ He)|exact Hn].
Qed.

Lemma groupTotals_names (records : list Record_) (year : Z) (gender : string) :
  Forall asciiRecord records ->
  map_Forall (fun _ e => isASCII (Name e) = true)
    (groupTotals records year gender).
Proof.
  intros Hall. unfold groupTotals.
  assert (Hm : map_Forall (fun _ e => isASCII (Name e) = true)
                 (∅ : gmap string NameCount)) by apply map_Forall_empty.
  revert Hm. generalize (∅ : gmap string NameCount).
  induction Hall as [|r records [Hg Hn] _ IH]; intros m Hm; [exact Hm|].
  cbn [fold_left]. apply IH.
  destruct (skipYear year r); [exact Hm|].
  destruct (skipGender gender r); [exact Hm|].
  apply addRecord_names; assumption.
Qed.

Lemma entriesOf_names (m : gmap string NameCount) :
  map_Forall (fun _ e => isASCII (Name e) = true) m ->
  Forall (fun e => isASCII (Name e) = true) (sortSlice (entriesOf m)).
Proof.
  intros Hm. rewrite sortSlice_perm. unfold entriesOf.
  apply Forall_fmap, Forall_forall. intros [k e] Hin.
  apply elem_of_map_to_list in Hin. exact (Hm _ _ Hin).
Qed.

Lemma rankLoop_ascii (idx : Z) (l : list NameCount) (ranks : gmap string Z) :
  Forall (fun e => isASCII (Name e) = true) l ->
  rankLoop idx l ranks = rankLoop (strings := asciiStrings) idx l ranks.
Proof.
  intros Hall. revert idx ranks.
  induction Hall as [|e l He _ IH]; intros idx ranks; [reflexivity|].
  cbn [rankLoop]. rewrite (ToUpper_ASCII _ He). apply IH.
Qed.

(** On records and a gender filter that are ASCII text, [AggregateNames] is
    [AggregateNames] with the functions on ASCII text. *)
Lemma AggregateNames_ascii (records : list Record_) (year : Z)
  (gender : string) :
  Forall asciiRecord records -> isASCII gender = true ->
  AggregateNames records year gender
  = AggregateNames (strings := asciiStrings) records year gender.
Proof.
  intros Hr Hg. unfold AggregateNames. cbn zeta.
  rewrite (rankLoop_ascii _ _ _ (entriesOf_names _ (groupTotals_names _ _ _ Hr))).
  rewrite (filter_ascii _ Hg), (groupTotals_ascii _ _ _ Hr). reflexivity.
Qed.

Lemma RankFromAggregate_ascii (aggregated : list NameCount)
  (ranks : gmap string Z) (name : string) :
  isASCII name = true ->
  RankFromAggregate aggregated ranks name
  = RankFromAggregate (strings := asciiStrings) aggregated ranks name.
Proof.
  intros Hn. unfold RankFromAggregate.
  rewrite (TrimSpace_ASCII _ Hn), (ToUpper_ASCII _ Hn). reflexivity.
Qed.

Lemma Rank_ascii (records : list Record_) (year : Z) (gender name : string) :
  Forall asciiRecord records -> isASCII gender = true ->
  isASCII name = true ->
  Rank records year gender name
  = Rank (strings := asciiStrings) records year gender name.
Proof.
  intros Hr Hg Hn. unfold Rank.
  rewrite (AggregateNames_ascii _ _ _ Hr Hg).
  destruct (AggregateNames (strings := asciiStrings) records year gender).
  apply RankFromAggregate_ascii, Hn.
Qed.

Lemma requestStep_ascii (st : gmap string bool * list request) (raw : string) :
  isASCII raw = true ->
  requestStep st raw = requestStep (strings := asciiStrings) st raw.
Proof.
  intros H. unfold requestStep. destruct st as [seen requested].
  rewrite (TrimSpace_ASCII _ H).
  rewrite (ToUpper_ASCII _ (asciiTrimSpace_isASCII _ H)). reflexivity.
Qed.

Lemma requestedOf_ascii (names : list string) :
  Forall (fun name => isASCII name = true) names ->
  requestedOf names = requestedOf (strings := asciiStrings) names.
Proof.
  intros Hall. unfold requestedOf. f_equal.
  generalize ((∅, []) : gmap string bool * list request).
  induction Hall as [|raw names Hraw _ IH]; intros st; [reflexivity|].
  cbn [fold_left]. rewrite (requestStep_ascii _ _ Hraw). apply IH.
Qed.

Lemma trendStep_ascii (gender : string)
  (st : gmap Z (gmap string NameCount) * gmap Z Z) (r : Record_) :
  asciiRecord r ->
  trendStep gender st r = trendStep (strings := asciiStrings) gender st r.
Proof.
  intros [Hg Hn]. unfold trendStep. destruct st as [yearly totals].
  rewrite (skipGender_ascii _ _ Hg), (addRecord_ascii _ _ Hn). reflexivity.
Qed.

Lemma yearlyOf_ascii (records : list Record_) (gender : string) :
  Forall asciiRecord records ->
  yearlyOf records gender = yearlyOf (strings := asciiStrings) records gender.
Proof.
  intros Hall. unfold yearlyOf.
  generalize ((∅, ∅) : gmap Z (gmap string NameCount) * gmap Z Z).
  induction Hall as [|r records Hr _ IH]; intros st; [reflexivity|].
  cbn [fold_left]. rewrite (trendStep_ascii _ _ _ Hr). apply IH.
Qed.

Lemma yearlyOf_names (records : list Record_) (gender : string) :
  Forall asciiRecord records ->
  map_Forall
    (fun _ m => map_Forall (fun _ e => isASCII (Name e) = true) m)
    (yearlyOf records gender).1.
Proof.
  intros Hall. unfold yearlyOf.
  assert (Hst : map_Forall
                  (fun (_ : Z) (m : gmap string NameCount) =>
                     map_Forall (fun _ e => isASCII (Name e) = true) m)
                  ((∅, ∅) : gmap Z (gmap string NameCount) * gmap Z Z).1)
    by apply map_Forall_empty.
  revert Hst. generalize ((∅, ∅) : gmap Z (gmap string NameCount) * gmap Z Z).
  induction Hall as [|r records [Hg Hn] _ IH]; intros st Hst; [exact Hst|].
  cbn [fold_left]. apply IH. unfold trendStep. destruct st as [yearly totals].
  destruct (skipGender gender r); [exact Hst|]. cbn [fst] in *.
  apply map_Forall_insert_2; [|exact Hst].
  apply addRecord_names; [exact Hn|].
  destruct (yearly !! Year r) as [m|] eqn:Hm; cbn;
    [exact (Hst _ _ Hm)|apply map_Forall_empty].
Qed.

Lemma yearRanksOf_ascii (yearly : gmap Z (gmap string NameCount))
  (years : list Z) :
  map_Forall
    (fun _ m => map_Forall (fun _ e => isASCII (Name e) = true) m) yearly ->
  yearRanksOf yearly years
  = yearRanksOf (strings := asciiStrings) yearly years.
Proof.
  intros Hy. unfold yearRanksOf. generalize (∅ : gmap Z (gmap string Z)).
  induction years as [|y years IH]; intros acc; [reflexivity|].
  cbn [fold_left]. rewrite rankLoop_ascii; [apply IH|].
  apply entriesOf_names.
  destruct (yearly !! y) as [m|] eqn:Hm; cbn;
    [exact (Hy _ _ Hm)|apply map_Forall_empty].
Qed.

(** On records, a gender filter and names that are ASCII text, [Trend] is
    [Trend] with the functions on ASCII text. *)
Lemma Trend_run_ascii
  (order : gmap Z (gmap string NameCount) -> list (Z * gmap string NameCount))
  (records : list Record_) (gender : string) (names : list string) :
  Forall asciiRecord records -> isASCII gender = true ->
  Forall (fun name => isASCII name = true) names ->
  Trend_run order records gender names
  = Trend_run (strings := asciiStrings) order records gender names.
Proof.
  intros Hr Hg Hn. unfold Trend_run.
  rewrite (filter_ascii _ Hg), (requestedOf_ascii _ Hn).
  rewrite <- (yearlyOf_ascii records _ Hr).
  pose proof (yearlyOf_names records (asciiToUpper (asciiTrimSpace gender)) Hr)
    as Hnames.
  change (@ToUpper asciiStrings (@TrimSpace asciiStrings gender))
    with (asciiToUpper (asciiTrimSpace gender)).
  destruct (yearlyOf records (asciiToUpper (asciiTrimSpace gender)))
    as [yearly totals].
  cbn [fst] in Hnames. rewrite (yearRanksOf_ascii _ _ Hnames). reflexivity.
Qed.

(** The runs that refute the claims as stated do not depend on what the
    library does beyond ASCII. *)
Example rank_zero_count_run :
  Rank [mkRecord "CA" "F" 2019 "Zed" 0] 2019 "F" "Zed"
  = Ok (1, mkNameCount "Zed" 0).
Proof.
  rewrite Rank_ascii by (repeat constructor). vm_compute. reflexivity.
Qed.

Example rank_blank_run :
  AggregateNames [mkRecord "CA" "F" 2019 "" 7] 2019 "F"
  = ([mkNameCount "" 7], {[ "" := 1 ]})
  /\ RankFromAggregate [mkNameCount "" 7] {[ "" := 1 ]} ""
     = Err ErrNameRequired.
Proof.
  rewrite AggregateNames_ascii, RankFromAggregate_ascii
    by (repeat constructor).
  split; vm_compute; reflexivity.
Qed.

Example aggregate_ties_case_run :
  (AggregateNames [mkRecord "CA" "F" 2019 "a" 1; mkRecord "CA" "F" 2019 "B" 1]
     2019 "F").1
  = [mkNameCount "B" 1; mkNameCount "a" 1]
  /\ lessFold "a" "B" = true.
Proof.
  rewrite AggregateNames_ascii by (repeat constructor).
  unfold lessFold. rewrite !ToUpper_ASCII by reflexivity.
  split; vm_compute; reflexivity.
Qed.

Example Trend_zero_count_run :
  exists totals : gmap Z Z,
    Trend [mkRecord "CA" "F" 2019 "Zed" 0] "" ["Zed"]
    = Ok ([2019], [mkTrendSeries "Zed" [mkTrendPoint 2019 1 0 true]], totals).
Proof.
  unfold Trend. rewrite Trend_run_ascii by (repeat constructor).
  eexists. vm_compute. reflexivity.
Qed.

End WithStrings.
